(** * pandas_alive: the data side of the animated bar-chart race

    A shallow embedding of [pandas_alive/charts.py]: the column selection of
    [BaseChart.get_data_cols], the colour table of [BarChart.get_colors],
    the parameter check of [BarChart.validate_params], the value and rank
    frames of [BarChart.prepare_data], the bar selection of
    [BarChart.plot_bars], the frame range of [BarChart.get_frames] and the
    frame count handed to the animation by [animate_multiple_plots].

    A table has a dtype for each column ([int64], [float64] or [object]);
    a cell is an integer, a float, a missing value ([NaN]) or an object
    that is not a number.  A float is carried with its exact value, a
    rational ([Q]), and arithmetic on floats is exact: the rounding of
    float arithmetic is not modelled, the rounding of an integer that
    becomes a float is.  Python [int]s that are labels, sizes or settings
    are [Z]; positions in lists are [nat].  A Python exception is a value
    of [exn] carried by the [result] type.  Calls into matplotlib that only
    draw are left out; what is handed to them is returned instead. *)

From Stdlib Require Import Ascii String ZArith QArith Qminmax Qround List Bool Lia Lqa.
From Stdlib Require Import Sorting.Permutation Sorting.Sorted.
Import ListNotations.

Local Open Scope list_scope.

(** ** Exceptions and results *)

(** The exception classes the file raises or meets.  [TypeError] and
    [ValueError] carry the name of the offending attribute or call;
    [Exception] carries its message. *)
Inductive exn : Type :=
| TypeError (about : string)
| ValueError (about : string)
| IndexError
| ZeroDivisionError
| AttributeError
| Exception (msg : string).

Inductive result (A : Type) : Type :=
| Ok (a : A)
| Raise (e : exn).

Arguments Ok {A} a.
Arguments Raise {A} e.

Definition bind {A B : Type} (r : result A) (k : A -> result B) : result B :=
  match r with
  | Ok a => k a
  | Raise e => Raise e
  end.

Notation "x <- r ;; k" := (bind r (fun x => k))
  (at level 61, r at next level, right associativity).
Notation "' p <- r ;; k" := (bind r (fun x => match x with p => k end))
  (at level 61, p pattern, r at next level, right associativity).

Definition is_ok {A : Type} (r : result A) : bool :=
  match r with Ok _ => true | Raise _ => false end.

(** ** Tables *)

(** The dtype of a column. *)
Inductive dtype : Type := Int64 | Float64 | ObjectDtype.

(** A cell: an integer, a float with its exact value, a missing value, or
    an object that is not a number (a string, say).  In a table of pandas
    the cells of an [int64] column are integers, those of a [float64]
    column floats or [NaN]; an [object] column holds anything. *)
Inductive cell : Type :=
| Int (z : Z)
| Num (q : Q)
| NaN
| Obj (s : string).

(** [pd.DataFrame]: the column labels, the dtype of each column, and the
    rows, each row with its index label (written as the string
    [astype("str")] gives). *)
Record DataFrame : Type := mkDataFrame {
  columns : list string;
  dtypes : list dtype;
  rows : list (string * list cell)
}.

Definition index (df : DataFrame) : list string := map fst (rows df).

(** [df.shape[1]] *)
Definition shape1 (df : DataFrame) : nat := length (columns df).

(** [np.issubdtype(d, np.number)] *)
Definition is_number_dtype (d : dtype) : bool :=
  match d with ObjectDtype => false | _ => true end.

(** Positions of the columns labelled [col]. *)
Fixpoint positions_of (col : string) (cols : list string) (i : nat) : list nat :=
  match cols with
  | [] => []
  | c :: rest =>
      if String.eqb c col then i :: positions_of col rest (S i)
      else positions_of col rest (S i)
  end.

(** [np.issubdtype(df[col].dtype, np.number)].  With a label that names
    two columns [df[col]] is a table and has no [dtype]. *)
Definition column_is_number (df : DataFrame) (col : string) : result bool :=
  match positions_of col (columns df) 0 with
  | [j] => Ok (is_number_dtype (nth j (dtypes df) ObjectDtype))
  | _ => Raise AttributeError
  end.

Definition could_not_find (col : string) : string :=
  ("Could not find '" ++ col ++ "' in the columns of the provided DataFrame/Series. Please provide for the <y> parameter either a column name of the DataFrame/Series or an array of the same length.")%string.

Definition no_numeric : string :=
  "No numeric data columns found for plotting."%string.

(** [col in self.df.columns] *)
Definition in_columns (col : string) (df : DataFrame) : bool :=
  existsb (String.eqb col) (columns df).

(** The loop of [get_data_cols] over [enumerate(self.df.columns)], with the
    list [data_cols] built so far. *)
Fixpoint get_data_cols_loop (df : DataFrame) (todo : list string)
    (data_cols : list string) : result (list string) :=
  match todo with
  | [] => Ok data_cols
  | col :: rest =>
      if negb (in_columns col df) then Raise (Exception (could_not_find col))
      else
        b <- column_is_number df col ;;
        get_data_cols_loop df rest (if b then data_cols ++ [col] else data_cols)
  end.

(** [BaseChart.get_data_cols] *)
Definition get_data_cols (df : DataFrame) : result (list string) :=
  data_cols <- get_data_cols_loop df (columns df) [] ;;
  match data_cols with
  | [] => Raise (Exception no_numeric)
  | _ => Ok data_cols
  end.

(** ** Numbers *)

(** The float an [int64] becomes: the nearest number with 53 significant
    bits, the even one of two that are as near.  Up to [2^53] in size an
    integer stays as it is. *)
Definition float64_of_Z (z : Z) : Q :=
  let a := Z.abs z in
  let e := (Z.log2 a - 52)%Z in
  if (e <=? 0)%Z then inject_Z z
  else
    let q := (a / 2 ^ e)%Z in
    let r := (a mod 2 ^ e)%Z in
    let half := (2 ^ (e - 1))%Z in
    let m := if ((half <? r) || ((r =? half) && Z.odd q))%Z then (q + 1)%Z else q in
    inject_Z (Z.sgn z * m * 2 ^ e).

(** The number a cell holds as it is stored, and as a float. *)
Definition exact (c : cell) : option Q :=
  match c with
  | Int z => Some (inject_Z z)
  | Num q => Some q
  | NaN | Obj _ => None
  end.

Definition as_float (c : cell) : option Q :=
  match c with
  | Int z => Some (float64_of_Z z)
  | Num q => Some q
  | NaN | Obj _ => None
  end.

Definition is_obj (c : cell) : bool :=
  match c with Obj _ => true | _ => false end.

Definition is_number (c : cell) : bool :=
  match c with Int _ | Num _ => true | _ => false end.

Definition is_int64 (d : dtype) : bool :=
  match d with Int64 => true | _ => false end.

Definition is_object (d : dtype) : bool :=
  match d with ObjectDtype => true | _ => false end.

(** ** Frames *)

(** [range(n)] *)
Definition range (n : Z) : list Z := map Z.of_nat (seq 0 (Z.to_nat n)).

(** A row of numbers, [None] for a missing one; a table of such rows with
    integer labels. *)
Definition labelled : Type := list (Z * list (option Q)).

(** [reset_index(drop=True)]: the labels become 0, 1, 2, ... *)
Definition reset_index (vals : list (list (option Q))) : labelled :=
  combine (range (Z.of_nat (length vals))) vals.

(** [df.index = df.index * steps_per_period] *)
Definition scale_index (s : Z) (f : labelled) : labelled :=
  map (fun r => (fst r * s, snd r)%Z) f.

Definition Qltb (a b : Q) : bool := negb (Qle_bool b a).

(** [enumerate(l)] *)
Definition enumerate {A : Type} (l : list A) : list (nat * A) :=
  combine (seq 0 (length l)) l.

(** Column [y] is ranked before column [x]: its value is larger, or equal
    and it stands further left ([ascending=False], [method="first"]). *)
Definition before (y x : nat * Q) : bool :=
  Qltb (snd x) (snd y) || (Qeq_bool (snd y) (snd x) && (fst y <? fst x)%nat).

(** [a] does not come after [b] in the race. *)
Definition not_after (a b : nat * Q) : Prop := before b a = false.

(** [rank(axis=1, method="first", ascending=False)] on one row: a missing
    value keeps no rank ([na_option="keep"]); the rank of a number is one
    more than the number of columns ranked before it, missing values not
    counted. *)
Definition rank_first_desc (row : list (option Q)) : list (option Q) :=
  map (fun x =>
         match snd x with
         | None => None
         | Some v =>
             Some (inject_Z (Z.of_nat (S (length (filter
                     (fun y => match snd y with
                               | Some w => before (fst y, w) (fst x, v)
                               | None => false
                               end)
                     (enumerate row))))))
         end)
      (enumerate row).

(** [rank] orders the cells of a row that are not missing; an object that
    is no number cannot be ordered against a number. *)
Definition rank_check (df : DataFrame) : result unit :=
  if existsb (fun r => existsb is_obj (snd r) && existsb is_number (snd r)) (rows df)
  then Raise (TypeError "rank")
  else Ok tt.

(** [clip(upper=u)] on one number *)
Definition clip_upper (u r : Q) : Q := if Qle_bool r u then r else u.

(** The test of [prepare_data] that turns the ranks round. *)
Definition inverts (sort orientation : string) : bool :=
  (String.eqb sort "desc" && String.eqb orientation "h")
  || (String.eqb sort "asc" && String.eqb orientation "v").

(** [df.index.max()]; on an empty index pandas answers [nan], which
    [range] then refuses. *)
Definition index_max (f : labelled) : result Z :=
  match f with
  | [] => Raise (TypeError "range")
  | r :: rest => Ok (fold_left Z.max (map fst rest) (fst r))
  end.

Fixpoint has_duplicates (l : list Z) : bool :=
  match l with
  | [] => false
  | x :: rest => existsb (Z.eqb x) rest || has_duplicates rest
  end.

Definition lookup (l : Z) (f : labelled) : option (list (option Q)) :=
  match find (fun r => Z.eqb (fst r) l) f with
  | Some r => Some (snd r)
  | None => None
  end.

(** A frame: its index labels, the dtype of each column, and the columns,
    each as long as the index, a missing value being [None]. *)
Record Frame : Type := mkFrame {
  labels : list Z;
  kinds : list dtype;
  series : list (list (option Q))
}.

(** The rows of a frame, as [iloc] reads them. *)
Definition data (f : Frame) : list (list (option Q)) :=
  map (fun i => map (fun col => nth i col None) (series f)) (seq 0 (length (labels f))).

(** Column [j] of a table after [reindex]: for each new label the cell of
    the row that has this label, and a missing value when no row has
    it. *)
Definition reindexed_column (new_index : list Z) (f : labelled) (j : nat)
  : list (option Q) :=
  map (fun l => match lookup l f with
                | Some row => nth j row None
                | None => None
                end) new_index.

(** [df.reindex(new_index)] on a table of [ncols] columns: refused when a
    label of [df] occurs twice. *)
Definition reindex (ncols : nat) (ks : list dtype) (new_index : list Z) (f : labelled)
  : result Frame :=
  if has_duplicates (map fst f) then Raise (ValueError "reindex")
  else Ok (mkFrame new_index ks
             (map (reindexed_column new_index f) (seq 0 ncols))).

(** [reindex] brings in a row of missing values, which turns every column
    of integers into floats, when a new label is no label of the table. *)
Definition adds_rows (new_index old_index : list Z) : bool :=
  existsb (fun l => negb (existsb (Z.eqb l) old_index)) new_index.

(** The value [j] steps out of [g] on the way from [a] to [b]. *)
Definition lerp (a b : Q) (j g : nat) : Q :=
  a + (b - a) * (inject_Z (Z.of_nat j) / inject_Z (Z.of_nat g)).

(** Linear interpolation below a known value [prev], [gap] missing values
    having been passed since: the missing values before the next known
    value are spread evenly between the two, those after the last known
    value repeat it. *)
Fixpoint fill_after (prev : Q) (gap : nat) (l : list (option Q)) : list (option Q) :=
  match l with
  | [] => repeat (Some prev) gap
  | None :: rest => fill_after prev (S gap) rest
  | Some y :: rest =>
      map (fun j => Some (lerp prev y j (S gap))) (seq 1 gap)
      ++ Some y :: fill_after y 0 rest
  end.

(** [interpolate()] (linear, forward) down one column; missing values above
    the first known value stay missing. *)
Fixpoint interpolate_column (l : list (option Q)) : list (option Q) :=
  match l with
  | [] => []
  | None :: rest => None :: interpolate_column rest
  | Some y :: rest => Some y :: fill_after y 0 rest
  end.

(** [df.interpolate()]: each column by itself. *)
Definition interpolate (f : Frame) : Frame :=
  mkFrame (labels f) (kinds f) (map interpolate_column (series f)).

(** The frame [reindex] and [interpolate] make of a labelled table whose
    largest label is [m]. *)
Definition built_frame (ncols : nat) (ks : list dtype) (m : Z) (f : labelled) : Frame :=
  mkFrame (range (m + 1)) ks
    (map (fun j => interpolate_column (reindexed_column (range (m + 1)) f j))
         (seq 0 ncols)).

(** [interpolate] refuses a column of dtype [object]. *)
Definition interpolate_check (df : DataFrame) : result unit :=
  if existsb is_object (dtypes df) || existsb (fun r => existsb is_obj (snd r)) (rows df)
  then Raise (TypeError "interpolate")
  else Ok tt.

(** ** The bar chart *)

Inductive fig_arg : Type := FigNone | FigFigure | FigOther.

Inductive color : Type :=
| Named (s : string)
| RGBA (r g b a : Q).

(** What [cmap] may be: a name, a matplotlib colormap (with the table
    [cmap(range(cmap.N))] gives), a list, an array, or something else. *)
Inductive cmap_arg : Type :=
| CmapName (name : string)
| CmapColormap (table : list color)
| CmapList (l : list color)
| CmapArray (l : list color)
| CmapOther.

(** The attributes of [BarChart] that decide data; the sizes, the title
    and [kwargs] only reach the drawing calls.  [n_bars = 0] also stands
    for [None]: both take the default. *)
Record BarChart : Type := mkBarChart {
  df : DataFrame;
  use_index : bool;
  steps_per_period : Z;
  period_length : Z;
  fig : fig_arg;
  orientation : string;
  sort : string;
  n_bars : Z;
  label_bars : bool;
  cmap : cmap_arg
}.

Definition set_n_bars (self : BarChart) (n : Z) : BarChart :=
  mkBarChart (df self) (use_index self) (steps_per_period self)
    (period_length self) (fig self) (orientation self) (sort self) n
    (label_bars self) (cmap self).

(** [BaseChart.validate_params] *)
Definition base_validate_params (self : BarChart) : result unit :=
  match fig self with
  | FigOther => Raise (TypeError "fig")
  | _ => Ok tt
  end.

(** [BarChart.validate_params] *)
Definition validate_params (self : BarChart) : result unit :=
  _ <- base_validate_params self ;;
  if negb (String.eqb (sort self) "asc" || String.eqb (sort self) "desc")
  then Raise (ValueError "sort")
  else if negb (String.eqb (orientation self) "h" || String.eqb (orientation self) "v")
  then Raise (ValueError "orientation")
  else Ok tt.

(** The numbers of the table as they are stored, and as floats. *)
Definition stored_values (df : DataFrame) : list (list (option Q)) :=
  map (fun r => map exact (snd r)) (rows df).

Definition float_values (df : DataFrame) : list (list (option Q)) :=
  map (fun r => map as_float (snd r)) (rows df).

(** The numbers [rank(axis=1)] orders: the array [df.values], which holds
    floats as soon as one column is not of integers. *)
Definition rank_values (df : DataFrame) : list (list (option Q)) :=
  if forallb is_int64 (dtypes df) then stored_values df else float_values df.

(** [BarChart.prepare_data] *)
Definition prepare_data (self : BarChart) : result (Frame * Frame) :=
  let table := df self in
  let ncols := shape1 table in
  let s := steps_per_period self in
  let top := inject_Z (n_bars self + 1) in
  let df_values := scale_index s (reset_index (stored_values table)) in
  _ <- rank_check table ;;
  let df_rank :=
    map (fun r => (fst r, map (option_map (clip_upper top)) (rank_first_desc (snd r))))
        (scale_index s (reset_index (rank_values table))) in
  let df_rank :=
    if inverts (sort self) (orientation self)
    then map (fun r => (fst r, map (option_map (fun x => top - x)) (snd r))) df_rank
    else df_rank in
  m <- index_max df_values ;;
  let new_index := range (m + 1) in
  let grows := adds_rows new_index (map fst df_values) in
  dv <- reindex ncols (if grows then repeat Float64 ncols else dtypes table) new_index
          (if grows then scale_index s (reset_index (float_values table)) else df_values) ;;
  _ <- interpolate_check table ;;
  dr <- reindex ncols (repeat Float64 ncols) new_index df_rank ;;
  Ok (interpolate dv, interpolate dr).

(** [BarChart.get_label_position] *)
Definition get_label_position (self : BarChart) : Q * Q :=
  if String.eqb (orientation self) "h"
  then (6 # 10, if String.eqb (sort self) "desc" then 25 # 100 else 8 # 10)
  else (if String.eqb (sort self) "desc" then 7 # 10 else 1 # 10, 8 # 10).

Definition DARK24 : list color :=
  map Named
    ["#2E91E5"; "#E15F99"; "#1CA71C"; "#FB0D0D"; "#DA16FF"; "#222A2A";
     "#B68100"; "#750D86"; "#EB663B"; "#511CFB"; "#00A08B"; "#FB00D1";
     "#FC0080"; "#B2828D"; "#6C7C32"; "#778AAE"; "#862A16"; "#A777F1";
     "#620042"; "#1616A7"; "#DA60CA"; "#6C4516"; "#0D2A63"; "#AF0038"]%string.

(** [l * k] on Python lists *)
Definition list_times {A : Type} (l : list A) (k : nat) : list A :=
  concat (repeat l k).

(** The body of [BarChart.get_colors] once the base class has turned [cmap]
    into the list [bar_colors]; [ncols] is [self.df.shape[1]]. *)
Definition cycle_colors {A : Type} (ncols : nat) (bar_colors : list A)
  : result (list A) :=
  let n := length bar_colors in
  if (n <? ncols)%nat then
    if (n =? 0)%nat then Raise ZeroDivisionError
    else Ok (firstn ncols (list_times bar_colors (ncols / n + 1)))
  else Ok (firstn ncols bar_colors).

Section Colormaps.

(** [plt.cm.get_cmap(name)], as the table of the colormap it finds. *)
Variable get_cmap : string -> result (list color).

(** [BaseChart.get_colors] *)
Definition base_get_colors (c : cmap_arg) : result (list color) :=
  match c with
  | CmapName name =>
      if String.eqb name "dark24" then Ok DARK24 else get_cmap name
  | CmapColormap table => Ok table
  | CmapList l => Ok l
  | CmapArray l => Ok l
  | CmapOther => Raise (TypeError "cmap")
  end.

(** [BarChart.get_colors] *)
Definition get_colors (self : BarChart) (c : cmap_arg) : result (list color) :=
  bar_colors <- base_get_colors c ;;
  cycle_colors (shape1 (df self)) bar_colors.

(** What [__attrs_post_init__] leaves on the chart; [ax] tells whether the
    attribute [self.ax] has been set. *)
Record Chart : Type := mkChart {
  attrs : BarChart;
  df_values : Frame;
  df_rank : Frame;
  orig_index : list string;
  dpi : Z;
  fps : Q;
  ax : bool;
  x_label : Q;
  y_label : Q;
  bar_colors : list color
}.

(** [BarChart.__attrs_post_init__].  [create_figure], called when no figure
    was given, is what sets [self.ax]; its calls into matplotlib (the probe
    renderings of [calculate_new_figsize] among them) are taken to return:
    a chart returned here is the chart the code builds when matplotlib sets
    the figure up. *)
Definition __attrs_post_init__ (self : BarChart) : result Chart :=
  let self :=
    set_n_bars self
      (if Z.eqb (n_bars self) 0 then Z.of_nat (shape1 (df self)) else n_bars self) in
  '(dv, dr) <- prepare_data self ;;
  let orig := index (df self) in
  if Z.eqb (period_length self) 0 then Raise ZeroDivisionError
  else
    let fps := (1000 / inject_Z (period_length self)) * inject_Z (steps_per_period self) in
    let ax := match fig self with FigNone => true | _ => false end in
    let '(x, y) := get_label_position self in
    colors <- get_colors self (cmap self) ;;
    Ok (mkChart self dv dr orig 144 fps ax x y colors).

End Colormaps.

(** [plot.ax = axes[num]] *)
Definition set_ax (c : Chart) : Chart :=
  mkChart (attrs c) (df_values c) (df_rank c) (orig_index c) (dpi c) (fps c)
    true (x_label c) (y_label c) (bar_colors c).

(** [seq[i]] with a Python integer: a negative [i] counts from the end. *)
Definition getitem {A : Type} (l : list A) (i : Z) : result A :=
  let n := Z.of_nat (length l) in
  let j := (if i <? 0 then i + n else i)%Z in
  if ((j <? 0) || (n <=? j))%Z then Raise IndexError
  else match nth_error l (Z.to_nat j) with
       | Some a => Ok a
       | None => Raise IndexError
       end.

(** [a[mask]] with a boolean mask: the two must be as long. *)
Definition select {A : Type} (mask : list bool) (l : list A) : result (list A) :=
  if (length mask =? length l)%nat
  then Ok (map snd (filter fst (combine mask l)))
  else Raise IndexError.

(** The numbers of an array without missing value. *)
Fixpoint all_known (l : list (option Q)) : option (list Q) :=
  match l with
  | [] => Some []
  | None :: _ => None
  | Some x :: rest =>
      match all_known rest with
      | Some xs => Some (x :: xs)
      | None => None
      end
  end.

(** [a.max()] on an array of numbers *)
Definition array_max (l : list Q) : result Q :=
  match l with
  | [] => Raise (ValueError "max")
  | x :: rest => Ok (fold_left Qmax rest x)
  end.

(** [a // b] *)
Definition floordiv (a b : Z) : result Z :=
  if Z.eqb b 0 then Raise ZeroDivisionError else Ok (a / b)%Z.

(** What one call of [plot_bars] hands to [barh] or [bar], the upper axis
    limit it sets and the text of the period label. *)
Record Bars : Type := mkBars {
  bar_location : list Q;
  bar_length : list Q;
  cols : list string;
  colors : list color;
  axis_limit : Q;
  period_text : option string
}.

(** [(bar_location > 0) & (bar_location < n_bars + 1)] on one rank; both
    comparisons are false of a missing value. *)
Definition in_view (n : Z) (r : Q) : bool :=
  Qltb 0 r && Qltb r (inject_Z (n + 1)).

Definition in_view_cell (n : Z) (r : option Q) : bool :=
  match r with
  | Some x => in_view n x
  | None => false
  end.

(** [df.iloc[i].values]: one array for the row, of floats as soon as one
    column is not of integers. *)
Definition row_values (ks : list dtype) (row : list (option Q)) : list (option Q) :=
  if forallb is_int64 ks then row
  else map (fun p =>
              if is_int64 (nth (fst p) ks Float64)
              then option_map (fun q => float64_of_Z (Qfloor q)) (snd p)
              else snd p)
           (enumerate row).

(** [self.orig_index[i // self.steps_per_period]] *)
Definition period_label (c : Chart) (i : Z) : result string :=
  k <- floordiv i (steps_per_period (attrs c)) ;;
  getitem (orig_index c) k.

(** [BarChart.plot_bars]; drawing needs [self.ax]; a missing value among
    the lengths makes the axis limit one, which [set_xlim] refuses; the
    value labels of [label_bars] are placed by matplotlib's transforms and
    are not part of [Bars]. *)
Definition plot_bars (c : Chart) (i : Z) : result Bars :=
  let self := attrs c in
  rank_row <- getitem (data (df_rank c)) i ;;
  let top_filt := map (in_view_cell (n_bars self)) rank_row in
  location <- select top_filt rank_row ;;
  value_row <- getitem (data (df_values c)) i ;;
  length_ <- select top_filt (row_values (kinds (df_values c)) value_row) ;;
  cs <- select top_filt (columns (df self)) ;;
  colors <- select top_filt (bar_colors c) ;;
  _ <- (if ax c then Ok tt else Raise AttributeError) ;;
  match all_known location, all_known length_ with
  | Some location, Some length_ =>
      longest <- array_max length_ ;;
      let limit :=
        if String.eqb (orientation self) "h" then longest * (11 # 10)
        else longest * (116 # 100) in
      if use_index self then
        val <- period_label c i ;;
        Ok (mkBars location length_ cs colors limit (Some val))
      else Ok (mkBars location length_ cs colors limit None)
  | _, _ => Raise (ValueError "limit")
  end.

(** [BarChart.anim_func]: the old bars go, new ones are drawn. *)
Definition anim_func (c : Chart) (i : Z) : result Bars := plot_bars c i.

(** [BarChart.init_func] *)
Definition init_func (c : Chart) : result Bars := plot_bars c 0.

(** [BarChart.get_frames] *)
Definition get_frames (c : Chart) : list Z :=
  range (Z.of_nat (length (data (df_values c)))).

(** ** Animations *)

(** The [frames] argument of [FuncAnimation]: something to iterate over, or
    a number [n] standing for [range(n)]. *)
Inductive frames_arg : Type :=
| FramesIter (l : list Z)
| FramesInt (n : Z).

Definition frame_seq (f : frames_arg) : list Z :=
  match f with
  | FramesIter l => l
  | FramesInt n => range n
  end.

Fixpoint mapM {A B : Type} (f : A -> result B) (l : list A) : result (list B) :=
  match l with
  | [] => Ok []
  | a :: rest => b <- f a ;; bs <- mapM f rest ;; Ok (b :: bs)
  end.

(** The frames [anim.save] draws: the function of the animation at each
    frame of the sequence, in order. *)
Definition run_animation {A : Type} (func : Z -> result A) (frames : frames_arg)
  : result (list A) :=
  mapM func (frame_seq frames).

(** [BarChart.make_animation], as the frames it draws: the interval is
    computed, then the animation draws [init_func] and each frame of
    [get_frames].  The writer [anim.save] hands the frames to is not part
    of this: when a drawing call raises, the writer is closed before the
    exception reaches the caller, and what closing raises, if it raises,
    takes its place. *)
Definition make_animation (c : Chart) : result (list Bars) :=
  if Z.eqb (steps_per_period (attrs c)) 0 then Raise ZeroDivisionError
  else
    _ <- init_func c ;;
    run_animation (anim_func c) (FramesIter (get_frames c)).

(** [max(range)] and [min(list)] of Python *)
Definition py_max (l : list Z) : result Z :=
  match l with
  | [] => Raise (ValueError "max")
  | x :: rest => Ok (fold_left Z.max rest x)
  end.

Definition py_min (l : list Z) : result Z :=
  match l with
  | [] => Raise (ValueError "min")
  | x :: rest => Ok (fold_left Z.min rest x)
  end.

(** The [frames] argument [animate_multiple_plots] computes. *)
Definition multiple_plots_frames (plots : list Chart) : result frames_arg :=
  lasts <- mapM (fun p => py_max (get_frames p)) plots ;;
  n <- py_min lasts ;;
  Ok (FramesInt n).

(** [animate_multiple_plots], as the frames it draws: each frame is what
    [update_all_graphs] draws, one [Bars] per plot.  [plt.subplots(n)]
    refuses [n = 0], and for [n = 1] gives one axes object, not an array,
    so that [axes[num]] fails. *)
Definition animate_multiple_plots (plots : list Chart) : result (list (list Bars)) :=
  match plots with
  | [] => Raise (ValueError "subplots")
  | [_] => Raise (TypeError "axes")
  | first :: _ =>
      let plots := map set_ax plots in
      _ <- mapM init_func plots ;;
      if Z.eqb (steps_per_period (attrs first)) 0 then Raise ZeroDivisionError
      else
        frames <- multiple_plots_frames plots ;;
        run_animation (fun frame => mapM (fun p => anim_func p frame) plots) frames
  end.

(** ** Saving *)

(** The [interval] of [BaseChart.make_animation]:
    [period_length / steps_per_period], in milliseconds a frame. *)
Definition interval (self : BarChart) : result Q :=
  if Z.eqb (steps_per_period self) 0 then Raise ZeroDivisionError
  else Ok (inject_Z (period_length self) / inject_Z (steps_per_period self)).

(** [s.split(".")] *)
Fixpoint split_dot (s : string) : list string :=
  match s with
  | EmptyString => [EmptyString]
  | String c rest =>
      if Ascii.eqb c "."%char then EmptyString :: split_dot rest
      else match split_dot rest with
           | h :: t => String c h :: t
           | [] => [String c EmptyString]
           end
  end.

(** [filename.split(".")[-1]] *)
Definition extension (filename : string) : string :=
  last (split_dot filename) EmptyString.

(** The keyword arguments of [anim.save] in [BarChart.make_animation]:
    [fps], and [writer] for a gif only. *)
Definition save_args (c : Chart) (filename : string) : Q * option string :=
  if String.eqb (extension filename) "gif"
  then (fps c, Some "imagemagick"%string)
  else (fps c, None).

(** ** The rank of the specification *)

(** The columns of a row that hold a number, each with its place in the
    row, from [start] on. *)
Fixpoint with_places (start : nat) (row : list (option Q)) : list (nat * Q) :=
  match row with
  | [] => []
  | None :: rest => with_places (S start) rest
  | Some v :: rest => (start, v) :: with_places (S start) rest
  end.

(** A column put into a list sorted descending by value, in front of the
    columns whose value is not larger than its own. *)
Fixpoint insert_desc (x : nat * Q) (l : list (nat * Q)) : list (nat * Q) :=
  match l with
  | [] => [x]
  | y :: t => if Qle_bool (snd y) (snd x) then x :: y :: t else y :: insert_desc x t
  end.

(** Sorting descending by value; of two equal values the one that came
    first stays first. *)
Fixpoint sort_desc (l : list (nat * Q)) : list (nat * Q) :=
  match l with
  | [] => []
  | x :: t => insert_desc x (sort_desc t)
  end.

(** The columns of a row, sorted descending by value, ties in column
    order; missing values are left out. *)
Definition sorted_desc (row : list (option Q)) : list (nat * Q) :=
  sort_desc (with_places 0 row).

(** Where column [j] stands in a list of columns. *)
Fixpoint position_of (j : nat) (l : list (nat * Q)) : nat :=
  match l with
  | [] => 0
  | x :: rest => if (fst x =? j)%nat then 0 else S (position_of j rest)
  end.

(** The naive rank of column [j]: its place (from 1) in the sorted row, at
    most [n + 1]. *)
Definition naive_rank (n : Z) (row : list (option Q)) (j : nat) : Q :=
  Qmin (inject_Z (Z.of_nat (S (position_of j (sorted_desc row)))))
       (inject_Z (n + 1)).

(** The ranks [prepare_data] keeps for one row of the table. *)
Definition final_rank (self : BarChart) (row : list (option Q)) : list (option Q) :=
  let top := inject_Z (n_bars self + 1) in
  let r := map (option_map (clip_upper top)) (rank_first_desc row) in
  if inverts (sort self) (orientation self)
  then map (option_map (fun x => top - x)) r else r.

(** ** Kinds of tables *)

(** Every row is as wide as the header, and there is a dtype for each
    column. *)
Definition rectangular (df : DataFrame) : Prop :=
  length (dtypes df) = shape1 df /\
  Forall (fun r => length (snd r) = shape1 df) (rows df).

(** No column has dtype [object], and no cell holds an object. *)
Definition numeric_table (df : DataFrame) : bool :=
  forallb is_number_dtype (dtypes df)
  && forallb (fun r => forallb (fun c => negb (is_obj c)) (snd r)) (rows df).

(** Every cell holds a number: none is missing. *)
Definition no_missing (df : DataFrame) : bool :=
  forallb (fun r => forallb is_number (snd r)) (rows df).

(** Every row is as wide as the table and holds numbers only. *)
Definition full_rows (ncols : nat) (vals : list (list (option Q))) : Prop :=
  Forall (fun row => length row = ncols /\ forall x, In x row -> x <> None) vals.

(** The cell holds the number [a]. *)
Definition holds (c : cell) (a : Q) : Prop :=
  c = Num a \/ exists z, c = Int z /\ a = inject_Z z.

(** No integer is beyond [2^53] in size: each becomes a float unchanged. *)
Definition small (c : cell) : bool :=
  match c with
  | Int z => (Z.abs z <=? 2 ^ 53)%Z
  | _ => true
  end.

Definition small_ints (df : DataFrame) : bool :=
  forallb (fun r => forallb small (snd r)) (rows df).

(** The labels of the columns of a numeric dtype, in the order of the
    table. *)
Definition numeric_columns (df : DataFrame) : list string :=
  map snd (filter (fun p => is_number_dtype (nth (fst p) (dtypes df) ObjectDtype))
             (enumerate (columns df))).

(** ** Example charts *)

(** No colormap is registered under a name. *)
Definition no_cmap (name : string) : result (list color) :=
  Raise (ValueError "cmap").

(** A race of two columns of floats over [r] periods: "up" climbs as
    "down" falls. *)
Definition race_table (r : nat) : DataFrame :=
  mkDataFrame ["up"; "down"]%string [Float64; Float64]
    (map (fun k => ("t"%string,
                    [Num (inject_Z (Z.of_nat k)); Num (inject_Z (Z.of_nat (r - k)))]))
         (seq 0 r)).

Definition race_chart (r : nat) (s : Z) (sort orientation : string) : BarChart :=
  mkBarChart (race_table r) true s 500 FigNone orientation sort 0 true
    (CmapName "dark24").

(** A table with a column of numbers and a column of names. *)
Definition mixed_table : DataFrame :=
  mkDataFrame ["a"; "name"]%string [Float64; ObjectDtype]
    [("2020"%string, [Num 1; Obj "x"]); ("2021"%string, [Num 2; Obj "y"])].

(** A chart on a table with the settings that matter to the frames. *)
Definition chart_of (t : DataFrame) (s : Z) (sort orientation : string) (n : Z)
  : BarChart :=
  mkBarChart t true s 500 FigNone orientation sort n true (CmapName "dark24").

(** Three columns over two periods; the first value of the second period
    is missing. *)
Definition gap_table : DataFrame :=
  mkDataFrame ["a"; "b"; "c"]%string [Float64; Float64; Float64]
    [("2020"%string, [Num 3; Num 2; Num 1]); ("2021"%string, [NaN; Num 2; Num 5])].


(** A float and an integer that differ by one, beyond [2^53]. *)
Definition big_pair_table : DataFrame :=
  mkDataFrame ["a"; "b"]%string [Float64; Int64]
    [("2020"%string, [Num (inject_Z (2 ^ 53)); Int (2 ^ 53 + 1)])].

(** Column "a" has no value in the first period. *)
Definition late_table : DataFrame :=
  mkDataFrame ["a"; "b"]%string [Float64; Float64]
    [("2020"%string, [NaN; Num 1]); ("2021"%string, [Num 2; Num 3])].

(** One period, two columns. *)
Definition pair_table : DataFrame :=
  mkDataFrame ["a"; "b"]%string [Float64; Float64] [("2020"%string, [Num 5; Num 3])].

(** * Properties *)

(** ** Comparisons *)

Lemma Qle_bool_false (x y : Q) : Qle_bool x y = false -> y < x.
Proof.
  intros H. destruct (Qlt_le_dec y x) as [L | L]; [exact L|].
  apply Qle_bool_iff in L. congruence.
Qed.

Lemma Qltb_lt (a b : Q) : Qltb a b = true <-> a < b.
Proof.
  unfold Qltb. rewrite negb_true_iff. split.
  - apply Qle_bool_false.
  - intros H. destruct (Qle_bool b a) eqn:E; [|reflexivity].
    apply Qle_bool_iff in E. lra.
Qed.

Lemma before_spec (y x : nat * Q) :
  before y x = true <-> snd x < snd y \/ (snd y == snd x /\ (fst y < fst x)%nat).
Proof.
  unfold before.
  rewrite orb_true_iff, andb_true_iff, Qltb_lt, Qeq_bool_iff, Nat.ltb_lt.
  reflexivity.
Qed.

Lemma before_false (y x : nat * Q) :
  before y x = false <-> snd y < snd x \/ (snd y == snd x /\ (fst x <= fst y)%nat).
Proof.
  rewrite <- not_true_iff_false, before_spec. split.
  - intros H. destruct (Q_dec (snd y) (snd x)) as [[L | L] | E].
    + now left.
    + exfalso. apply H. now left.
    + right. split; [exact E|].
      destruct (Nat.le_gt_cases (fst x) (fst y)); [assumption|].
      exfalso. apply H. right. now split.
  - intros [L | [E L]] [L' | [E' L']]; try lra; lia.
Qed.

Lemma before_irrefl (x : nat * Q) : before x x = false.
Proof. apply before_false. right. split; [reflexivity | lia]. Qed.

Lemma before_total (x y : nat * Q) :
  fst x <> fst y -> before x y = true \/ before y x = true.
Proof.
  intros N. rewrite !before_spec.
  destruct (Q_dec (snd x) (snd y)) as [[L | L] | E]; auto.
  destruct (Nat.lt_trichotomy (fst x) (fst y)) as [H | [H | H]];
    [left | contradiction | right]; right; split; auto. now symmetry.
Qed.

Lemma not_after_trans : Transitive not_after.
Proof.
  intros a b c. unfold not_after. rewrite !before_false.
  intros [L | [E L]] [L' | [E' L']].
  - left. lra.
  - left. lra.
  - left. lra.
  - right. split; [lra | lia].
Qed.

(** ** The rank counts, the sorted row places *)

Lemma filter_length_perm {A : Type} (f : A -> bool) (l l' : list A) :
  Permutation l l' -> length (filter f l) = length (filter f l').
Proof.
  induction 1; simpl; try congruence.
  - destruct (f x); simpl; congruence.
  - destruct (f x), (f y); reflexivity.
Qed.

Lemma filter_none {A : Type} (f : A -> bool) (l : list A) :
  (forall z, In z l -> f z = false) -> filter f l = [].
Proof.
  induction l as [| a l IH]; intros H; [reflexivity|].
  simpl. rewrite (H a (or_introl eq_refl)). apply IH.
  intros z Hz. apply H. now right.
Qed.

Lemma position_counts_before (s : list (nat * Q)) (x : nat * Q) :
  StronglySorted not_after s ->
  NoDup (map fst s) ->
  In x s ->
  position_of (fst x) s = length (filter (fun y => before y x) s).
Proof.
  induction 1 as [| y t St IH Hall]; intros Hnd Hin; [contradiction|].
  simpl in Hnd. inversion Hnd as [| ? ? Hnotin Hnd']; subst.
  simpl. destruct (Nat.eqb_spec (fst y) (fst x)) as [E | N].
  - assert (x = y) as ->.
    { destruct Hin as [-> | Hin]; [reflexivity|].
      exfalso. apply Hnotin. rewrite E. now apply in_map. }
    rewrite before_irrefl, filter_none; [reflexivity|].
    intros z Hz. rewrite Forall_forall in Hall. exact (Hall z Hz).
  - destruct Hin as [-> | Hin]; [contradiction|].
    assert (Hb : before y x = true).
    { destruct (before_total y x N) as [H | H]; [exact H|].
      rewrite Forall_forall in Hall. specialize (Hall x Hin).
      unfold not_after in Hall. congruence. }
    rewrite Hb. simpl. f_equal. now apply IH.
Qed.

Lemma insert_desc_perm (x : nat * Q) (l : list (nat * Q)) :
  Permutation (x :: l) (insert_desc x l).
Proof.
  induction l as [| y t IH]; simpl; [reflexivity|].
  destruct (Qle_bool (snd y) (snd x)); [reflexivity|].
  rewrite perm_swap. now apply perm_skip.
Qed.

Lemma sort_desc_perm (l : list (nat * Q)) : Permutation l (sort_desc l).
Proof.
  induction l as [| x t IH]; simpl; [reflexivity|].
  rewrite <- insert_desc_perm. now apply perm_skip.
Qed.

(** A column that stands left of all the columns of a sorted list goes in
    where the order of the race wants it. *)
Lemma insert_desc_sorted (x : nat * Q) (l : list (nat * Q)) :
  StronglySorted not_after l ->
  (forall y, In y l -> (fst x < fst y)%nat) ->
  StronglySorted not_after (insert_desc x l).
Proof.
  induction 1 as [| y t St IH Hall]; intros Hleft; simpl.
  - repeat constructor.
  - destruct (Qle_bool (snd y) (snd x)) eqn:E.
    + apply Qle_bool_iff in E.
      assert (Hxy : not_after x y).
      { apply before_false. specialize (Hleft y (or_introl eq_refl)).
        destruct (Qlt_le_dec (snd y) (snd x)) as [L | L]; [now left|].
        right. split; [lra | lia]. }
      constructor; [now constructor|]. constructor; [exact Hxy|].
      rewrite Forall_forall in *. intros z Hz.
      exact (not_after_trans _ _ _ Hxy (Hall z Hz)).
    + apply Qle_bool_false in E. constructor.
      * apply IH. intros z Hz. apply Hleft. now right.
      * rewrite Forall_forall in *. intros z Hz.
        apply (Permutation_in _ (Permutation_sym (insert_desc_perm x t))) in Hz.
        destruct Hz as [<- | Hz]; [| now apply Hall].
        apply before_false. now left.
Qed.

Lemma sort_desc_sorted (l : list (nat * Q)) :
  StronglySorted (fun a b => (fst a < fst b)%nat) l ->
  StronglySorted not_after (sort_desc l).
Proof.
  induction 1 as [| x t St IH Hall]; simpl; [constructor|].
  apply insert_desc_sorted; [exact IH|].
  intros y Hy. apply (Permutation_in _ (Permutation_sym (sort_desc_perm t))) in Hy.
  rewrite Forall_forall in Hall. now apply Hall.
Qed.

Lemma with_places_from (start : nat) (row : list (option Q)) (x : nat * Q) :
  In x (with_places start row) -> (start <= fst x)%nat.
Proof.
  revert start. induction row as [| [v |] row IH]; intros start H; simpl in H.
  - contradiction.
  - destruct H as [<- | H]; [simpl; lia|]. apply IH in H. lia.
  - apply IH in H. lia.
Qed.

Lemma with_places_increasing (start : nat) (row : list (option Q)) :
  StronglySorted (fun a b => (fst a < fst b)%nat) (with_places start row).
Proof.
  revert start. induction row as [| [v |] row IH]; intros start; simpl.
  - constructor.
  - constructor; [apply IH|]. apply Forall_forall. intros y Hy.
    apply with_places_from in Hy. simpl. lia.
  - apply IH.
Qed.

Lemma increasing_NoDup (l : list (nat * Q)) :
  StronglySorted (fun a b => (fst a < fst b)%nat) l -> NoDup (map fst l).
Proof.
  induction 1 as [| x t St IH Hall]; simpl; constructor; [| exact IH].
  intros H. apply in_map_iff in H. destruct H as [y [E Hy]].
  rewrite Forall_forall in Hall. specialize (Hall y Hy). lia.
Qed.

Lemma with_places_In (start : nat) (row : list (option Q)) (j : nat) (v : Q) :
  nth_error row j = Some (Some v) -> In ((start + j)%nat, v) (with_places start row).
Proof.
  revert start j. induction row as [| [w |] row IH]; intros start [| j] H;
    simpl in *; try discriminate.
  - injection H as ->. left. f_equal. lia.
  - right. replace (start + S j)%nat with (S start + j)%nat by lia. now apply IH.
  - replace (start + S j)%nat with (S start + j)%nat by lia. now apply IH.
Qed.

Lemma with_places_nth_error (start : nat) (row : list (option Q)) (x : nat * Q) :
  In x (with_places start row) ->
  (start <= fst x)%nat /\ nth_error row (fst x - start) = Some (Some (snd x)).
Proof.
  revert start. induction row as [| [w |] row IH]; intros start H; simpl in H.
  - contradiction.
  - destruct H as [<- | H].
    + simpl. rewrite Nat.sub_diag. now split.
    + destruct (IH _ H) as [L N]. split; [lia|].
      replace (fst x - start)%nat with (S (fst x - S start)) by lia. exact N.
  - destruct (IH _ H) as [L N]. split; [lia|].
    replace (fst x - start)%nat with (S (fst x - S start)) by lia. exact N.
Qed.

(** The columns [rank] counts are the columns the sorted row is made of. *)
Lemma count_with_places (start : nat) (row : list (option Q)) (x : nat * Q) :
  length (filter (fun y => match snd y with
                           | Some w => before (fst y, w) x
                           | None => false
                           end)
            (combine (seq start (length row)) row))
  = length (filter (fun y => before y x) (with_places start row)).
Proof.
  revert start. induction row as [| [w |] row IH]; intros start; simpl.
  - reflexivity.
  - destruct (before (start, w) x); simpl; now rewrite IH.
  - apply IH.
Qed.

Lemma combine_seq_nth_error {A : Type} (l : list A) (start j : nat) (v : A) :
  nth_error l j = Some v ->
  nth_error (combine (seq start (length l)) l) j = Some ((start + j)%nat, v).
Proof.
  revert start j. induction l as [| a l IH]; intros start [| j] H; simpl in *;
    try discriminate.
  - injection H as ->. now rewrite Nat.add_0_r.
  - rewrite (IH (S start) j H). do 2 f_equal. lia.
Qed.

Lemma enumerate_nth_error {A : Type} (l : list A) (j : nat) (v : A) :
  nth_error l j = Some v -> nth_error (enumerate l) j = Some (j, v).
Proof. intros H. unfold enumerate. now rewrite (combine_seq_nth_error _ 0 _ _ H). Qed.

Lemma enumerate_fst {A : Type} (l : list A) :
  map fst (enumerate l) = seq 0 (length l).
Proof.
  unfold enumerate. generalize 0%nat as start.
  induction l as [| a l IH]; intros start; simpl; [reflexivity|].
  now rewrite IH.
Qed.

Lemma enumerate_length {A : Type} (l : list A) : length (enumerate l) = length l.
Proof. unfold enumerate. rewrite length_combine, length_seq. lia. Qed.

Lemma combine_seq_In {A : Type} (l : list A) (start q : nat) (v : A) :
  In (q, v) (combine (seq start (length l)) l) ->
  (start <= q)%nat /\ nth_error l (q - start) = Some v.
Proof.
  revert start. induction l as [| a l IH]; intros start H; simpl in H;
    [contradiction|].
  destruct H as [E | H].
  - injection E as <- <-. rewrite Nat.sub_diag. now split.
  - destruct (IH _ H) as [L N]. split; [lia|].
    replace (q - start)%nat with (S (q - S start)) by lia. exact N.
Qed.

Lemma enumerate_In {A : Type} (l : list A) (q : nat) (v : A) :
  In (q, v) (enumerate l) -> nth_error l q = Some v.
Proof.
  intros H. apply combine_seq_In in H. destruct H as [_ H].
  now rewrite Nat.sub_0_r in H.
Qed.

(** The rank pandas gives a number is its place in the sorted row; a
    missing value has no rank. *)
Lemma rank_is_position (row : list (option Q)) (j : nat) (v : Q) :
  nth_error row j = Some (Some v) ->
  nth_error (rank_first_desc row) j
  = Some (Some (inject_Z (Z.of_nat (S (position_of j (sorted_desc row)))))).
Proof.
  intros H. unfold rank_first_desc.
  rewrite nth_error_map, (enumerate_nth_error _ _ _ H). cbn [option_map snd fst].
  do 5 f_equal. unfold sorted_desc, enumerate.
  rewrite (count_with_places 0 row (j, v)).
  pose proof (sort_desc_perm (with_places 0 row)) as P.
  rewrite (filter_length_perm _ _ _ P).
  symmetry. apply (position_counts_before _ (j, v)).
  - apply sort_desc_sorted, with_places_increasing.
  - apply (Permutation_NoDup (l := map fst (with_places 0 row))).
    + now apply Permutation_map.
    + apply increasing_NoDup, with_places_increasing.
  - apply (Permutation_in _ P). apply (with_places_In 0 row j v H).
Qed.

Lemma rank_of_missing (row : list (option Q)) (j : nat) :
  nth_error row j = Some None -> nth_error (rank_first_desc row) j = Some None.
Proof.
  intros H. unfold rank_first_desc.
  now rewrite nth_error_map, (enumerate_nth_error _ _ _ H).
Qed.

Lemma rank_first_desc_length (row : list (option Q)) :
  length (rank_first_desc row) = length row.
Proof. unfold rank_first_desc. now rewrite length_map, enumerate_length. Qed.

Lemma clip_upper_min (u r : Q) : clip_upper u r = Qmin r u.
Proof.
  unfold clip_upper, Qmin, GenericMinMax.gmin.
  destruct (Qle_bool r u) eqn:E.
  - apply Qle_bool_iff in E. destruct (r ?= u) eqn:C; try reflexivity.
    apply Qgt_alt in C. lra.
  - apply Qle_bool_false in E. apply Qgt_alt in E. now rewrite E.
Qed.

Lemma inverts_spec (sort orientation : string) :
  inverts sort orientation = true <->
  (sort = "desc"%string /\ orientation = "h"%string)
  \/ (sort = "asc"%string /\ orientation = "v"%string).
Proof.
  unfold inverts. rewrite orb_true_iff, !andb_true_iff, !String.eqb_eq. reflexivity.
Qed.

Lemma final_rank_length (self : BarChart) (row : list (option Q)) :
  length (final_rank self row) = length row.
Proof.
  unfold final_rank. destruct (inverts _ _); rewrite ?length_map;
    apply rank_first_desc_length.
Qed.

(** The final rank of a number, in the words of the specification. *)
Lemma final_rank_nth_error (self : BarChart) (row : list (option Q)) (j : nat) (v : Q) :
  nth_error row j = Some (Some v) ->
  nth_error (final_rank self row) j
  = Some (Some (if inverts (sort self) (orientation self)
                then inject_Z (n_bars self + 1) - naive_rank (n_bars self) row j
                else naive_rank (n_bars self) row j)).
Proof.
  intros H. unfold final_rank, naive_rank.
  destruct (inverts (sort self) (orientation self));
    rewrite ?nth_error_map, (rank_is_position row j v H); cbn [option_map];
    now rewrite clip_upper_min.
Qed.

Lemma final_rank_missing (self : BarChart) (row : list (option Q)) (j : nat) :
  nth_error row j = Some None -> nth_error (final_rank self row) j = Some None.
Proof.
  intros H. unfold final_rank.
  destruct (inverts (sort self) (orientation self));
    now rewrite ?nth_error_map, (rank_of_missing row j H).
Qed.
(** ** Interpolation *)

Lemma fill_after_length (l : list (option Q)) (prev : Q) (gap : nat) :
  length (fill_after prev gap l) = (gap + length l)%nat.
Proof.
  revert prev gap. induction l as [| [y |] l IH]; intros prev gap; simpl.
  - rewrite repeat_length. lia.
  - rewrite length_app, length_map, length_seq. simpl. rewrite IH. lia.
  - rewrite IH. lia.
Qed.

Lemma interpolate_column_length (l : list (option Q)) :
  length (interpolate_column l) = length l.
Proof.
  induction l as [| [y |] l IH]; simpl; auto.
  now rewrite fill_after_length.
Qed.

(** From a known value on, the result is that value and the filling below
    it: what stands above no longer matters. *)
Lemma fill_after_skipn (l : list (option Q)) (prev : Q) (gap i : nat)
    (x : Q) :
  nth_error l i = Some (Some x) ->
  skipn (gap + i) (fill_after prev gap l) = Some x :: fill_after x 0 (skipn (S i) l).
Proof.
  revert prev gap i. induction l as [| [y |] l IH]; intros prev gap i H.
  - destruct i; discriminate.
  - simpl fill_after. rewrite skipn_app, length_map, length_seq.
    rewrite skipn_all2 by (rewrite length_map, length_seq; lia).
    replace (gap + i - gap)%nat with i by lia. simpl app.
    destruct i as [| i]; simpl in H.
    + injection H as ->. reflexivity.
    + simpl skipn at 1. rewrite <- (IH y 0%nat i H). reflexivity.
  - destruct i as [| i]; [discriminate|]. simpl in H.
    simpl fill_after. replace (gap + S i)%nat with (S gap + i)%nat by lia.
    rewrite (IH prev (S gap) i H). reflexivity.
Qed.

Lemma interpolate_column_skipn (l : list (option Q)) (a : nat) (x : Q) :
  nth_error l a = Some (Some x) ->
  skipn a (interpolate_column l) = Some x :: fill_after x 0 (skipn (S a) l).
Proof.
  revert a. induction l as [| [y |] l IH]; intros a H.
  - destruct a; discriminate.
  - destruct a as [| a]; simpl in H.
    + injection H as ->. reflexivity.
    + simpl. apply (fill_after_skipn l y 0 a x H).
  - destruct a as [| a]; [discriminate|]. simpl in H. simpl. now apply IH.
Qed.

(** A value that is known stays as it is. *)
Lemma interpolate_column_known (l : list (option Q)) (a : nat) (x : Q) :
  nth_error l a = Some (Some x) ->
  nth_error (interpolate_column l) a = Some (Some x).
Proof.
  intros H. pose proof (interpolate_column_skipn l a x H) as S.
  pose proof (nth_error_skipn a (interpolate_column l) 0) as N.
  rewrite S, Nat.add_0_r in N. simpl in N. now symmetry.
Qed.

(** The missing values before the next known value lie on the line between
    the two known values. *)
Lemma fill_after_lerp (l : list (option Q)) (prev y : Q) (gap g p : nat) :
  (forall j, (j < g)%nat -> nth_error l j = Some None) ->
  nth_error l g = Some (Some y) ->
  (p < gap + g)%nat ->
  nth_error (fill_after prev gap l) p = Some (Some (lerp prev y (S p) (S (gap + g)))).
Proof.
  revert gap g. induction l as [| [z |] l IH]; intros gap g Hnone Hy Hp.
  - destruct g; discriminate.
  - destruct g as [| g].
    + simpl in Hy. injection Hy as ->. simpl fill_after.
      rewrite nth_error_app1 by (rewrite length_map, length_seq; lia).
      rewrite nth_error_map, nth_error_seq.
      destruct (Nat.ltb_spec p gap); [|lia]. simpl.
      now rewrite Nat.add_0_r.
    + specialize (Hnone 0%nat ltac:(lia)). discriminate.
  - destruct g as [| g]; [discriminate|]. simpl in Hy. simpl fill_after.
    replace (S (gap + S g)) with (S (S gap + g)) by lia.
    apply IH; [| exact Hy | lia].
    intros j Hj. apply (Hnone (S j)). lia.
Qed.

Lemma interpolate_column_lerp (l : list (option Q)) (a g j : nat) (x y : Q) :
  nth_error l a = Some (Some x) ->
  (forall i, (0 < i < g)%nat -> nth_error l (a + i) = Some None) ->
  nth_error l (a + g) = Some (Some y) ->
  (0 < j < g)%nat ->
  nth_error (interpolate_column l) (a + j) = Some (Some (lerp x y j g)).
Proof.
  intros Hx Hnone Hy Hj.
  rewrite <- nth_error_skipn, (interpolate_column_skipn l a x Hx).
  destruct j as [| j]; [lia|]. destruct g as [| g]; [lia|]. cbn [nth_error].
  rewrite (fill_after_lerp _ x y 0 g j); [reflexivity | | | lia].
  - intros i Hi. rewrite nth_error_skipn.
    replace (S a + i)%nat with (a + S i)%nat by lia. apply Hnone. lia.
  - rewrite nth_error_skipn.
    replace (S a + g)%nat with (a + S g)%nat by lia. exact Hy.
Qed.

(** *** What interpolation keeps *)

Section Kept.

(** A property of numbers that holds along the line between two numbers
    that have it. *)
Variable P : Q -> Prop.
Hypothesis P_lerp : forall x y j g, (j <= g)%nat -> (0 < g)%nat ->
  P x -> P y -> P (lerp x y j g).

Lemma fill_after_keeps (l : list (option Q)) (prev : Q) (gap : nat) :
  P prev -> (forall x, In (Some x) l -> P x) ->
  forall x, In (Some x) (fill_after prev gap l) -> P x.
Proof.
  revert prev gap. induction l as [| [y |] l IH]; intros prev gap Hp Hl x Hx;
    simpl in Hx.
  - apply repeat_spec in Hx. now injection Hx as ->.
  - apply in_app_or in Hx. destruct Hx as [Hx | [Hx | Hx]].
    + apply in_map_iff in Hx. destruct Hx as [j [E Hj]]. injection E as <-.
      apply in_seq in Hj. apply P_lerp; [lia | lia | exact Hp |].
      apply Hl. now left.
    + injection Hx as <-. apply Hl. now left.
    + apply (IH y 0%nat); [apply Hl; now left | | exact Hx].
      intros z Hz. apply Hl. now right.
  - apply (IH prev (S gap)); [exact Hp | | exact Hx].
    intros z Hz. apply Hl. now right.
Qed.

Lemma interpolate_column_keeps (l : list (option Q)) :
  (forall x, In (Some x) l -> P x) ->
  forall x, In (Some x) (interpolate_column l) -> P x.
Proof.
  induction l as [| [y |] l IH]; intros Hl x Hx; simpl in Hx; [contradiction | |].
  - destruct Hx as [Hx | Hx].
    + injection Hx as <-. apply Hl. now left.
    + apply (fill_after_keeps l y 0); [apply Hl; now left | | exact Hx].
      intros z Hz. apply Hl. now right.
  - destruct Hx as [Hx | Hx]; [discriminate|].
    apply IH; [| exact Hx]. intros z Hz. apply Hl. now right.
Qed.

End Kept.

(** Below a known value no value is missing. *)
Lemma fill_after_all_known (l : list (option Q)) (prev : Q) (gap : nat) :
  Forall (fun r => r <> None) (fill_after prev gap l).
Proof.
  revert prev gap. induction l as [| [y |] l IH]; intros prev gap; simpl.
  - apply Forall_forall. intros r Hr. apply repeat_spec in Hr. now subst.
  - apply Forall_app. split.
    + apply Forall_forall. intros r Hr. apply in_map_iff in Hr.
      now destruct Hr as [j [<- _]].
    + constructor; [discriminate | apply IH].
  - apply IH.
Qed.

Lemma interpolate_column_all_known (l : list (option Q)) (x : Q) :
  nth_error l 0 = Some (Some x) ->
  Forall (fun r => r <> None) (interpolate_column l).
Proof.
  destruct l as [| [y |] l]; simpl; try discriminate.
  intros _. constructor; [discriminate | apply fill_after_all_known].
Qed.


Lemma interpolate_column_below (l : list (option Q)) (a i : nat) (x : Q) :
  nth_error l a = Some (Some x) ->
  (a <= i < length l)%nat ->
  exists v, nth_error (interpolate_column l) i = Some (Some v).
Proof.
  intros Hx Hi.
  pose proof (interpolate_column_skipn l a x Hx) as Sk.
  rewrite <- (Nat.sub_add a i) by lia. rewrite Nat.add_comm, <- nth_error_skipn, Sk.
  destruct (i - a)%nat as [| p] eqn:E; [now exists x|]. cbn [nth_error].
  pose proof (fill_after_all_known (skipn (S a) l) x 0) as F.
  destruct (nth_error (fill_after x 0 (skipn (S a) l)) p) as [[v |] |] eqn:N.
  - now exists v.
  - rewrite Forall_forall in F. now elim (F None (nth_error_In _ _ N)).
  - apply nth_error_None in N. rewrite fill_after_length, length_skipn in N. lia.
Qed.

(** Above the first known value the column stays missing. *)
Lemma interpolate_column_above (l : list (option Q)) (i : nat) :
  (forall p, (p <= i)%nat -> nth_error l p = Some None) ->
  nth_error (interpolate_column l) i = Some None.
Proof.
  revert i. induction l as [| [y |] l IH]; intros i H.
  - specialize (H 0%nat ltac:(lia)). discriminate.
  - specialize (H 0%nat ltac:(lia)). discriminate.
  - destruct i as [| i]; [reflexivity|]. simpl. apply IH.
    intros p Hp. apply (H (S p)). lia.
Qed.

(** ** Labels and lookups *)

Lemma range_of_nat (n : nat) : range (Z.of_nat n) = map Z.of_nat (seq 0 n).
Proof. unfold range. now rewrite Nat2Z.id. Qed.

Lemma range_length (n : Z) : length (range n) = Z.to_nat n.
Proof. unfold range. now rewrite length_map, length_seq. Qed.

Lemma range_nth_error (n : Z) (p : nat) :
  (p < Z.to_nat n)%nat -> nth_error (range n) p = Some (Z.of_nat p).
Proof.
  intros H. unfold range. rewrite nth_error_map, nth_error_seq.
  destruct (Nat.ltb_spec p (Z.to_nat n)); [reflexivity | lia].
Qed.

Lemma range_In (n l : Z) : In l (range n) <-> (0 <= l < n)%Z.
Proof.
  unfold range. rewrite in_map_iff. split.
  - intros [p [<- Hp]]. apply in_seq in Hp. lia.
  - intros H. exists (Z.to_nat l). split; [lia|]. apply in_seq. lia.
Qed.

Lemma scaled_nth_error (s : Z) (vals : list (list (option Q))) (k : nat)
    (row : list (option Q)) :
  nth_error vals k = Some row ->
  nth_error (scale_index s (reset_index vals)) k = Some ((Z.of_nat k * s)%Z, row).
Proof.
  intros H. unfold scale_index, reset_index.
  rewrite nth_error_map, range_of_nat.
  assert (G : forall (l : list (list (option Q))) start j v, nth_error l j = Some v ->
             nth_error (combine (map Z.of_nat (seq start (length l))) l) j
             = Some (Z.of_nat (start + j), v)).
  { induction l as [| a l IH]; intros start [| j] v Hj; simpl in *; try discriminate.
    - injection Hj as ->. now rewrite Nat.add_0_r.
    - rewrite (IH (S start) j v Hj). do 3 f_equal. lia. }
  now rewrite (G vals 0%nat k row H).
Qed.

Lemma scaled_labels (s : Z) (vals : list (list (option Q))) :
  map fst (scale_index s (reset_index vals))
  = map (fun k => (Z.of_nat k * s)%Z) (seq 0 (length vals)).
Proof.
  unfold scale_index, reset_index. rewrite map_map, range_of_nat. simpl.
  generalize 0%nat as start. induction vals as [| a l IH]; intros start; simpl;
    [reflexivity|]. now rewrite IH.
Qed.

Lemma scaled_rows (s : Z) (vals : list (list (option Q))) :
  map snd (scale_index s (reset_index vals)) = vals.
Proof.
  unfold scale_index, reset_index. rewrite map_map, range_of_nat. simpl.
  generalize 0%nat as start. induction vals as [| a l IH]; intros start; simpl;
    [reflexivity|]. now rewrite IH.
Qed.

(** Working on the rows leaves the labels alone. *)
Lemma scaled_map (h : list (option Q) -> list (option Q)) (s : Z)
    (vals : list (list (option Q))) :
  map (fun r => (fst r, h (snd r))) (scale_index s (reset_index vals))
  = scale_index s (reset_index (map h vals)).
Proof.
  unfold scale_index, reset_index. rewrite !map_map, length_map, range_of_nat. simpl.
  generalize 0%nat as start. induction vals as [| a l IH]; intros start; simpl;
    [reflexivity|]. now rewrite IH.
Qed.

Lemma has_duplicates_NoDup (l : list Z) : has_duplicates l = false <-> NoDup l.
Proof.
  induction l as [| x l IH]; simpl.
  - split; [constructor | reflexivity].
  - rewrite orb_false_iff, IH, NoDup_cons_iff.
    assert (E : existsb (Z.eqb x) l = false <-> ~ In x l).
    { rewrite <- not_true_iff_false, existsb_exists. split.
      - intros H Hin. apply H. exists x. split; [exact Hin | apply Z.eqb_refl].
      - intros H [y [Hy Hxy]]. apply Z.eqb_eq in Hxy. now subst. }
    now rewrite E.
Qed.

Lemma lookup_found (f : labelled) (l : Z) (row : list (option Q)) :
  NoDup (map fst f) -> In (l, row) f -> lookup l f = Some row.
Proof.
  unfold lookup. induction f as [| [l' row'] f IH]; intros Hnd Hin; [contradiction|].
  simpl in Hnd. apply NoDup_cons_iff in Hnd. destruct Hnd as [Hn Hnd].
  simpl. destruct (Z.eqb_spec l' l) as [-> | N].
  - destruct Hin as [E | Hin]; [now injection E as ->|].
    exfalso. apply Hn. change l with (fst (l, row)). now apply in_map.
  - destruct Hin as [E | Hin]; [injection E as -> _; contradiction|]. now apply IH.
Qed.

Lemma lookup_missing (f : labelled) (l : Z) :
  ~ In l (map fst f) -> lookup l f = None.
Proof.
  unfold lookup. induction f as [| [l' row'] f IH]; intros Hn; [reflexivity|].
  simpl in *. destruct (Z.eqb_spec l' l) as [-> | N]; [exfalso; auto|].
  apply IH. intros H. apply Hn. now right.
Qed.

Lemma lookup_In (f : labelled) (l : Z) (row : list (option Q)) :
  lookup l f = Some row -> In (l, row) f.
Proof.
  unfold lookup. destruct (find _ f) as [[l' row'] |] eqn:E; [| discriminate].
  intros H. injection H as <-. apply find_some in E. destruct E as [Hin E].
  apply Z.eqb_eq in E. simpl in E. now subst.
Qed.

Lemma fold_max_bounds (l : list Z) (x0 : Z) :
  (x0 <= fold_left Z.max l x0)%Z /\
  (forall x, In x l -> x <= fold_left Z.max l x0)%Z /\
  (fold_left Z.max l x0 = x0 \/ In (fold_left Z.max l x0) l).
Proof.
  revert x0. induction l as [| a l IH]; intros x0; simpl.
  - repeat split; [lia | contradiction | now left].
  - destruct (IH (Z.max x0 a)) as [B [A M]]. repeat split.
    + lia.
    + intros x [<- | Hx]; [lia | now apply A].
    + destruct M as [M | M]; [| right; now right].
      rewrite M. destruct (Z.max_spec x0 a) as [[_ ->] | [_ ->]]; auto.
Qed.

Lemma index_max_bounds (f : labelled) (m : Z) :
  index_max f = Ok m ->
  In m (map fst f) /\ forall l, In l (map fst f) -> (l <= m)%Z.
Proof.
  destruct f as [| r f]; simpl; [discriminate|]. intros H. injection H as <-.
  destruct (fold_max_bounds (map fst f) (fst r)) as [B [A M]]. split.
  - destruct M as [-> | M]; [now left | now right].
  - intros l [<- | Hl]; [exact B | now apply A].
Qed.

(** The largest label depends on the labels only. *)
Lemma index_max_labels (f g : labelled) :
  map fst f = map fst g -> index_max f = index_max g.
Proof.
  destruct f as [| r f], g as [| r' g]; simpl; try discriminate; [reflexivity|].
  intros H. injection H as -> ->. reflexivity.
Qed.

(** Where the cells of the table stand after [reindex]. *)
Lemma reindexed_known (f : labelled) (m : Z) (j p : nat) (row : list (option Q)) :
  NoDup (map fst f) ->
  index_max f = Ok m ->
  In (Z.of_nat p, row) f ->
  nth_error (reindexed_column (range (m + 1)) f j) p = Some (nth j row None).
Proof.
  intros Hnd Hm Hin.
  destruct (index_max_bounds f m Hm) as [_ B].
  assert (Z.of_nat p <= m)%Z.
  { apply B. change (Z.of_nat p) with (fst (Z.of_nat p, row)). now apply in_map. }
  unfold reindexed_column. rewrite nth_error_map, range_nth_error by lia.
  cbn [option_map]. now rewrite (lookup_found f _ row Hnd Hin).
Qed.

Lemma reindexed_missing (f : labelled) (m : Z) (j p : nat) :
  (Z.of_nat p <= m)%Z ->
  ~ In (Z.of_nat p) (map fst f) ->
  nth_error (reindexed_column (range (m + 1)) f j) p = Some None.
Proof.
  intros Hp Hn. unfold reindexed_column.
  rewrite nth_error_map, range_nth_error by lia. cbn [option_map].
  now rewrite (lookup_missing f _ Hn).
Qed.

(** A known value of a column after [reindex] is a cell of the table. *)
Lemma reindexed_from_table (f : labelled) (ls : list Z) (j : nat) (x : Q) :
  In (Some x) (reindexed_column ls f j) ->
  exists row, In row (map snd f) /\ nth j row None = Some x.
Proof.
  unfold reindexed_column. rewrite in_map_iff. intros [l [E _]].
  destruct (lookup l f) as [row |] eqn:L; [| discriminate].
  exists row. split; [| exact E]. apply lookup_In in L.
  change row with (snd (l, row)). now apply in_map.
Qed.

Lemma reindexed_length (f : labelled) (ls : list Z) (j : nat) :
  length (reindexed_column ls f j) = length ls.
Proof. unfold reindexed_column. apply length_map. Qed.

(** With a positive step the labels are the multiples of the step, all
    different, and the last row carries the largest. *)
Lemma scaled_positive (s : Z) (vals : list (list (option Q))) :
  (0 < s)%Z -> vals <> [] ->
  NoDup (map fst (scale_index s (reset_index vals))) /\
  index_max (scale_index s (reset_index vals))
  = Ok ((Z.of_nat (length vals) - 1) * s)%Z.
Proof.
  intros Hs Hne. rewrite scaled_labels. split.
  - assert (G : forall n start, NoDup (map (fun k => (Z.of_nat k * s)%Z) (seq start n))).
    { induction n as [| n IH]; intros start; simpl; constructor; [| apply IH].
      rewrite in_map_iff. intros [k [E Hk]]. apply in_seq in Hk. nia. }
    apply G.
  - destruct (index_max (scale_index s (reset_index vals))) as [m |] eqn:M.
    + destruct (index_max_bounds _ m M) as [Hin B].
      rewrite scaled_labels in Hin, B. f_equal.
      apply in_map_iff in Hin. destruct Hin as [k [<- Hk]]. apply in_seq in Hk.
      assert (L : (0 < length vals)%nat) by (destruct vals; [congruence | simpl; lia]).
      specialize (B ((Z.of_nat (length vals - 1)) * s)%Z).
      assert (Hl : In (Z.of_nat (length vals - 1) * s)%Z
                     (map (fun k => (Z.of_nat k * s)%Z) (seq 0 (length vals)))).
      { apply in_map_iff. exists (length vals - 1)%nat. split; [reflexivity|].
        apply in_seq. lia. }
      specialize (B Hl). nia.
    + destruct vals as [| v vals]; [congruence|].
      pose proof (scaled_nth_error s (v :: vals) 0 v eq_refl) as N.
      destruct (scale_index s (reset_index (v :: vals))); discriminate.
Qed.

Lemma scaled_In (s : Z) (vals : list (list (option Q))) (k : nat)
    (row : list (option Q)) :
  (0 <= s)%Z ->
  nth_error vals k = Some row ->
  In (Z.of_nat (k * Z.to_nat s), row) (scale_index s (reset_index vals)).
Proof.
  intros Hs H. replace (Z.of_nat (k * Z.to_nat s)) with (Z.of_nat k * s)%Z by lia.
  eapply nth_error_In, scaled_nth_error, H.
Qed.

Lemma scaled_between (s : Z) (vals : list (list (option Q))) (k i : nat) :
  (0 < i < Z.to_nat s)%nat ->
  ~ In (Z.of_nat (k * Z.to_nat s + i)) (map fst (scale_index s (reset_index vals))).
Proof.
  intros Hi. rewrite scaled_labels, in_map_iff. intros [k' [E _]].
  assert (Hs : (0 < s)%Z) by lia.
  assert (E' : ((Z.of_nat k' - Z.of_nat k) * s = Z.of_nat i)%Z) by lia.
  assert (Hi' : (0 < Z.of_nat i < s)%Z) by lia.
  destruct (Z.lt_trichotomy (Z.of_nat k') (Z.of_nat k)) as [L | [L | L]]; nia.
Qed.

Lemma scaled_nonempty (s : Z) (vals : list (list (option Q))) :
  vals <> [] ->
  exists m, index_max (scale_index s (reset_index vals)) = Ok m.
Proof.
  intros Hne. destruct vals as [| v vals]; [congruence|].
  pose proof (scaled_nth_error s (v :: vals) 0 v eq_refl) as N.
  destruct (scale_index s (reset_index (v :: vals))) as [| r f]; [discriminate|].
  simpl. eauto.
Qed.

Lemma scaled_first (s : Z) (vals : list (list (option Q))) (m : Z) :
  NoDup (map fst (scale_index s (reset_index vals))) ->
  index_max (scale_index s (reset_index vals)) = Ok m ->
  exists row, nth_error vals 0 = Some row /\
    forall j, nth_error (reindexed_column (range (m + 1)) (scale_index s (reset_index vals)) j) 0
              = Some (nth j row None).
Proof.
  intros Hnd Hm. destruct vals as [| row vals]; [discriminate Hm|].
  exists row. split; [reflexivity|]. intros j.
  apply (reindexed_known _ m j 0 row Hnd Hm).
  pose proof (scaled_nth_error s (row :: vals) 0 row eq_refl) as N.
  apply nth_error_In in N. exact N.
Qed.

Lemma lerp_midpoint (a b : Q) : lerp a b 1 2 == (a + b) / 2.
Proof. unfold lerp. simpl. field. Qed.

(** The value [j] steps out of [g], written out. *)
Lemma lerp_formula (a b : Q) (j g : nat) :
  lerp a b j g = a + (b - a) * (inject_Z (Z.of_nat j) / inject_Z (Z.of_nat g)).
Proof. reflexivity. Qed.

(** ** The rows of a frame *)

Lemma data_length (f : Frame) : length (data f) = length (labels f).
Proof. unfold data. now rewrite length_map, length_seq. Qed.

Lemma data_nth_error (f : Frame) (i : nat) :
  (i < length (labels f))%nat ->
  nth_error (data f) i = Some (map (fun col => nth i col None) (series f)).
Proof.
  intros H. unfold data. rewrite nth_error_map, nth_error_seq.
  destruct (Nat.ltb_spec i (length (labels f))); [reflexivity | lia].
Qed.

Lemma data_row (f : Frame) (i : nat) (row : list (option Q)) :
  nth_error (data f) i = Some row ->
  (i < length (labels f))%nat /\ row = map (fun col => nth i col None) (series f).
Proof.
  intros H. assert (L : (i < length (labels f))%nat).
  { rewrite <- data_length. apply nth_error_Some. congruence. }
  rewrite (data_nth_error f i L) in H. injection H as <-. now split.
Qed.

Lemma data_In (f : Frame) (row : list (option Q)) :
  In row (data f) ->
  exists i, (i < length (labels f))%nat /\
    row = map (fun col => nth i col None) (series f).
Proof.
  intros H. apply In_nth_error in H. destruct H as [i H]. exists i.
  now apply data_row.
Qed.

(** A number in a row of a frame is a number of one of its columns. *)
Lemma data_cell_In (f : Frame) (row : list (option Q)) (x : Q) :
  In row (data f) -> In (Some x) row ->
  exists col, In col (series f) /\ In (Some x) col.
Proof.
  intros Hr Hx. apply data_In in Hr. destruct Hr as [i [_ ->]].
  apply in_map_iff in Hx. destruct Hx as [col [E Hc]]. exists col. split; [exact Hc|].
  destruct (Nat.lt_ge_cases i (length col)) as [L | L].
  - rewrite <- E. now apply nth_In.
  - rewrite nth_overflow in E by exact L. discriminate.
Qed.

Lemma nth_nth_error {A : Type} (l : list A) (i : nat) (d a : A) :
  nth_error l i = Some a -> nth i l d = a.
Proof. intros H. now apply nth_error_nth. Qed.

(** ** The numbers of a table *)

Lemma float64_small (z : Z) : (Z.abs z <= 2 ^ 53)%Z -> float64_of_Z z = inject_Z z.
Proof.
  intros H. unfold float64_of_Z.
  destruct (Z.leb_spec (Z.log2 (Z.abs z) - 52) 0) as [L | L]; [reflexivity|].
  assert (E : Z.abs z = (2 ^ 53)%Z).
  { destruct (Z.eq_dec (Z.abs z) (2 ^ 53)) as [E | N]; [exact E|]. exfalso.
    assert (P : (0 < Z.abs z)%Z).
    { destruct (Z.abs z) eqn:A; try lia. simpl in L. lia. }
    assert (Z.log2 (Z.abs z) < 53)%Z; [| lia].
    apply Z.log2_lt_pow2; [exact P|].
    change (2 ^ 53)%Z with 9007199254740992%Z in *. lia. }
  rewrite E. change (Z.log2 (2 ^ 53) - 52)%Z with 1%Z.
  change ((2 ^ 53 / 2 ^ 1)%Z) with (2 ^ 52)%Z.
  change ((2 ^ 53) mod 2 ^ 1)%Z with 0%Z.
  change (2 ^ (1 - 1))%Z with 1%Z. cbn [Z.ltb Z.eqb Z.compare orb andb].
  change (1 <=? 0)%Z with false. cbv iota.
  f_equal. change (2 ^ 52 * 2 ^ 1)%Z with (2 ^ 53)%Z.
  change (2 ^ 53)%Z with 9007199254740992%Z in *.
  change (2 ^ 52)%Z with 4503599627370496%Z. change (2 ^ 1)%Z with 2%Z. lia.
Qed.

Lemma small_as_float (c : cell) : small c = true -> as_float c = exact c.
Proof.
  destruct c as [z | q | | s]; simpl; try reflexivity.
  intros H. apply Z.leb_le in H. now rewrite float64_small.
Qed.

Lemma small_float_values (t : DataFrame) :
  small_ints t = true -> float_values t = stored_values t.
Proof.
  unfold small_ints, float_values, stored_values. intros H.
  rewrite forallb_forall in H. apply map_ext_in. intros r Hr.
  specialize (H r Hr). rewrite forallb_forall in H.
  apply map_ext_in. intros c Hc. now apply small_as_float, H.
Qed.

Lemma small_rank_values (t : DataFrame) :
  small_ints t = true -> rank_values t = stored_values t.
Proof.
  intros H. unfold rank_values. rewrite (small_float_values t H).
  now destruct (forallb is_int64 (dtypes t)).
Qed.

Lemma stored_values_length (t : DataFrame) :
  length (stored_values t) = length (rows t).
Proof. unfold stored_values. apply length_map. Qed.

Lemma float_values_length (t : DataFrame) :
  length (float_values t) = length (rows t).
Proof. unfold float_values. apply length_map. Qed.

Lemma rank_values_length (t : DataFrame) :
  length (rank_values t) = length (rows t).
Proof.
  unfold rank_values. destruct (forallb is_int64 (dtypes t));
    [apply stored_values_length | apply float_values_length].
Qed.

Lemma stored_values_nth_error (t : DataFrame) (k : nat) (r : string * list cell) :
  nth_error (rows t) k = Some r ->
  nth_error (stored_values t) k = Some (map exact (snd r)).
Proof. intros H. unfold stored_values. now rewrite nth_error_map, H. Qed.

Lemma holds_exact (c : cell) (a : Q) : holds c a -> exact c = Some a.
Proof. intros [-> | [z [-> ->]]]; reflexivity. Qed.

Lemma exact_holds (c : cell) (a : Q) : exact c = Some a -> holds c a.
Proof.
  destruct c as [z | q | | s]; simpl; intros H; try discriminate; injection H as <-.
  - right. now exists z.
  - now left.
Qed.

(** The labels of the table do not depend on what the rows hold. *)
Lemma scaled_labels_length (s : Z) (x y : list (list (option Q))) :
  length x = length y ->
  map fst (scale_index s (reset_index x)) = map fst (scale_index s (reset_index y)).
Proof. intros H. now rewrite !scaled_labels, H. Qed.

(** ** The frames of [prepare_data] *)

Lemma rank_frame_eq (self : BarChart) (f : labelled) :
  let top := inject_Z (n_bars self + 1) in
  let df_rank :=
    map (fun r => (fst r, map (option_map (clip_upper top)) (rank_first_desc (snd r)))) f in
  (if inverts (sort self) (orientation self)
   then map (fun r => (fst r, map (option_map (fun x => top - x)) (snd r))) df_rank
   else df_rank)
  = map (fun r => (fst r, final_rank self (snd r))) f.
Proof.
  simpl. unfold final_rank. destruct (inverts (sort self) (orientation self)).
  - rewrite map_map. reflexivity.
  - reflexivity.
Qed.

(** The rows [prepare_data] puts into the value frame: floats when
    [reindex] brings in a row, the stored numbers when it does not. *)
Lemma prepare_data_inv (self : BarChart) (vf rf : Frame) :
  prepare_data self = Ok (vf, rf) ->
  let t := df self in
  let s := steps_per_period self in
  exists m V ks,
    rank_check t = Ok tt /\
    interpolate_check t = Ok tt /\
    index_max (scale_index s (reset_index (stored_values t))) = Ok m /\
    NoDup (map fst (scale_index s (reset_index (stored_values t)))) /\
    ((V = float_values t /\ ks = repeat Float64 (shape1 t) /\
      adds_rows (range (m + 1)) (map fst (scale_index s (reset_index (stored_values t)))) = true)
     \/ (V = stored_values t /\ ks = dtypes t /\
         adds_rows (range (m + 1)) (map fst (scale_index s (reset_index (stored_values t)))) = false)) /\
    vf = built_frame (shape1 t) ks m (scale_index s (reset_index V)) /\
    rf = built_frame (shape1 t) (repeat Float64 (shape1 t)) m
           (scale_index s (reset_index (map (final_rank self) (rank_values t)))).
Proof.
  intros H t s. unfold prepare_data in H. fold t s in H.
  destruct (rank_check t) as [[] |]; [| discriminate]. cbn [bind] in H.
  rewrite (rank_frame_eq self (scale_index s (reset_index (rank_values t)))) in H.
  rewrite scaled_map in H.
  destruct (index_max (scale_index s (reset_index (stored_values t)))) as [m |] eqn:M;
    [| discriminate]. cbn [bind] in H.
  set (old := map fst (scale_index s (reset_index (stored_values t)))) in *.
  assert (Lf : map fst (scale_index s (reset_index (float_values t))) = old).
  { apply scaled_labels_length. now rewrite float_values_length, stored_values_length. }
  assert (Lr : map fst (scale_index s (reset_index (map (final_rank self) (rank_values t)))) = old).
  { apply scaled_labels_length.
    now rewrite length_map, rank_values_length, stored_values_length. }
  unfold reindex in H. rewrite Lr in H.
  destruct (adds_rows (range (m + 1)) old) eqn:G.
  - rewrite Lf in H.
    destruct (has_duplicates old) eqn:D; [discriminate|]. cbn [bind] in H.
    destruct (interpolate_check t) as [[] |]; [| discriminate]. cbn [bind] in H.
    injection H as <- <-.
    exists m, (float_values t), (repeat Float64 (shape1 t)).
    repeat split; try reflexivity; [now apply has_duplicates_NoDup | left; auto | |].
    + unfold interpolate, built_frame. cbn [labels kinds series]. now rewrite map_map.
    + unfold interpolate, built_frame. cbn [labels kinds series]. now rewrite map_map.
  - fold old in H.
    destruct (has_duplicates old) eqn:D; [discriminate|]. cbn [bind] in H.
    destruct (interpolate_check t) as [[] |]; [| discriminate]. cbn [bind] in H.
    injection H as <- <-.
    exists m, (stored_values t), (dtypes t).
    repeat split; try reflexivity; [now apply has_duplicates_NoDup | right; auto | |].
    + unfold interpolate, built_frame. cbn [labels kinds series]. now rewrite map_map.
    + unfold interpolate, built_frame. cbn [labels kinds series]. now rewrite map_map.
Qed.

(** [prepare_data] returns once the checks pass, the table has a row and
    its labels are all different. *)
Lemma prepare_data_returns_when (self : BarChart) (m : Z) :
  let t := df self in
  let s := steps_per_period self in
  rank_check t = Ok tt ->
  interpolate_check t = Ok tt ->
  index_max (scale_index s (reset_index (stored_values t))) = Ok m ->
  NoDup (map fst (scale_index s (reset_index (stored_values t)))) ->
  exists vf rf, prepare_data self = Ok (vf, rf).
Proof.
  intros t s Hr Hi Hm Hnd. unfold prepare_data. fold t s. rewrite Hr. cbn [bind].
  rewrite (rank_frame_eq self (scale_index s (reset_index (rank_values t)))).
  rewrite scaled_map, Hm. cbn [bind].
  set (old := map fst (scale_index s (reset_index (stored_values t)))) in *.
  assert (Lf : map fst (scale_index s (reset_index (float_values t))) = old).
  { apply scaled_labels_length. now rewrite float_values_length, stored_values_length. }
  assert (Lr : map fst (scale_index s (reset_index (map (final_rank self) (rank_values t)))) = old).
  { apply scaled_labels_length.
    now rewrite length_map, rank_values_length, stored_values_length. }
  unfold reindex. rewrite Lr.
  apply has_duplicates_NoDup in Hnd.
  destruct (adds_rows (range (m + 1)) old) eqn:G.
  - rewrite Lf, Hnd. cbn [bind]. rewrite Hi. cbn [bind]. eauto.
  - fold old. rewrite Hnd. cbn [bind]. rewrite Hi. cbn [bind]. eauto.
Qed.

(** The checks pass on a table without objects. *)
Lemma numeric_table_checks (t : DataFrame) :
  numeric_table t = true -> rank_check t = Ok tt /\ interpolate_check t = Ok tt.
Proof.
  unfold numeric_table, rank_check, interpolate_check. intros H.
  apply andb_true_iff in H. destruct H as [Hd Hc].
  rewrite forallb_forall in Hd, Hc.
  assert (E1 : existsb (fun r => existsb is_obj (snd r) && existsb is_number (snd r)) (rows t) = false).
  { apply not_true_iff_false. intros E. apply existsb_exists in E.
    destruct E as [r [Hr E]]. apply andb_true_iff in E. destruct E as [E _].
    apply existsb_exists in E. destruct E as [c [Hc' E]].
    specialize (Hc r Hr). rewrite forallb_forall in Hc. specialize (Hc c Hc').
    rewrite E in Hc. discriminate. }
  assert (E2 : existsb is_object (dtypes t) = false).
  { apply not_true_iff_false. intros E. apply existsb_exists in E.
    destruct E as [d [Hd' E]]. specialize (Hd d Hd'). now destruct d. }
  assert (E3 : existsb (fun r => existsb is_obj (snd r)) (rows t) = false).
  { apply not_true_iff_false. intros E. apply existsb_exists in E.
    destruct E as [r [Hr E]]. apply existsb_exists in E. destruct E as [c [Hc' E]].
    specialize (Hc r Hr). rewrite forallb_forall in Hc. specialize (Hc c Hc').
    rewrite E in Hc. discriminate. }
  now rewrite E1, E2, E3.
Qed.

(** ** The cells of a built frame *)

Lemma built_labels (ncols : nat) (ks : list dtype) (m : Z) (f : labelled) :
  labels (built_frame ncols ks m f) = range (m + 1).
Proof. reflexivity. Qed.

Lemma built_length (ncols : nat) (ks : list dtype) (m : Z) (f : labelled) :
  length (data (built_frame ncols ks m f)) = Z.to_nat (m + 1).
Proof. now rewrite data_length, built_labels, range_length. Qed.

(** Row [i] of a built frame holds, at place [j], what column [j] holds at
    place [i]. *)
Lemma built_row (ncols : nat) (ks : list dtype) (m : Z) (f : labelled) (i : nat) :
  (i < Z.to_nat (m + 1))%nat ->
  exists row,
    nth_error (data (built_frame ncols ks m f)) i = Some row /\
    length row = ncols /\
    forall j, (j < ncols)%nat ->
      nth_error row j
      = nth_error (interpolate_column (reindexed_column (range (m + 1)) f j)) i.
Proof.
  intros Hi. eexists. split; [| split].
  - apply data_nth_error. now rewrite built_labels, range_length.
  - cbn [series built_frame]. now rewrite !length_map, length_seq.
  - intros j Hj. cbn [series built_frame]. rewrite map_map.
    rewrite nth_error_map, nth_error_seq.
    destruct (Nat.ltb_spec j ncols); [| lia]. cbn [option_map Nat.add].
    symmetry. apply nth_error_nth'.
    now rewrite interpolate_column_length, reindexed_length, range_length.
Qed.

Lemma built_row_inv (ncols : nat) (ks : list dtype) (m : Z) (f : labelled) (i : nat)
    (row : list (option Q)) :
  nth_error (data (built_frame ncols ks m f)) i = Some row ->
  (i < Z.to_nat (m + 1))%nat /\
  length row = ncols /\
  forall j, (j < ncols)%nat ->
    nth_error row j
    = nth_error (interpolate_column (reindexed_column (range (m + 1)) f j)) i.
Proof.
  intros H. assert (Hi : (i < Z.to_nat (m + 1))%nat).
  { rewrite <- (built_length ncols ks m f). apply nth_error_Some. congruence. }
  destruct (built_row ncols ks m f i Hi) as [row' [E P]].
  rewrite H in E. injection E as <-. now split.
Qed.

(** A number of a built frame is a number of one of its columns. *)
Lemma built_cell_In (ncols : nat) (ks : list dtype) (m : Z) (f : labelled)
    (row : list (option Q)) (x : Q) :
  In row (data (built_frame ncols ks m f)) -> In (Some x) row ->
  exists j, In (Some x) (interpolate_column (reindexed_column (range (m + 1)) f j)).
Proof.
  intros Hr Hx. destruct (data_cell_In _ row x Hr Hx) as [col [Hc Hin]].
  cbn [series built_frame] in Hc. apply in_map_iff in Hc.
  destruct Hc as [j [<- _]]. now exists j.
Qed.

(** A column of a frame built with a step [s > 0] from [r >= 1] rows: the
    cell of row [k] stands at place [k*s], and between two cells that hold
    numbers the places are filled along the line from one to the other. *)
Lemma built_positive (vals : list (list (option Q))) (s : Z) (j : nat) :
  vals <> [] ->
  (0 < s)%Z ->
  let g := Z.to_nat s in
  let f := scale_index s (reset_index vals) in
  let m := ((Z.of_nat (length vals) - 1) * s)%Z in
  let c := interpolate_column (reindexed_column (range (m + 1)) f j) in
  length c = ((length vals - 1) * g + 1)%nat /\
  (forall k row a, nth_error vals k = Some row -> nth j row None = Some a ->
     nth_error c (k * g) = Some (Some a)) /\
  (forall k i x y a b, nth_error vals k = Some x -> nth_error vals (S k) = Some y ->
     nth j x None = Some a -> nth j y None = Some b ->
     (0 < i < g)%nat ->
     nth_error c (k * g + i) = Some (Some (lerp a b i g))).
Proof.
  intros Hne Hs g f m c.
  destruct (scaled_positive s vals Hs Hne) as [Hnd Hm].
  fold f in Hnd, Hm. fold m in Hm.
  assert (Hknown : forall k row, nth_error vals k = Some row ->
            nth_error (reindexed_column (range (m + 1)) f j) (k * g)
            = Some (nth j row None)).
  { intros k row Hk. apply (reindexed_known f m j _ row Hnd Hm).
    apply scaled_In; [lia | exact Hk]. }
  split; [| split].
  - unfold c. rewrite interpolate_column_length, reindexed_length, range_length.
    assert (0 < length vals)%nat by (destruct vals; [congruence | simpl; lia]).
    unfold m, g. nia.
  - intros k row a Hk Ha. apply interpolate_column_known.
    rewrite (Hknown k row Hk). now f_equal.
  - intros k i x y a b Hx Hy Ha Hb Hi. unfold c.
    apply interpolate_column_lerp; [| | | exact Hi].
    + rewrite (Hknown k x Hx). now f_equal.
    + intros p Hp. apply reindexed_missing; [| now apply scaled_between].
      assert (S k < length vals)%nat by (apply nth_error_Some; congruence).
      unfold m, g in *. nia.
    + replace (k * g + g)%nat with (S k * g)%nat by lia.
      rewrite (Hknown (S k) y Hy). now f_equal.
Qed.

Lemma rectangular_row (t : DataFrame) (k : nat) (r : string * list cell) :
  rectangular t -> nth_error (rows t) k = Some r -> length (snd r) = shape1 t.
Proof.
  intros [_ H] Hk. rewrite Forall_forall in H. apply H. eapply nth_error_In, Hk.
Qed.


Lemma rows_nonempty (t : DataFrame) : rows t <> [] -> stored_values t <> [].
Proof.
  intros H E. apply H. apply length_zero_iff_nil.
  now rewrite <- stored_values_length, E.
Qed.

(** [prepare_data] on a table of numbers with a row and a positive step:
    it returns, and its value frame is built from the stored numbers. *)
Lemma prepare_data_positive (self : BarChart) :
  let t := df self in
  let s := steps_per_period self in
  numeric_table t = true ->
  rows t <> [] ->
  (0 < s)%Z ->
  let m := ((Z.of_nat (length (rows t)) - 1) * s)%Z in
  exists V ks,
    (V = float_values t \/ V = stored_values t) /\
    prepare_data self
    = Ok (built_frame (shape1 t) ks m (scale_index s (reset_index V)),
          built_frame (shape1 t) (repeat Float64 (shape1 t)) m
            (scale_index s (reset_index (map (final_rank self) (rank_values t))))).
Proof.
  intros t s Hnum Hne Hs m.
  destruct (numeric_table_checks t Hnum) as [Hr Hi].
  destruct (scaled_positive s (stored_values t) Hs (rows_nonempty t Hne)) as [Hnd Hm].
  rewrite stored_values_length in Hm. fold m in Hm.
  destruct (prepare_data_returns_when self m Hr Hi Hm Hnd) as [vf [rf H]].
  destruct (prepare_data_inv self vf rf H) as [m' [V [ks [_ [_ [Hm' [_ [HV [-> ->]]]]]]]]].
  fold t s in Hm'. rewrite Hm in Hm'. injection Hm' as <-.
  exists V, ks. split; [| exact H].
  destruct HV as [[-> _] | [-> _]]; auto.
Qed.

(** ** The value frame *)




(** The row of the table that carries the label [p] stands at place [p]
    of the frame, with its numbers. *)
Lemma built_period_row (ncols : nat) (ks : list dtype) (vals : list (list (option Q)))
    (s m : Z) (k : nat) (row : list (option Q)) :
  NoDup (map fst (scale_index s (reset_index vals))) ->
  index_max (scale_index s (reset_index vals)) = Ok m ->
  nth_error vals k = Some row ->
  (0 <= Z.of_nat k * s)%Z ->
  exists frow,
    nth_error (data (built_frame ncols ks m (scale_index s (reset_index vals))))
      (Z.to_nat (Z.of_nat k * s)) = Some frow /\
    length frow = ncols /\
    forall j a, (j < ncols)%nat -> nth j row None = Some a ->
      nth_error frow j = Some (Some a).
Proof.
  intros Hnd Hm Hk Hpos.
  set (f := scale_index s (reset_index vals)) in *.
  set (p := Z.to_nat (Z.of_nat k * s)).
  assert (Hin : In (Z.of_nat p, row) f).
  { unfold p. rewrite Z2Nat.id by exact Hpos.
    eapply nth_error_In, scaled_nth_error, Hk. }
  assert (Hp : (p < Z.to_nat (m + 1))%nat).
  { destruct (index_max_bounds f m Hm) as [_ B].
    assert (Z.of_nat p <= m)%Z; [| lia].
    apply B. change (Z.of_nat p) with (fst (Z.of_nat p, row)). now apply in_map. }
  destruct (built_row ncols ks m f p Hp) as [frow [E [L C]]].
  exists frow. split; [exact E|]. split; [exact L|].
  intros j a Hj Ha. rewrite (C j Hj). apply interpolate_column_known.
  rewrite (reindexed_known f m j p row Hnd Hm Hin). now f_equal.
Qed.

(** The rank table has the labels of the value table. *)
Lemma rank_table_labels (self : BarChart) :
  map fst (scale_index (steps_per_period self)
             (reset_index (map (final_rank self) (rank_values (df self)))))
  = map fst (scale_index (steps_per_period self) (reset_index (stored_values (df self)))).
Proof.
  apply scaled_labels_length.
  now rewrite length_map, rank_values_length, stored_values_length.
Qed.

Lemma value_table_labels (self : BarChart) (V : list (list (option Q))) :
  V = float_values (df self) \/ V = stored_values (df self) ->
  map fst (scale_index (steps_per_period self) (reset_index V))
  = map fst (scale_index (steps_per_period self) (reset_index (stored_values (df self)))).
Proof.
  intros [-> | ->]; [| reflexivity]. apply scaled_labels_length.
  now rewrite float_values_length, stored_values_length.
Qed.

(** ** Rank inversion *)

(** C1: on a table as wide as its header, with no integer beyond [2^53],
    whenever [prepare_data] returns (as it does on a table of numbers with
    a column, a row and a positive step), the rank frame holds at the place of every
    row of the table, for every column with a number in that row, the
    naive rank of the column (its place when the numbers of the row are
    sorted descending, ties in column order, at most [n_bars + 1]),
    taken from [n_bars + 1] exactly when sort is "desc" and orientation "h"
    or sort is "asc" and orientation "v". *)
Theorem prepare_data_rank_inversion (self : BarChart) :
  let t := df self in
  let n := n_bars self in
  let s := steps_per_period self in
  let inverted :=
    (sort self = "desc"%string /\ orientation self = "h"%string)
    \/ (sort self = "asc"%string /\ orientation self = "v"%string) in
  rectangular t ->
  small_ints t = true ->
  (numeric_table t = true -> (1 <= shape1 t)%nat -> rows t <> [] -> (0 < s)%Z ->
   exists vf rf, prepare_data self = Ok (vf, rf)) /\
  forall vf rf k label cells,
    prepare_data self = Ok (vf, rf) ->
    nth_error (rows t) k = Some (label, cells) ->
    (0 <= Z.of_nat k * s)%Z ->
    exists ranks,
      nth_error (data rf) (Z.to_nat (Z.of_nat k * s)) = Some ranks /\
      length ranks = shape1 t /\
      forall j c v, nth_error cells j = Some c -> holds c v ->
        (inverted ->
         nth_error ranks j
         = Some (Some (inject_Z (n + 1) - naive_rank n (map exact cells) j))) /\
        (~ inverted ->
         nth_error ranks j = Some (Some (naive_rank n (map exact cells) j))).
Proof.
  intros t n s inverted Hrect Hsmall. split.
  - intros Hnum _ Hne Hs.
    destruct (prepare_data_positive self Hnum Hne Hs) as [V [ks [_ H]]]. eauto.
  - intros vf rf k label cells H Hk Hpos.
    destruct (prepare_data_inv self vf rf H)
      as [m [V [ks [_ [_ [Hm [Hnd [_ [_ ->]]]]]]]]].
    fold t s in Hm, Hnd.
    pose proof (rank_table_labels self) as Lr. fold t s in Lr.
    rewrite <- Lr in Hnd. rewrite (index_max_labels _ _ (eq_sym Lr)) in Hm.
    assert (Hrow : nth_error (map (final_rank self) (rank_values t)) k
                   = Some (final_rank self (map exact cells))).
    { rewrite (small_rank_values t Hsmall), nth_error_map.
      now rewrite (stored_values_nth_error t k _ Hk). }
    destruct (built_period_row (shape1 t) (repeat Float64 (shape1 t)) _ s m k _
                Hnd Hm Hrow Hpos) as [ranks [E [L C]]].
    exists ranks. split; [exact E|]. split; [exact L|].
    intros j c v Hc Hv.
    assert (Hj : (j < shape1 t)%nat).
    { rewrite <- (rectangular_row t k _ Hrect Hk). apply nth_error_Some.
      cbn [snd]. congruence. }
    assert (Hx : nth_error (map exact cells) j = Some (Some v)).
    { rewrite nth_error_map, Hc. cbn [option_map]. f_equal. now apply holds_exact. }
    pose proof (final_rank_nth_error self (map exact cells) j v Hx) as F.
    apply (nth_nth_error _ _ None) in F. specialize (C j _ Hj F).
    fold n in C. unfold inverted. rewrite <- inverts_spec.
    destruct (inverts (sort self) (orientation self)); split; intros I;
      try exact C; try discriminate I. now elim I.
Qed.

Lemma prepare_data_rank_inversion_witness :
  let self :=
    chart_of
      (mkDataFrame ["a"; "b"; "c"]%string [Float64; Float64; Float64]
         [("2020"%string, [Num 1; Num 5; Num 3]); ("2021"%string, [Num 4; Num 4; Num 0])])
      2 "desc" "h" 3 in
  exists vf rf ranks r0 r1 r2,
    prepare_data self = Ok (vf, rf) /\
    nth_error (data rf) 2 = Some ranks /\
    nth_error ranks 0 = Some (Some r0) /\ r0 == 3 /\
    nth_error ranks 1 = Some (Some r1) /\ r1 == 2 /\
    nth_error ranks 2 = Some (Some r2) /\ r2 == 1.
Proof.
  intros self.
  destruct (prepare_data_rank_inversion self) as [R I].
  - split; [reflexivity | repeat constructor].
  - reflexivity.
  - destruct R as [vf [rf E]]; [reflexivity | cbn; lia | discriminate | reflexivity |].
    destruct (I vf rf 1%nat "2021"%string [Num 4; Num 4; Num 0] E eq_refl)
      as [ranks [N [_ P]]]; [discriminate|].
    assert (Inv : (sort self = "desc"%string /\ orientation self = "h"%string)
                  \/ (sort self = "asc"%string /\ orientation self = "v"%string))
      by (left; now split).
    destruct (P 0%nat (Num 4) 4 eq_refl (or_introl eq_refl)) as [P0 _].
    destruct (P 1%nat (Num 4) 4 eq_refl (or_introl eq_refl)) as [P1 _].
    destruct (P 2%nat (Num 0) 0 eq_refl (or_introl eq_refl)) as [P2 _].
    exists vf, rf, ranks. do 3 eexists.
    split; [exact E|]. split; [exact N|].
    split; [exact (P0 Inv)|]. split; [reflexivity|].
    split; [exact (P1 Inv)|]. split; [reflexivity|].
    split; [exact (P2 Inv)|]. reflexivity.
Defined.

(** Where C1 stops.  In [gap_table] the second row has no value for "a":
    [rank] gives it no rank and [interpolate] then carries its rank of the
    first row on, so that the ranks of the second row are 1, 2, 1: two
    columns at the same place, which no sorted row has, wherever it puts
    a missing value.  In [big_pair_table] the integer [2^53 + 1] is
    compared as the float [2^53] and ties with "a".  And with a step of
    -1 only the first row of the table is kept: the second row has no
    place in the rank frame. *)
Lemma prepare_data_rank_inversion_counterexample :
  (let self := chart_of gap_table 1 "desc" "v" 3 in
   (exists vf rf,
      prepare_data self = Ok (vf, rf) /\
      nth_error (data rf) 1 = Some [Some 1; Some 2; Some 1]) /\
   ~ (forall vf rf k label cells j c,
        prepare_data self = Ok (vf, rf) ->
        nth_error (rows (df self)) k = Some (label, cells) ->
        nth_error cells j = Some c ->
        exists ranks,
          nth_error (data rf) (Z.to_nat (Z.of_nat k * steps_per_period self))
          = Some ranks /\
          nth_error ranks j
          = Some (Some (naive_rank (n_bars self) (map exact cells) j)))) /\
  (let self := chart_of big_pair_table 1 "desc" "v" 2 in
   ~ (forall vf rf k label cells j c,
        prepare_data self = Ok (vf, rf) ->
        nth_error (rows (df self)) k = Some (label, cells) ->
        nth_error cells j = Some c ->
        exists ranks,
          nth_error (data rf) (Z.to_nat (Z.of_nat k * steps_per_period self))
          = Some ranks /\
          nth_error ranks j
          = Some (Some (naive_rank (n_bars self) (map exact cells) j)))) /\
  (let self := chart_of (race_table 2) (-1) "desc" "v" 2 in
   (exists vf rf,
      prepare_data self = Ok (vf, rf) /\
      length (rows (df self)) = 2%nat /\ length (data rf) = 1%nat) /\
   ~ (forall vf rf k label cells j c,
        prepare_data self = Ok (vf, rf) ->
        nth_error (rows (df self)) k = Some (label, cells) ->
        nth_error cells j = Some c ->
        exists ranks,
          nth_error (data rf) (Z.to_nat (Z.of_nat k * steps_per_period self))
          = Some ranks /\
          nth_error ranks j
          = Some (Some (naive_rank (n_bars self) (map exact cells) j)))).
Proof.
  split; [split | split; [| split]].
  - set (self := chart_of gap_table 1 "desc" "v" 3).
    destruct (prepare_data self) as [[vf rf] |] eqn:E; [| discriminate E].
    exists vf, rf. split; [reflexivity|]. vm_compute in E. injection E as <- <-.
    reflexivity.
  - intros C. set (self := chart_of gap_table 1 "desc" "v" 3) in *.
    destruct (prepare_data self) as [[vf rf] |] eqn:E; [| discriminate E].
    destruct (C vf rf 1%nat "2021"%string [NaN; Num 2; Num 5] 0%nat NaN eq_refl eq_refl eq_refl)
      as [ranks [N R]].
    vm_compute in E. injection E as <- <-.
    vm_compute in N. injection N as <-. vm_compute in R. discriminate R.
  - intros self C.
    destruct (prepare_data self) as [[vf rf] |] eqn:E; [| discriminate E].
    destruct (C vf rf 0%nat "2020"%string [Num (inject_Z (2 ^ 53)); Int (2 ^ 53 + 1)]
                1%nat (Int (2 ^ 53 + 1)) eq_refl eq_refl eq_refl)
      as [ranks [N R]].
    vm_compute in E. injection E as <- <-.
    vm_compute in N. injection N as <-. vm_compute in R. discriminate R.
  - set (self := chart_of (race_table 2) (-1) "desc" "v" 2).
    destruct (prepare_data self) as [[vf rf] |] eqn:E; [| discriminate E].
    exists vf, rf. split; [reflexivity|]. split; [reflexivity|].
    vm_compute in E. injection E as <- <-. reflexivity.
  - intros C. set (self := chart_of (race_table 2) (-1) "desc" "v" 2) in *.
    destruct (prepare_data self) as [[vf rf] |] eqn:E; [| discriminate E].
    destruct (C vf rf 1%nat "t"%string [Num 1; Num 1] 0%nat (Num 1) eq_refl eq_refl eq_refl)
      as [ranks [N R]].
    vm_compute in E. injection E as <- <-.
    vm_compute in N. injection N as <-. vm_compute in R. discriminate R.
Qed.

(** ** Bounds of the ranks *)

Lemma lerp_between (lo hi a b : Q) (j g : nat) :
  (j <= g)%nat -> (0 < g)%nat ->
  lo <= a <= hi -> lo <= b <= hi -> lo <= lerp a b j g <= hi.
Proof.
  intros Hj Hg Ha Hb. unfold lerp.
  set (t := inject_Z (Z.of_nat j) / inject_Z (Z.of_nat g)).
  assert (Hg' : 0 < inject_Z (Z.of_nat g)).
  { change 0 with (inject_Z 0). rewrite <- Zlt_Qlt. lia. }
  assert (Ht0 : 0 <= t).
  { unfold t. apply Qle_shift_div_l; [exact Hg'|]. rewrite Qmult_0_l.
    change 0 with (inject_Z 0). rewrite <- Zle_Qle. lia. }
  assert (Ht1 : t <= 1).
  { unfold t. apply Qle_shift_div_r; [exact Hg'|]. rewrite Qmult_1_l.
    rewrite <- Zle_Qle. lia. }
  nra.
Qed.

Lemma clipped_rank_bounds (n : Z) (row : list (option Q)) (x : Q) :
  (0 <= n)%Z ->
  In (Some x) (map (option_map (clip_upper (inject_Z (n + 1)))) (rank_first_desc row)) ->
  1 <= x <= inject_Z (n + 1).
Proof.
  intros Hn Hc.
  apply in_map_iff in Hc. destruct Hc as [r [E Hr]].
  unfold rank_first_desc in Hr. apply in_map_iff in Hr. destruct Hr as [y [<- _]].
  destruct (snd y) as [v |]; [| discriminate]. cbn [option_map] in E.
  injection E as <-.
  set (cnt := length (filter _ (enumerate row))).
  assert (H1 : 1 <= inject_Z (Z.of_nat (S cnt))).
  { change 1 with (inject_Z 1). rewrite <- Zle_Qle. lia. }
  assert (H2 : 1 <= inject_Z (n + 1)).
  { change 1 with (inject_Z 1). rewrite <- Zle_Qle. lia. }
  unfold clip_upper. destruct (Qle_bool _ _) eqn:E.
  - apply Qle_bool_iff in E. split; assumption.
  - split; [exact H2 | apply Qle_refl].
Qed.

Lemma final_rank_bounds (self : BarChart) (row : list (option Q)) (x : Q) :
  (0 <= n_bars self)%Z ->
  In (Some x) (final_rank self row) ->
  if inverts (sort self) (orientation self)
  then 0 <= x <= inject_Z (n_bars self)
  else 1 <= x <= inject_Z (n_bars self + 1).
Proof.
  intros Hn Hx. unfold final_rank in Hx.
  destruct (inverts (sort self) (orientation self)).
  - apply in_map_iff in Hx. destruct Hx as [r [E Hr]].
    destruct r as [r |]; [| discriminate]. cbn [option_map] in E. injection E as <-.
    pose proof (clipped_rank_bounds (n_bars self) row r Hn Hr) as B.
    rewrite inject_Z_plus in *. change (inject_Z 1) with 1 in *. lra.
  - now apply (clipped_rank_bounds (n_bars self) row x Hn).
Qed.

(** A number of a column of a frame satisfies what the numbers of that
    column of the table satisfy, when the line between two numbers keeps
    it. *)
Lemma built_column_keeps (P : Q -> Prop) (f : labelled) (m : Z) (j : nat) :
  (forall x y i g, (i <= g)%nat -> (0 < g)%nat -> P x -> P y -> P (lerp x y i g)) ->
  (forall row x, In row (map snd f) -> In (Some x) row -> P x) ->
  forall x, In (Some x) (interpolate_column (reindexed_column (range (m + 1)) f j)) ->
    P x.
Proof.
  intros Hl Hf. apply (interpolate_column_keeps P Hl).
  intros x Hx. destruct (reindexed_from_table f _ j x Hx) as [row [Hr Hn]].
  apply (Hf row x Hr).
  destruct (Nat.lt_ge_cases j (length row)) as [L | L].
  - rewrite <- Hn. now apply nth_In.
  - rewrite nth_overflow in Hn by exact L. discriminate.
Qed.

(** C3 as stated fails twice over.  With sort "desc", orientation "h" and
    [n_bars = 1] the one-row table [5, 3] has the ranks [1, 0], and 0 is
    not between 1 and [n_bars + 1].  And in [late_table] column "a" has no
    value in the first row, hence no rank there. *)
Lemma rank_frame_bounds_counterexample :
  (let self := chart_of pair_table 1 "desc" "h" 1 in
   ~ (forall vf rf ranks r,
        prepare_data self = Ok (vf, rf) ->
        (1 <= n_bars self)%Z ->
        In ranks (data rf) -> In r ranks ->
        exists x, r = Some x /\ 1 <= x <= inject_Z (n_bars self + 1))) /\
  (let self := chart_of late_table 1 "desc" "v" 2 in
   ~ (forall vf rf ranks r,
        prepare_data self = Ok (vf, rf) ->
        (1 <= n_bars self)%Z ->
        In ranks (data rf) -> In r ranks ->
        exists x, r = Some x /\ 1 <= x <= inject_Z (n_bars self + 1))).
Proof.
  split; intros self C.
  - destruct (prepare_data self) as [[vf rf] |] eqn:E; [| discriminate E].
    pose proof (C vf rf) as C'. vm_compute in E. injection E as <- <-.
    destruct (C' [Some (2 - 1); Some (2 - 2)] (Some (2 - 2)) eq_refl) as [x [Ex [L _]]].
    + discriminate.
    + now left.
    + right. now left.
    + injection Ex as <-. apply L. reflexivity.
  - destruct (prepare_data self) as [[vf rf] |] eqn:E; [| discriminate E].
    pose proof (C vf rf) as C'. vm_compute in E. injection E as <- <-.
    destruct (C' [None; Some 1] None eq_refl) as [x [Ex _]].
    + discriminate.
    + now left.
    + now left.
    + discriminate Ex.
Qed.

(** C3, amended: whenever [prepare_data] returns and [n_bars >= 1], every
    rank of the rank frame that is not missing lies between 1 and
    [n_bars + 1] when the ranks are not inverted, and between 0 and
    [n_bars] when they are. *)
Theorem rank_frame_bounds (self : BarChart) (vf rf : Frame) :
  prepare_data self = Ok (vf, rf) ->
  (1 <= n_bars self)%Z ->
  let inverted :=
    (sort self = "desc"%string /\ orientation self = "h"%string)
    \/ (sort self = "asc"%string /\ orientation self = "v"%string) in
  forall ranks x, In ranks (data rf) -> In (Some x) ranks ->
    (inverted -> 0 <= x <= inject_Z (n_bars self)) /\
    (~ inverted -> 1 <= x <= inject_Z (n_bars self + 1)).
Proof.
  intros H Hn inverted ranks x Hr Hx.
  destruct (prepare_data_inv self vf rf H) as [m [V [ks [_ [_ [_ [_ [_ [_ ->]]]]]]]]].
  destruct (built_cell_In _ _ _ _ ranks x Hr Hx) as [j Hj].
  set (lo := if inverts (sort self) (orientation self) then 0 else 1).
  set (hi := if inverts (sort self) (orientation self)
             then inject_Z (n_bars self) else inject_Z (n_bars self + 1)).
  assert (B : lo <= x <= hi).
  { clear Hx. revert x Hj. apply built_column_keeps.
    - intros; now apply lerp_between.
    - intros row x Hrow Hx. rewrite scaled_rows in Hrow.
      apply in_map_iff in Hrow. destruct Hrow as [row0 [<- _]].
      pose proof (final_rank_bounds self row0 x ltac:(lia) Hx) as F.
      unfold lo, hi. now destruct (inverts (sort self) (orientation self)). }
  unfold lo, hi in B. unfold inverted. rewrite <- inverts_spec.
  destruct (inverts (sort self) (orientation self)); split; intros I;
    try exact B; try discriminate I. now elim I.
Qed.

Lemma rank_frame_bounds_witness :
  let self := chart_of late_table 2 "desc" "h" 1 in
  exists vf rf,
    prepare_data self = Ok (vf, rf) /\
    data rf <> [] /\
    forall ranks x, In ranks (data rf) -> In (Some x) ranks -> 0 <= x <= 1.
Proof.
  intros self.
  destruct (prepare_data self) as [[vf rf] | e] eqn:E; [| discriminate E].
  exists vf, rf. split; [reflexivity|].
  assert (Hn : (1 <= n_bars self)%Z) by discriminate.
  split; [vm_compute in E; injection E as <- <-; discriminate|].
  intros ranks x Hr Hx.
  apply (rank_frame_bounds self vf rf E Hn ranks x Hr Hx). left. now split.
Defined.

(** ** Construction *)

Lemma post_init_inv (get_cmap : string -> result (list color)) (self : BarChart)
    (c : Chart) :
  __attrs_post_init__ get_cmap self = Ok c ->
  let self' :=
    set_n_bars self
      (if Z.eqb (n_bars self) 0 then Z.of_nat (shape1 (df self)) else n_bars self) in
  attrs c = self' /\
  prepare_data self' = Ok (df_values c, df_rank c) /\
  orig_index c = index (df self) /\
  period_length self <> 0%Z /\
  ax c = match fig self with FigNone => true | _ => false end /\
  get_colors get_cmap self' (cmap self) = Ok (bar_colors c).
Proof.
  intros H self'. unfold __attrs_post_init__ in H. fold self' in H.
  destruct (prepare_data self') as [[dv dr] |]; [| discriminate]. cbn [bind] in H.
  change (period_length self') with (period_length self) in H.
  destruct (Z.eqb_spec (period_length self) 0) as [| Hp]; [discriminate|].
  destruct (get_label_position self') as [x y].
  change (cmap self') with (cmap self) in H.
  destruct (get_colors get_cmap self' (cmap self)) as [colors |]; [| discriminate].
  cbn [bind] in H. injection H as <-. cbn. repeat split; auto.
Qed.

Lemma getitem_in_range {A : Type} (l : list A) (j : Z) :
  (0 <= j < Z.of_nat (length l))%Z ->
  exists a, getitem l j = Ok a /\ nth_error l (Z.to_nat j) = Some a.
Proof.
  intros H. unfold getitem.
  destruct (Z.ltb_spec j 0); [lia|].
  destruct (Z.ltb_spec j 0); [lia|].
  destruct (Z.leb_spec (Z.of_nat (length l)) j); [lia|]. cbn [orb].
  destruct (nth_error l (Z.to_nat j)) as [a |] eqn:E.
  - now exists a.
  - apply nth_error_None in E. lia.
Qed.

Lemma getitem_nonneg {A : Type} (l : list A) (i : Z) (a : A) :
  (0 <= i)%Z -> getitem l i = Ok a -> nth_error l (Z.to_nat i) = Some a.
Proof.
  intros Hi. unfold getitem. destruct (Z.ltb_spec i 0); [lia|].
  destruct (_ || _)%bool; [discriminate|].
  destruct (nth_error l (Z.to_nat i)); [| discriminate]. congruence.
Qed.

(** The two frames are as long as each other, and have a row. *)
Lemma prepare_data_lengths (self : BarChart) (vf rf : Frame) :
  prepare_data self = Ok (vf, rf) ->
  rows (df self) <> [] /\
  labels rf = labels vf /\
  length (data rf) = length (data vf) /\
  (1 <= length (data vf))%nat /\
  ((0 < steps_per_period self)%Z ->
   length (data vf)
   = ((length (rows (df self)) - 1) * Z.to_nat (steps_per_period self) + 1)%nat).
Proof.
  intros H.
  destruct (prepare_data_inv self vf rf H) as [m [V [ks [_ [_ [Hm [Hnd [HV [-> ->]]]]]]]]].
  assert (Hne : rows (df self) <> []).
  { intros E. unfold stored_values in Hm. rewrite E in Hm. discriminate Hm. }
  split; [exact Hne|]. split; [reflexivity|]. rewrite !built_length.
  split; [reflexivity|].
  destruct (index_max_bounds _ m Hm) as [Hin _].
  rewrite scaled_labels in Hin. apply in_map_iff in Hin. destruct Hin as [k [Ek Hk]].
  apply in_seq in Hk. rewrite stored_values_length in Hk.
  pose proof (scaled_nth_error (steps_per_period self) (stored_values (df self)) 0) as N0.
  assert (H0 : (0 <= m)%Z).
  { destruct (index_max_bounds _ m Hm) as [_ B]. apply (B 0%Z).
    rewrite scaled_labels, in_map_iff. exists 0%nat. split; [lia|].
    apply in_seq. rewrite stored_values_length.
    destruct (rows (df self)); [congruence | simpl; lia]. }
  split; [lia|]. intros Hs.
  destruct (scaled_positive _ _ Hs (rows_nonempty _ Hne)) as [_ Hm'].
  rewrite Hm in Hm'. injection Hm' as ->. rewrite stored_values_length.
  assert (0 < length (rows (df self)))%nat
    by (destruct (rows (df self)); [congruence | simpl; lia]).
  nia.
Qed.

(** ** Selections *)

Lemma in_view_spec (n : Z) (r : Q) :
  in_view n r = true <-> 0 < r /\ r < inject_Z (n + 1).
Proof. unfold in_view. now rewrite andb_true_iff, !Qltb_lt. Qed.

Lemma in_view_cell_spec (n : Z) (x : option Q) :
  in_view_cell n x = true <-> exists r, x = Some r /\ 0 < r /\ r < inject_Z (n + 1).
Proof.
  destruct x as [r |]; simpl.
  - rewrite in_view_spec. split; [intros H; now exists r|].
    intros [r' [E H]]. now injection E as ->.
  - split; [discriminate | intros [r [E _]]; discriminate].
Qed.

Lemma select_ok {A : Type} (mask : list bool) (l out : list A) :
  select mask l = Ok out ->
  length mask = length l /\ out = map snd (filter fst (combine mask l)).
Proof.
  unfold select. destruct (Nat.eqb_spec (length mask) (length l)); [| discriminate].
  intros H. injection H as <-. now split.
Qed.

Lemma select_same_length {A : Type} (mask : list bool) (l : list A) :
  length mask = length l ->
  select mask l = Ok (map snd (filter fst (combine mask l))).
Proof. intros H. unfold select. now rewrite H, Nat.eqb_refl. Qed.

Lemma masked_pairs {A B : Type} (f : B -> bool) (rs : list B) (l : list A) :
  map snd (filter fst (combine (map f rs) l))
  = map fst (filter (fun p => f (snd p)) (combine l rs)).
Proof.
  revert l. induction rs as [| r rs IH]; intros [| a l]; simpl; try reflexivity.
  destruct (f r); simpl; now rewrite IH.
Qed.

Lemma masked_self {B : Type} (f : B -> bool) (rs : list B) :
  map snd (filter fst (combine (map f rs) rs)) = filter f rs.
Proof.
  induction rs as [| r rs IH]; simpl; [reflexivity|].
  destruct (f r); simpl; now rewrite IH.
Qed.

Lemma masked_length {A B : Type} (f : B -> bool) (rs : list B) (l : list A) :
  length rs = length l ->
  length (map snd (filter fst (combine (map f rs) l))) = length (filter f rs).
Proof.
  revert l. induction rs as [| r rs IH]; intros [| a l] H; simpl in *;
    try reflexivity; try discriminate.
  destruct (f r); simpl; rewrite IH by lia; reflexivity.
Qed.

Lemma masked_combine {A B : Type} (m : list bool) (a : list A) (b : list B) :
  length a = length b ->
  combine (map snd (filter fst (combine m a))) (map snd (filter fst (combine m b)))
  = map snd (filter fst (combine m (combine a b))).
Proof.
  revert a b. induction m as [| x m IH]; intros [| a0 a] [| b0 b] L; simpl in *;
    try reflexivity; try discriminate.
  destruct x; simpl; rewrite IH by lia; reflexivity.
Qed.

Lemma masked_In {A : Type} (m : list bool) (l : list A) (x : A) :
  In x (map snd (filter fst (combine m l))) -> In x l.
Proof.
  intros H. apply in_map_iff in H. destruct H as [[t y] [<- H]].
  apply filter_In in H. destruct H as [H _]. eapply in_combine_r, H.
Qed.

Lemma mask_keeps {A : Type} (mask : list bool) (l : list A) (q : nat) :
  length mask = length l ->
  nth_error mask q = Some true ->
  map snd (filter fst (combine mask l)) <> [].
Proof.
  revert l q. induction mask as [| m mask IH]; intros [| a l] q L H;
    try (destruct q; discriminate).
  simpl. destruct m; [discriminate|]. destruct q as [| q]; [discriminate|].
  simpl in *. apply (IH l q); [lia | exact H].
Qed.

Lemma filtered_pairs {A B : Type} (f : B -> bool) (l : list A) (rs : list B) :
  combine (map fst (filter (fun p => f (snd p)) (combine l rs))) (filter f rs)
  = filter (fun p => f (snd p)) (combine l rs).
Proof.
  revert rs. induction l as [| a l IH]; intros [| r rs]; simpl; try reflexivity.
  destruct (f r); simpl; now rewrite IH.
Qed.

Lemma all_known_map (l : list (option Q)) (l' : list Q) :
  all_known l = Some l' -> map Some l' = l.
Proof.
  revert l'. induction l as [| [x |] l IH]; intros l' H; simpl in H.
  - now injection H as <-.
  - destruct (all_known l) as [xs |]; [| discriminate]. injection H as <-.
    simpl. now rewrite (IH xs eq_refl).
  - discriminate.
Qed.

Lemma all_known_Some (l : list (option Q)) :
  (forall x, In x l -> x <> None) -> exists l', all_known l = Some l'.
Proof.
  induction l as [| [x |] l IH]; intros H; simpl.
  - now exists [].
  - destruct IH as [xs E]; [intros y Hy; apply H; now right|].
    rewrite E. now exists (x :: xs).
  - now elim (H None (or_introl eq_refl)).
Qed.

Lemma row_values_length (ks : list dtype) (row : list (option Q)) :
  length (row_values ks row) = length row.
Proof.
  unfold row_values. destruct (forallb is_int64 ks); [reflexivity|].
  now rewrite length_map, enumerate_length.
Qed.

Lemma row_values_known (ks : list dtype) (row : list (option Q)) :
  (forall x, In x row -> x <> None) ->
  forall x, In x (row_values ks row) -> x <> None.
Proof.
  intros H x Hx. unfold row_values in Hx.
  destruct (forallb is_int64 ks); [now apply H|].
  apply in_map_iff in Hx. destruct Hx as [[j y] [<- Hy]].
  assert (Hin : In y row) by (eapply nth_error_In, enumerate_In, Hy).
  specialize (H y Hin). cbn [fst snd].
  destruct (is_int64 _); [| exact H]. destruct y; [discriminate | congruence].
Qed.

(** ** What [plot_bars] returns *)

(** What a returned [Bars] is made of: the rank row and the value row of
    the frame, the mask of the ranks in view and the longest drawn bar. *)
Lemma plot_bars_inv (c : Chart) (i : Z) (b : Bars) :
  plot_bars c i = Ok b ->
  let mask ranks := map (in_view_cell (n_bars (attrs c))) ranks in
  exists ranks values longest,
    getitem (data (df_rank c)) i = Ok ranks /\
    getitem (data (df_values c)) i = Ok values /\
    length ranks = shape1 (df (attrs c)) /\
    length values = shape1 (df (attrs c)) /\
    length (bar_colors c) = shape1 (df (attrs c)) /\
    ax c = true /\
    map Some (bar_location b) = map snd (filter fst (combine (mask ranks) ranks)) /\
    map Some (bar_length b)
    = map snd (filter fst (combine (mask ranks)
                             (row_values (kinds (df_values c)) values))) /\
    cols b = map snd (filter fst (combine (mask ranks) (columns (df (attrs c))))) /\
    colors b = map snd (filter fst (combine (mask ranks) (bar_colors c))) /\
    array_max (bar_length b) = Ok longest /\
    axis_limit b = (if String.eqb (orientation (attrs c)) "h"
                    then longest * (11 # 10) else longest * (116 # 100)) /\
    (if use_index (attrs c)
     then exists val, period_label c i = Ok val /\ period_text b = Some val
     else period_text b = None).
Proof.
  intros H mask. unfold plot_bars in H.
  destruct (getitem (data (df_rank c)) i) as [ranks |]; [| discriminate].
  cbn [bind] in H. fold (mask ranks) in H.
  destruct (select _ ranks) as [location |] eqn:E1 in H; [| discriminate].
  cbn [bind] in H.
  destruct (getitem (data (df_values c)) i) as [values |]; [| discriminate].
  cbn [bind] in H.
  destruct (select _ (row_values _ _)) as [length_ |] eqn:E2 in H; [| discriminate].
  cbn [bind] in H.
  destruct (select _ (columns _)) as [cs |] eqn:E3 in H; [| discriminate].
  cbn [bind] in H.
  destruct (select _ (bar_colors c)) as [colors |] eqn:E4 in H; [| discriminate].
  cbn [bind] in H.
  destruct (ax c); [| discriminate]. cbn [bind] in H.
  destruct (all_known location) as [location' |] eqn:K1; [| discriminate].
  destruct (all_known length_) as [length' |] eqn:K2; [| discriminate].
  destruct (array_max length') as [longest |] eqn:E5 in H; [| discriminate].
  cbn [bind] in H.
  apply select_ok in E1, E2, E3, E4.
  destruct E1 as [L1 E1], E2 as [L2 E2], E3 as [L3 ->], E4 as [L4 ->].
  apply all_known_map in K1, K2. rewrite E1 in K1. rewrite E2 in K2.
  unfold mask in L1, L2, L3, L4. rewrite length_map in L2, L3, L4.
  rewrite row_values_length in L2.
  exists ranks, values, longest.
  assert (Hb : b = mkBars location' length'
                 (map snd (filter fst (combine (mask ranks) (columns (df (attrs c))))))
                 (map snd (filter fst (combine (mask ranks) (bar_colors c))))
                 (if String.eqb (orientation (attrs c)) "h"
                  then longest * (11 # 10) else longest * (116 # 100))
                 (period_text b) /\
               (if use_index (attrs c)
                then exists val, period_label c i = Ok val /\ period_text b = Some val
                else period_text b = None)).
  { destruct (use_index (attrs c)).
    - destruct (period_label c i) as [val |]; [| discriminate]. cbn [bind] in H.
      injection H as <-. split; [reflexivity|]. now exists val.
    - injection H as <-. split; reflexivity. }
  destruct Hb as [Hb Hp]. rewrite Hb.
  cbn [bar_location bar_length cols colors axis_limit period_text].
  split; [reflexivity|]. split; [reflexivity|].
  split; [exact L3|].
  split; [transitivity (length ranks); [symmetry; exact L2 | exact L3]|].
  split; [transitivity (length ranks); [symmetry; exact L4 | exact L3]|].
  split; [reflexivity|]. split; [exact K1|]. split; [exact K2|].
  split; [reflexivity|]. split; [reflexivity|]. split; [exact E5|].
  split; [reflexivity | exact Hp].
Qed.

(** ** Frames without a missing value *)

Lemma number_values (c : cell) :
  is_number c = true -> exact c <> None /\ as_float c <> None.
Proof. destruct c; simpl; try discriminate; intros _; split; discriminate. Qed.

Lemma no_missing_full (t : DataFrame) :
  rectangular t -> no_missing t = true ->
  full_rows (shape1 t) (stored_values t) /\
  full_rows (shape1 t) (float_values t) /\
  full_rows (shape1 t) (rank_values t).
Proof.
  intros [_ Hw] Hn. unfold no_missing in Hn. rewrite forallb_forall in Hn.
  rewrite Forall_forall in Hw.
  assert (S : full_rows (shape1 t) (stored_values t)).
  { apply Forall_forall. intros row Hr. unfold stored_values in Hr.
    apply in_map_iff in Hr. destruct Hr as [r [<- Hr]]. split.
    - rewrite length_map. now apply Hw.
    - intros x Hx. apply in_map_iff in Hx. destruct Hx as [c [<- Hc]].
      specialize (Hn r Hr). rewrite forallb_forall in Hn.
      apply (number_values c (Hn c Hc)). }
  assert (F : full_rows (shape1 t) (float_values t)).
  { apply Forall_forall. intros row Hr. unfold float_values in Hr.
    apply in_map_iff in Hr. destruct Hr as [r [<- Hr]]. split.
    - rewrite length_map. now apply Hw.
    - intros x Hx. apply in_map_iff in Hx. destruct Hx as [c [<- Hc]].
      specialize (Hn r Hr). rewrite forallb_forall in Hn.
      apply (number_values c (Hn c Hc)). }
  split; [exact S|]. split; [exact F|].
  unfold rank_values. now destruct (forallb is_int64 (dtypes t)).
Qed.

Lemma full_cell (row : list (option Q)) (j : nat) :
  (forall x, In x row -> x <> None) -> (j < length row)%nat ->
  exists a, nth_error row j = Some (Some a).
Proof.
  intros H Hj. destruct (nth_error row j) as [[a |] |] eqn:E.
  - now exists a.
  - now elim (H None (nth_error_In _ _ E)).
  - apply nth_error_None in E. lia.
Qed.

Lemma final_rank_full (self : BarChart) (ncols : nat) (vals : list (list (option Q))) :
  full_rows ncols vals -> full_rows ncols (map (final_rank self) vals).
Proof.
  unfold full_rows. rewrite !Forall_forall. intros H row Hr.
  apply in_map_iff in Hr. destruct Hr as [row0 [<- Hr0]].
  destruct (H row0 Hr0) as [L K]. split; [now rewrite final_rank_length|].
  intros x Hx. apply In_nth_error in Hx. destruct Hx as [j Hj].
  assert (Lj : (j < length row0)%nat).
  { rewrite <- (final_rank_length self). apply nth_error_Some. congruence. }
  destruct (full_cell row0 j K Lj) as [a Ha].
  rewrite (final_rank_nth_error self row0 j a Ha) in Hj. now injection Hj as <-.
Qed.

(** A frame built from full rows with a positive step has full rows. *)
Lemma built_full (ncols : nat) (ks : list dtype) (vals : list (list (option Q)))
    (s : Z) (p : nat) :
  vals <> [] -> (0 < s)%Z -> full_rows ncols vals ->
  let m := ((Z.of_nat (length vals) - 1) * s)%Z in
  (p < Z.to_nat (m + 1))%nat ->
  exists row,
    nth_error (data (built_frame ncols ks m (scale_index s (reset_index vals)))) p
    = Some row /\
    length row = ncols /\
    forall x, In x row -> x <> None.
Proof.
  intros Hne Hs Hfull m Hp.
  destruct (built_row ncols ks m (scale_index s (reset_index vals)) p Hp)
    as [row [E [L C]]].
  exists row. split; [exact E|]. split; [exact L|].
  intros x Hx. apply In_nth_error in Hx. destruct Hx as [j Hj].
  assert (Lj : (j < ncols)%nat) by (rewrite <- L; apply nth_error_Some; congruence).
  rewrite (C j Lj) in Hj.
  destruct (scaled_positive s vals Hs Hne) as [Hnd Hm]. fold m in Hm.
  destruct (scaled_first s vals m Hnd Hm) as [row0 [H0 R0]].
  unfold full_rows in Hfull. rewrite Forall_forall in Hfull.
  destruct (Hfull row0 (nth_error_In _ _ H0)) as [L0 K0].
  destruct (full_cell row0 j K0 ltac:(lia)) as [a Ha].
  specialize (R0 j). rewrite (nth_nth_error _ _ None _ Ha) in R0.
  destruct (interpolate_column_below _ 0 p a R0) as [v Hv].
  - rewrite reindexed_length, range_length. lia.
  - rewrite Hv in Hj. now injection Hj as <-.
Qed.

(** The place [p] of a frame built with a positive step: the place of a
    row of the table, or a place on the line between two rows that follow
    each other. *)
Lemma built_positive_at (vals : list (list (option Q))) (s : Z) (j p : nat) :
  vals <> [] ->
  (0 < s)%Z ->
  (forall row, In row vals -> exists a, nth j row None = Some a) ->
  let g := Z.to_nat s in
  let f := scale_index s (reset_index vals) in
  let m := ((Z.of_nat (length vals) - 1) * s)%Z in
  let c := interpolate_column (reindexed_column (range (m + 1)) f j) in
  (p < (length vals - 1) * g + 1)%nat ->
  (p mod g = 0%nat /\
   exists row a, nth_error vals (p / g) = Some row /\ nth j row None = Some a /\
     nth_error c p = Some (Some a))
  \/
  ((0 < p mod g)%nat /\
   exists x y a b, nth_error vals (p / g) = Some x /\ nth_error vals (S (p / g)) = Some y /\
     nth j x None = Some a /\ nth j y None = Some b /\
     nth_error c p = Some (Some (lerp a b (p mod g) g))).
Proof.
  intros Hne Hs Hcol g f m c Hp.
  destruct (built_positive vals s j Hne Hs) as [_ [K I]].
  fold g f m c in K, I.
  assert (Hg : (0 < g)%nat) by (unfold g; lia).
  clearbody g c. clear f m.
  assert (Hr : (0 < length vals)%nat) by (destruct vals; [congruence | simpl; lia]).
  pose proof (Nat.div_mod_eq p g) as E.
  pose proof (Nat.mod_upper_bound p g ltac:(lia)) as U.
  destruct (Nat.eq_dec (p mod g) 0) as [Z0 | NZ].
  - left. split; [exact Z0|].
    assert (Hk : (p / g < length vals)%nat) by nia.
    destruct (nth_error vals (p / g)) as [row |] eqn:R;
      [| apply nth_error_None in R; lia].
    destruct (Hcol row (nth_error_In _ _ R)) as [a Ha].
    exists row, a. split; [reflexivity|]. split; [exact Ha|].
    assert (Ep : p = (p / g * g)%nat) by (rewrite Nat.mul_comm; lia).
    rewrite Ep at 1. now apply (K (p / g)%nat row).
  - right. split; [lia|].
    assert (Hk : (S (p / g) < length vals)%nat) by nia.
    destruct (nth_error vals (p / g)) as [x |] eqn:X;
      [| apply nth_error_None in X; lia].
    destruct (nth_error vals (S (p / g))) as [y |] eqn:Y;
      [| apply nth_error_None in Y; lia].
    destruct (Hcol x (nth_error_In _ _ X)) as [a Ha].
    destruct (Hcol y (nth_error_In _ _ Y)) as [b Hb].
    exists x, y, a, b. repeat split; auto.
    assert (Ep : p = (p / g * g + p mod g)%nat) by (rewrite (Nat.mul_comm (p / g)); lia).
    rewrite Ep at 1. apply (I (p / g)%nat (p mod g) x y); auto. lia.
Qed.

(** *** Every frame has a bar *)

(** A row with a number has a column of naive rank 1. *)
Lemma first_column (row : list (option Q)) (j : nat) (v : Q) :
  nth_error row j = Some (Some v) ->
  exists q w, nth_error row q = Some (Some w) /\ position_of q (sorted_desc row) = 0%nat.
Proof.
  intros H. unfold sorted_desc.
  pose proof (sort_desc_perm (with_places 0 row)) as P.
  destruct (sort_desc (with_places 0 row)) as [| [q w] t] eqn:E.
  - apply Permutation_sym, Permutation_nil in P.
    pose proof (with_places_In 0 row j v H) as I. rewrite P in I. contradiction.
  - exists q, w. split.
    + assert (I : In (q, w) (with_places 0 row)).
      { apply (Permutation_in _ (Permutation_sym P)). now left. }
      apply with_places_nth_error in I. destruct I as [_ I].
      cbn [fst snd] in I. now rewrite Nat.sub_0_r in I.
    + simpl. now rewrite Nat.eqb_refl.
Qed.

Lemma first_column_rank (self : BarChart) (row : list (option Q)) (j : nat) (v : Q) :
  (1 <= n_bars self)%Z ->
  nth_error row j = Some (Some v) ->
  exists q a, nth_error (final_rank self row) q = Some (Some a) /\
    if inverts (sort self) (orientation self)
    then a == inject_Z (n_bars self) else a == 1.
Proof.
  intros Hn Hj. destruct (first_column row j v Hj) as [q [w [Hq Hp]]].
  exists q. eexists. split; [apply (final_rank_nth_error self row q w Hq)|].
  unfold naive_rank. rewrite Hp.
  assert (M : Qmin (inject_Z (Z.of_nat 1)) (inject_Z (n_bars self + 1)) == 1).
  { rewrite Q.min_l; [reflexivity|]. rewrite <- Zle_Qle. lia. }
  destruct (inverts (sort self) (orientation self)); rewrite M;
    [rewrite inject_Z_plus; change (inject_Z 1) with 1; ring | reflexivity].
Qed.

Lemma first_in_view (n : Z) (inv : bool) (a : Q) :
  (1 <= n)%Z ->
  (if inv then a == inject_Z n else a == 1) ->
  in_view n a = true.
Proof.
  intros Hn Ha. apply in_view_spec. rewrite inject_Z_plus. change (inject_Z 1) with 1.
  assert (1 <= inject_Z n) by (change 1 with (inject_Z 1); rewrite <- Zle_Qle; lia).
  destruct inv; lra.
Qed.

Lemma lerp_in_view (n : Z) (inv : bool) (a b : Q) (j g : nat) :
  (1 <= n)%Z -> (j < g)%nat ->
  (if inv then a == inject_Z n else a == 1) ->
  (if inv then 0 <= b <= inject_Z n else 1 <= b <= inject_Z (n + 1)) ->
  in_view n (lerp a b j g) = true.
Proof.
  intros Hn Hj Ha Hb. apply in_view_spec. unfold lerp.
  set (t := inject_Z (Z.of_nat j) / inject_Z (Z.of_nat g)).
  assert (Hg' : 0 < inject_Z (Z.of_nat g)).
  { change 0 with (inject_Z 0). rewrite <- Zlt_Qlt. lia. }
  assert (Ht0 : 0 <= t).
  { unfold t. apply Qle_shift_div_l; [exact Hg'|]. rewrite Qmult_0_l.
    change 0 with (inject_Z 0). rewrite <- Zle_Qle. lia. }
  assert (Ht1 : t < 1).
  { unfold t. apply Qlt_shift_div_r; [exact Hg'|]. rewrite Qmult_1_l.
    rewrite <- Zlt_Qlt. lia. }
  assert (HN : 1 <= inject_Z n) by (change 1 with (inject_Z 1); rewrite <- Zle_Qle; lia).
  rewrite inject_Z_plus in *. change (inject_Z 1) with 1 in *.
  destruct inv; nra.
Qed.

Lemma nth_known (row : list (option Q)) (j : nat) (a : Q) :
  nth j row None = Some a -> nth_error row j = Some (Some a).
Proof.
  intros H. destruct (Nat.lt_ge_cases j (length row)) as [L | L].
  - rewrite <- H. now apply nth_error_nth'.
  - rewrite nth_overflow in H by exact L. discriminate.
Qed.

(** At each frame of a chart built from a table of numbers, none missing,
    whose rows are as wide as its header, with at least one column, a
    positive step and [n_bars >= 1], both frames hold a full row, and some
    rank in it is in view. *)
Lemma frame_rows_at (self : BarChart) (vf rf : Frame) (p : nat) :
  prepare_data self = Ok (vf, rf) ->
  (0 < steps_per_period self)%Z ->
  rectangular (df self) ->
  no_missing (df self) = true ->
  (1 <= shape1 (df self))%nat ->
  (1 <= n_bars self)%Z ->
  (p < length (data vf))%nat ->
  exists R V q a,
    nth_error (data rf) p = Some R /\
    nth_error (data vf) p = Some V /\
    length R = shape1 (df self) /\
    length V = shape1 (df self) /\
    (forall x, In x R -> x <> None) /\
    (forall x, In x V -> x <> None) /\
    nth_error R q = Some (Some a) /\
    in_view (n_bars self) a = true.
Proof.
  intros H Hs Hrect Hfull Hc Hn Hp.
  destruct (prepare_data_lengths self vf rf H) as [Hne [_ [_ [_ Len]]]].
  specialize (Len Hs). rewrite Len in Hp.
  destruct (prepare_data_inv self vf rf H) as [m [V [ks [_ [_ [Hm [Hnd [HV [-> ->]]]]]]]]].
  destruct (scaled_positive _ _ Hs (rows_nonempty _ Hne)) as [_ Hm'].
  rewrite Hm in Hm'. injection Hm' as ->. rewrite stored_values_length.
  destruct (no_missing_full _ Hrect Hfull) as [FS [FF FR]].
  set (s := steps_per_period self) in *. set (t := df self) in *.
  set (r := length (rows t)) in *.
  assert (Hr : (0 < r)%nat) by (unfold r; destruct (rows t); [congruence | simpl; lia]).
  assert (FV : full_rows (shape1 t) V /\ length V = r).
  { destruct HV as [[-> _] | [-> _]]; split; auto;
      [apply float_values_length | apply stored_values_length]. }
  destruct FV as [FV LV].
  assert (NV : V <> []) by (intros E; rewrite E in LV; simpl in LV; lia).
  set (Y := map (final_rank self) (rank_values t)).
  assert (LY : length Y = r) by (unfold Y; now rewrite length_map, rank_values_length).
  assert (NY : Y <> []) by (intros E; rewrite E in LY; simpl in LY; lia).
  assert (FY : full_rows (shape1 t) Y) by now apply final_rank_full.
  assert (Hp' : (p < Z.to_nat ((Z.of_nat r - 1) * s + 1))%nat) by nia.
  destruct (built_full (shape1 t) ks V s p NV Hs FV) as [Vr [EV [LVr KV]]];
    [rewrite LV; exact Hp'|].
  destruct (built_full (shape1 t) (repeat Float64 (shape1 t)) Y s p NY Hs FY)
    as [Rr [ER [LRr KR]]]; [rewrite LY; exact Hp'|].
  rewrite LV in EV. rewrite LY in ER.
  assert (Hg : (0 < Z.to_nat s)%nat) by lia.
  pose proof (Nat.div_mod_eq p (Z.to_nat s)) as Ediv.
  pose proof (Nat.mod_upper_bound p (Z.to_nat s) ltac:(lia)) as U.
  assert (Hk : (p / Z.to_nat s < r)%nat) by nia.
  destruct (nth_error (rank_values t) (p / Z.to_nat s)) as [row |] eqn:Hrow;
    [| apply nth_error_None in Hrow; rewrite rank_values_length in Hrow; fold r in Hrow; lia].
  unfold full_rows in FR. rewrite Forall_forall in FR.
  destruct (FR row (nth_error_In _ _ Hrow)) as [Lrow Krow].
  destruct (full_cell row 0 Krow ltac:(lia)) as [v0 Hv0].
  destruct (first_column_rank self row 0 v0 Hn Hv0) as [q [a [Hq Ha]]].
  assert (Lq : (q < shape1 t)%nat).
  { rewrite <- Lrow, <- (final_rank_length self). apply nth_error_Some. congruence. }
  assert (Hcol : forall row', In row' Y -> exists x, nth q row' None = Some x).
  { intros row' Hr'. unfold full_rows in FY. rewrite Forall_forall in FY.
    destruct (FY row' Hr') as [L' K'].
    destruct (full_cell row' q K' ltac:(lia)) as [x Hx]. exists x.
    now apply nth_nth_error. }
  assert (Hp2 : (p < (length Y - 1) * Z.to_nat s + 1)%nat) by (rewrite LY; exact Hp).
  set (inv := inverts (sort self) (orientation self)) in *.
  destruct (built_row_inv _ _ _ _ _ _ ER) as [_ [_ CR]]. pose proof (CR q Lq) as HRq.
  assert (Hyk : nth_error Y (p / Z.to_nat s) = Some (final_rank self row)).
  { unfold Y. now rewrite nth_error_map, Hrow. }
  destruct (built_positive_at Y s q p NY Hs Hcol Hp2)
    as [[Z0 [row' [a' [Hk' [Ha' HC]]]]] | [NZ [x [y [a' [b' [Hx [Hy [Ha' [Hb' HC]]]]]]]]]];
    rewrite LY in HC; rewrite HC in HRq.
  - rewrite Hyk in Hk'. injection Hk' as <-.
    apply nth_known in Ha'. rewrite Hq in Ha'. injection Ha' as <-.
    exists Rr, Vr, q, a. repeat split; auto.
    apply (first_in_view _ inv); assumption.
  - rewrite Hyk in Hx. injection Hx as <-.
    apply nth_known in Ha'. rewrite Hq in Ha'. injection Ha' as <-.
    exists Rr, Vr, q, (lerp a b' (p mod Z.to_nat s) (Z.to_nat s)).
    repeat split; auto.
    apply (lerp_in_view _ inv); auto.
    unfold Y in Hy. rewrite nth_error_map in Hy.
    destruct (nth_error (rank_values t) (S (p / Z.to_nat s))) as [row1 |];
      [| discriminate]. cbn [option_map] in Hy. injection Hy as <-.
    apply nth_known in Hb'.
    apply (final_rank_bounds self row1 b' ltac:(lia)). eapply nth_error_In, Hb'.
Qed.

Lemma list_times_length {A : Type} (l : list A) (k : nat) :
  length (list_times l k) = (k * length l)%nat.
Proof.
  unfold list_times. induction k as [| k IH]; simpl; [reflexivity|].
  now rewrite length_app, IH.
Qed.

Lemma list_times_nth_error {A : Type} (l : list A) (k j : nat) :
  (j < k * length l)%nat ->
  nth_error (list_times l k) j = nth_error l (j mod length l).
Proof.
  unfold list_times. revert j. induction k as [| k IH]; intros j H; simpl in *; [lia|].
  destruct (Nat.lt_ge_cases j (length l)) as [L | L].
  - rewrite nth_error_app1 by exact L. now rewrite Nat.mod_small.
  - rewrite nth_error_app2 by exact L. rewrite IH by lia.
    f_equal. assert (length l <> 0)%nat by lia.
    replace j with ((j - length l) + 1 * length l)%nat at 2 by lia.
    now rewrite Nat.Div0.mod_add.
Qed.

Lemma cycle_colors_cyclic {A : Type} (ncols : nat) (l : list A) :
  l <> [] ->
  exists out,
    cycle_colors ncols l = Ok out /\
    length out = ncols /\
    forall j, (j < ncols)%nat -> nth_error out j = nth_error l (j mod length l).
Proof.
  intros Hne. unfold cycle_colors.
  assert (Hl : (0 < length l)%nat) by (destruct l; [congruence | simpl; lia]).
  destruct (Nat.ltb_spec (length l) ncols) as [L | L].
  - destruct (Nat.eqb_spec (length l) 0); [lia|].
    eexists. split; [reflexivity|].
    assert (B : (ncols < (ncols / length l + 1) * length l)%nat).
    { pose proof (Nat.div_mod_eq ncols (length l)).
      pose proof (Nat.mod_upper_bound ncols (length l) ltac:(lia)). nia. }
    split.
    + rewrite length_firstn, list_times_length. lia.
    + intros j Hj. rewrite nth_error_firstn.
      destruct (Nat.ltb_spec j ncols); [| lia].
      apply list_times_nth_error. lia.
  - eexists. split; [reflexivity|]. split.
    + rewrite length_firstn. lia.
    + intros j Hj. rewrite nth_error_firstn.
      destruct (Nat.ltb_spec j ncols); [| lia].
      now rewrite Nat.mod_small by lia.
Qed.

Lemma cycle_colors_length {A : Type} (ncols : nat) (l out : list A) :
  cycle_colors ncols l = Ok out -> length out = ncols.
Proof.
  destruct l as [| a l].
  - unfold cycle_colors. simpl. destruct ncols; simpl; intros H;
      [now injection H as <- | discriminate].
  - intros H. destruct (cycle_colors_cyclic ncols (a :: l) ltac:(discriminate))
      as [out' [E [L _]]]. rewrite H in E. now injection E as ->.
Qed.

(** [plot_bars] returns at every frame of such a chart, when construction
    has made its axes. *)
Lemma plot_bars_returns (get_cmap : string -> result (list color))
    (self : BarChart) (c : Chart) (i : Z) :
  __attrs_post_init__ get_cmap self = Ok c ->
  fig self = FigNone ->
  (0 < steps_per_period self)%Z ->
  rectangular (df self) ->
  no_missing (df self) = true ->
  (1 <= shape1 (df self))%nat ->
  (n_bars self = 0 \/ 1 <= n_bars self)%Z ->
  In i (get_frames c) ->
  exists b, plot_bars c i = Ok b.
Proof.
  intros H Hfig Hs Hw Hfull Hc Hn Hi.
  destruct (post_init_inv get_cmap self c H) as [Ha [Hp [Ho [_ [Hax Hcol]]]]].
  rewrite Hfig in Hax.
  set (self' := set_n_bars self
         (if Z.eqb (n_bars self) 0 then Z.of_nat (shape1 (df self)) else n_bars self)) in *.
  assert (Hn' : (1 <= n_bars self')%Z).
  { cbn. destruct (Z.eqb_spec (n_bars self) 0); lia. }
  unfold get_frames in Hi. apply range_In in Hi.
  assert (Hlt : (Z.to_nat i < length (data (df_values c)))%nat) by lia.
  destruct (frame_rows_at self' _ _ (Z.to_nat i) Hp Hs Hw Hfull Hc Hn' Hlt)
    as [R [V [q [a [HR [HV [LR [LV [KR [KV [Hq Hv]]]]]]]]]]].
  change (shape1 (df self')) with (shape1 (df self)) in LR, LV.
  destruct (prepare_data_lengths self' _ _ Hp) as [Hne [_ [Lr [_ Ld]]]].
  specialize (Ld Hs).
  change (df self') with (df self) in Hne, Ld.
  change (steps_per_period self') with (steps_per_period self) in Ld.
  destruct (getitem_in_range (data (df_rank c)) i ltac:(lia)) as [rr [Gr Nr]].
  destruct (getitem_in_range (data (df_values c)) i ltac:(lia)) as [vr [Gv Nv]].
  rewrite HR in Nr. injection Nr as <-. rewrite HV in Nv. injection Nv as <-.
  unfold get_colors in Hcol.
  destruct (base_get_colors get_cmap (cmap self)) as [bc |]; [| discriminate].
  cbn [bind] in Hcol. apply cycle_colors_length in Hcol.
  change (shape1 (df self')) with (shape1 (df self)) in Hcol.
  unfold plot_bars. rewrite Gr, Gv, Ha. cbn [bind].
  change (df self') with (df self). change (steps_per_period self') with (steps_per_period self).
  change (use_index self') with (use_index self).
  change (orientation self') with (orientation self).
  set (mask := map (in_view_cell (n_bars self')) R).
  set (W := row_values (kinds (df_values c)) V).
  assert (LW : length W = shape1 (df self)) by (unfold W; now rewrite row_values_length).
  assert (Lm : length mask = shape1 (df self)) by (unfold mask; now rewrite length_map).
  rewrite (select_same_length mask R) by lia. cbn [bind].
  rewrite (select_same_length mask W) by lia. cbn [bind].
  rewrite (select_same_length mask (columns (df self))) by exact Lm. cbn [bind].
  rewrite (select_same_length mask (bar_colors c)) by lia. cbn [bind].
  rewrite Hax. cbn [bind].
  assert (Hmask : nth_error mask q = Some true).
  { unfold mask. rewrite nth_error_map, Hq. cbn [option_map in_view_cell]. now rewrite Hv. }
  pose proof (mask_keeps mask W q ltac:(lia) Hmask) as Nonempty.
  destruct (all_known_Some (map snd (filter fst (combine mask R)))) as [loc Eloc].
  { intros x Hx. apply KR. eapply masked_In, Hx. }
  destruct (all_known_Some (map snd (filter fst (combine mask W)))) as [len Elen].
  { intros x Hx. apply (row_values_known (kinds (df_values c)) V KV). eapply masked_In, Hx. }
  rewrite Eloc, Elen.
  assert (Nlen : len <> []).
  { intros E. apply all_known_map in Elen. rewrite E in Elen. simpl in Elen. congruence. }
  destruct len as [| l0 lengths]; [congruence|].
  cbn [array_max bind].
  destruct (use_index self); [| eexists; reflexivity].
  assert (Hd : (0 <= i / steps_per_period self < Z.of_nat (length (orig_index c)))%Z).
  { rewrite Ho. unfold index. rewrite length_map.
    assert (0 < length (rows (df self)))%nat
      by (destruct (rows (df self)); [congruence | simpl; lia]).
    split; [apply Z.div_pos; lia|]. apply Z.div_lt_upper_bound; [exact Hs | nia]. }
  destruct (getitem_in_range (orig_index c) _ Hd) as [val [Gl _]].
  unfold period_label, floordiv. rewrite Ha.
  change (steps_per_period self') with (steps_per_period self).
  destruct (Z.eqb_spec (steps_per_period self) 0); [lia|]. cbn [bind].
  rewrite Gl. cbn [bind]. eexists; reflexivity.
Qed.

(** ** The bars of a frame *)

(** C5: at every frame [i] of a chart the bars [plot_bars] draws, as pairs
    of a column and its place, are the pairs of a column of the table and
    its rank in row [i] of the rank frame for which the rank is a number
    strictly between 0 and [n_bars + 1]; the other columns are left out of
    the frame.  And [plot_bars] does return at every frame of a chart that
    construction built, with its axes, from a table of numbers, none
    missing, with a column or more, as wide as its header, with a positive
    step and [n_bars >= 1] (given or by default). *)
Theorem plot_bars_draws_in_view (c : Chart) (i : Z) :
  let n := n_bars (attrs c) in
  let table_cols := columns (df (attrs c)) in
  (forall b, plot_bars c i = Ok b -> (0 <= i)%Z ->
     exists ranks,
       nth_error (data (df_rank c)) (Z.to_nat i) = Some ranks /\
       length ranks = length table_cols /\
       cols b
       = map fst (filter (fun cr => in_view_cell n (snd cr)) (combine table_cols ranks)) /\
       map Some (bar_location b) = filter (in_view_cell n) ranks /\
       combine (cols b) (map Some (bar_location b))
       = filter (fun cr => in_view_cell n (snd cr)) (combine table_cols ranks) /\
       forall x, in_view_cell n x = true <->
                 exists r, x = Some r /\ 0 < r /\ r < inject_Z (n + 1)) /\
  (forall get_cmap self,
     __attrs_post_init__ get_cmap self = Ok c ->
     fig self = FigNone ->
     (0 < steps_per_period self)%Z ->
     rectangular (df self) ->
     no_missing (df self) = true ->
     (1 <= shape1 (df self))%nat ->
     (n_bars self = 0 \/ 1 <= n_bars self)%Z ->
     In i (get_frames c) ->
     exists b, plot_bars c i = Ok b).
Proof.
  intros n table_cols. split; [| intros get_cmap self; apply plot_bars_returns].
  intros b H Hi.
  destruct (plot_bars_inv c i b H)
    as [ranks [values [longest [G [_ [L [_ [_ [_ [B1 [_ [B3 _]]]]]]]]]]]].
  exists ranks. split; [now apply getitem_nonneg|]. split; [exact L|].
  fold n table_cols in B1, B3. rewrite B1, B3.
  rewrite masked_pairs, masked_self, filtered_pairs.
  repeat split; try reflexivity; apply in_view_cell_spec.
Qed.

Lemma plot_bars_draws_in_view_witness :
  exists c b,
    __attrs_post_init__ no_cmap (set_n_bars (race_chart 2 2 "desc" "h") 1) = Ok c /\
    plot_bars c 2 = Ok b /\
    combine (cols b) (map Some (bar_location b)) = [("up"%string, Some 1)].
Proof.
  destruct (__attrs_post_init__ no_cmap (set_n_bars (race_chart 2 2 "desc" "h") 1)) as [c | e] eqn:E;
    [| discriminate E].
  exists c.
  destruct (plot_bars_draws_in_view c 2) as [Sel Ret].
  destruct (Ret no_cmap (set_n_bars (race_chart 2 2 "desc" "h") 1) E eq_refl) as [b P].
  - reflexivity.
  - split; [reflexivity | repeat constructor].
  - reflexivity.
  - cbn. lia.
  - right. cbn. lia.
  - injection E as E. subst c. right. right. now left.
  - exists b. split; [reflexivity|]. split; [exact P|].
    destruct (Sel b P) as [ranks [G [_ [_ [_ [C _]]]]]]; [discriminate|].
    rewrite C. injection E as E. subst c. injection G as <-. reflexivity.
Defined.

(** ** The period label *)

(** C10: on a chart built from a table of [r] rows (of which there is at
    least one) with a step [s > 0], the frames are 0, ..., [(r-1)*s], and at
    each of them [i // s] lies below [r]: the label of the period is read
    inside the index. *)
Theorem period_label_in_bounds (get_cmap : string -> result (list color))
    (self : BarChart) (c : Chart) (i : Z) :
  __attrs_post_init__ get_cmap self = Ok c ->
  (0 < steps_per_period self)%Z ->
  In i (get_frames c) ->
  let s := steps_per_period self in
  let r := Z.of_nat (length (rows (df self))) in
  (1 <= r)%Z /\
  get_frames c = range ((r - 1) * s + 1) /\
  (0 <= i / s < r)%Z /\
  exists val,
    period_label c i = Ok val /\
    nth_error (index (df self)) (Z.to_nat (i / s)) = Some val.
Proof.
  intros H Hs Hi s r.
  destruct (post_init_inv get_cmap self c H) as [Ha [Hp [Ho _]]].
  destruct (prepare_data_lengths _ _ _ Hp) as [Hne [_ [_ [_ Ld]]]].
  specialize (Ld Hs). cbn in Hne, Ld.
  assert (Hr : (1 <= r)%Z).
  { unfold r. destruct (rows (df self)); [congruence | simpl length; lia]. }
  assert (Hf : get_frames c = range ((r - 1) * s + 1)).
  { unfold get_frames. f_equal. rewrite Ld. unfold r, s in *. nia. }
  rewrite Hf in Hi. apply range_In in Hi.
  assert (Hd : (0 <= i / s < r)%Z).
  { split; [apply Z.div_pos; lia|]. apply Z.div_lt_upper_bound; [exact Hs | nia]. }
  repeat split; try lia; try assumption.
  unfold period_label, floordiv. rewrite Ha. cbn.
  fold s. destruct (Z.eqb_spec s 0); [lia|]. cbn [bind]. rewrite Ho.
  apply getitem_in_range. unfold index. rewrite length_map. exact Hd.
Qed.

Lemma period_label_in_bounds_witness :
  let self :=
    mkBarChart
      (mkDataFrame ["a"; "b"; "c"]%string [Float64; Float64; Float64]
         [("2020"%string, [Num 1; Num 5; Num 3]); ("2021"%string, [Num 4; Num 4; Num 0])])
      true 2 500 FigNone "h" "desc" 0 true (CmapName "dark24") in
  exists c,
    __attrs_post_init__ (fun _ => Raise (ValueError "cmap")) self = Ok c /\
    period_label c 2 = Ok "2021"%string.
Proof.
  intros self.
  destruct (__attrs_post_init__ (fun _ => Raise (ValueError "cmap")) self) as [c | e] eqn:E;
    [| discriminate E].
  exists c. split; [reflexivity|].
  assert (Hs : (0 < steps_per_period self)%Z) by reflexivity.
  assert (Hi : In 2%Z (get_frames c)).
  { injection E as <-. right. right. now left. }
  destruct (period_label_in_bounds _ self c 2 E Hs Hi) as [_ [_ [_ [val [P N]]]]].
  rewrite P. f_equal. injection N as <-. reflexivity.
Defined.

(** ** Colours *)

(** C9: a list of [c >= 1] colours given for a table of [m] columns becomes
    the colour table of length [m] in which column [j] has colour
    [j mod c]; three colours and five columns give [c0, c1, c2, c0, c1]. *)
Theorem get_colors_cyclic (get_cmap : string -> result (list color))
    (self : BarChart) (l : list color) :
  l <> [] ->
  let m := shape1 (df self) in
  exists out,
    get_colors get_cmap self (CmapList l) = Ok out /\
    length out = m /\
    (forall j, (j < m)%nat -> nth_error out j = nth_error l (j mod length l)) /\
    (forall c0 c1 c2, l = [c0; c1; c2] -> m = 5%nat -> out = [c0; c1; c2; c0; c1]).
Proof.
  intros Hne m. unfold get_colors. cbn [base_get_colors bind]. fold m.
  destruct (cycle_colors_cyclic m l Hne) as [out [E [L N]]].
  exists out. repeat split; auto.
  intros c0 c1 c2 -> Hm. rewrite Hm in E. cbv in E. now injection E as <-.
Qed.

Lemma get_colors_cyclic_witness :
  let self :=
    mkBarChart
      (mkDataFrame ["a"; "b"; "c"; "d"; "e"]%string
         [Float64; Float64; Float64; Float64; Float64]
         [("2020"%string, [Num 1; Num 5; Num 3; Num 2; Num 4])])
      true 2 500 FigNone "h" "desc" 0 true
      (CmapList [Named "red"; Named "green"; Named "blue"]) in
  get_colors (fun _ => Raise (ValueError "cmap")) self (cmap self)
  = Ok [Named "red"; Named "green"; Named "blue"; Named "red"; Named "green"].
Proof.
  intros self.
  destruct (get_colors_cyclic (fun _ => Raise (ValueError "cmap")) self
              [Named "red"; Named "green"; Named "blue"]) as [out [E [_ [_ P]]]].
  - discriminate.
  - change (cmap self) with (CmapList [Named "red"; Named "green"; Named "blue"]).
    rewrite E. f_equal. now apply P.
Defined.

(** ** Column selection *)

Lemma in_columns_self (df : DataFrame) (col : string) :
  In col (columns df) -> in_columns col df = true.
Proof.
  intros H. unfold in_columns. apply existsb_exists.
  exists col. split; [exact H | apply String.eqb_refl].
Qed.




(** ** Validation *)

Lemma validate_params_ok (self : BarChart) :
  validate_params self = Ok tt <->
  fig self <> FigOther /\
  (sort self = "asc"%string \/ sort self = "desc"%string) /\
  (orientation self = "h"%string \/ orientation self = "v"%string).
Proof.
  unfold validate_params, base_validate_params.
  rewrite <- !String.eqb_eq, <- !orb_true_iff.
  destruct (fig self); cbn [bind];
    destruct (String.eqb (sort self) "asc" || String.eqb (sort self) "desc")%bool;
    destruct (String.eqb (orientation self) "h" || String.eqb (orientation self) "v")%bool;
    cbn [negb]; intuition (try discriminate; try congruence).
Qed.

(** C6: [validate_params] refuses a sort or an orientation outside its
    two values, but construction never calls it: a chart with the sort
    "sideways", and one with the orientation "diagonal", are built. *)
Theorem post_init_skips_validation :
  let bad_sort := race_chart 2 2 "sideways" "h" in
  let bad_orientation := race_chart 2 2 "desc" "diagonal" in
  validate_params bad_sort = Raise (ValueError "sort") /\
  validate_params bad_orientation = Raise (ValueError "orientation") /\
  is_ok (__attrs_post_init__ no_cmap bad_sort) = true /\
  is_ok (__attrs_post_init__ no_cmap bad_orientation) = true.
Proof. repeat split; vm_compute; reflexivity. Qed.

(** ** Columns that are not numbers *)

(** C8: on a table with the numeric column "a" and the column "name" of
    strings, [get_data_cols] selects "a", but construction does not call
    it: the default of [n_bars] counts both columns and [prepare_data]
    ranks both, which fails on the strings. *)
Theorem post_init_keeps_every_column :
  let self :=
    mkBarChart mixed_table true 2 500 FigNone "h" "desc" 0 true (CmapName "dark24") in
  get_data_cols mixed_table = Ok ["a"%string] /\
  shape1 mixed_table = 2%nat /\
  prepare_data (set_n_bars self 2) = Raise (TypeError "rank") /\
  __attrs_post_init__ no_cmap self = Raise (TypeError "rank").
Proof. repeat split. Qed.

(** ** Frame counts *)

Lemma fold_max_seq (n start : nat) (x0 : Z) :
  (x0 < Z.of_nat start)%Z ->
  fold_left Z.max (map Z.of_nat (seq start n)) x0
  = (if (n =? 0)%nat then x0 else Z.of_nat (start + n) - 1)%Z.
Proof.
  revert start x0. induction n as [| n IH]; intros start x0 H; [reflexivity|].
  cbn [seq map fold_left Nat.eqb]. rewrite IH by lia.
  destruct n; cbn [Nat.eqb]; lia.
Qed.

(** The largest frame of a chart is one less than the number of its
    frames. *)
Lemma py_max_range (n : Z) : (1 <= n)%Z -> py_max (range n) = Ok (n - 1)%Z.
Proof.
  intros H. unfold range. destruct (Z.to_nat n) as [| k] eqn:E; [lia|].
  cbn [seq map py_max]. f_equal. rewrite fold_max_seq by (cbn; lia).
  destruct k; cbn [Nat.eqb]; lia.
Qed.

Lemma fold_min_bounds (l : list Z) (x0 : Z) :
  (fold_left Z.min l x0 <= x0)%Z /\
  (forall x, In x l -> fold_left Z.min l x0 <= x)%Z /\
  (fold_left Z.min l x0 = x0 \/ In (fold_left Z.min l x0) l).
Proof.
  revert x0. induction l as [| a l IH]; intros x0; simpl.
  - repeat split; [lia | contradiction | now left].
  - destruct (IH (Z.min x0 a)) as [B [A M]]. repeat split.
    + lia.
    + intros x [<- | Hx]; [lia | now apply A].
    + destruct M as [M | M]; [| right; now right].
      rewrite M. destruct (Z.min_spec x0 a) as [[_ ->] | [_ ->]]; auto.
Qed.

Lemma mapM_ok {A B : Type} (f : A -> result B) (g : A -> B) (l : list A) :
  (forall a, In a l -> f a = Ok (g a)) -> mapM f l = Ok (map g l).
Proof.
  induction l as [| a l IH]; intros H; simpl; [reflexivity|].
  rewrite (H a (or_introl eq_refl)). cbn [bind].
  rewrite IH by (intros a' Ha'; apply H; now right). reflexivity.
Qed.

(** The number of frames [animate_multiple_plots] asks for is one less
    than the number of frames of its shortest chart. *)
Lemma multiple_plots_frames_count (plots : list Chart) :
  plots <> [] ->
  (forall p, In p plots -> data (df_values p) <> []) ->
  exists n,
    multiple_plots_frames plots = Ok (FramesInt n) /\
    length (frame_seq (FramesInt n)) = Z.to_nat n /\
    (forall p, In p plots -> (n + 1 <= Z.of_nat (length (get_frames p)))%Z) /\
    (exists p, In p plots /\ (n + 1 = Z.of_nat (length (get_frames p)))%Z).
Proof.
  intros Hne Hdata. unfold multiple_plots_frames.
  set (last p := (Z.of_nat (length (data (df_values p))) - 1)%Z).
  assert (Hlen : forall p, length (get_frames p) = length (data (df_values p))).
  { intros p. unfold get_frames. now rewrite range_length, Nat2Z.id. }
  rewrite (mapM_ok _ last).
  - cbn [bind]. destruct plots as [| p0 plots]; [congruence|].
    cbn [map py_min]. destruct (fold_min_bounds (map last plots) (last p0)) as [B [A M]].
    eexists. split; [reflexivity|]. split; [apply range_length|]. split.
    + intros p [<- | Hp]; rewrite Hlen.
      * unfold last in *. lia.
      * specialize (A (last p) (in_map last _ _ Hp)). unfold last in *. lia.
    + destruct M as [M | M].
      * exists p0. split; [now left|]. rewrite M, Hlen. unfold last. lia.
      * apply in_map_iff in M. destruct M as [p [E Hp]].
        exists p. split; [now right|]. rewrite <- E, Hlen. unfold last. lia.
  - intros p Hp. unfold get_frames. apply py_max_range.
    specialize (Hdata p Hp). destruct (data (df_values p)); [congruence | simpl; lia].
Qed.

(** C2: of two charts of 10 and of 15 frames, [animate_multiple_plots]
    hands [FuncAnimation] the number 9, the largest frame of the shorter
    chart, and so saves 9 frames, one less than the 10 the shorter chart
    saves by itself. *)
Theorem animate_multiple_plots_frame_count :
  exists c10 c15 frames saved,
    __attrs_post_init__ no_cmap (race_chart 10 1 "desc" "h") = Ok c10 /\
    __attrs_post_init__ no_cmap (race_chart 15 1 "desc" "h") = Ok c15 /\
    length (get_frames c10) = 10%nat /\
    length (get_frames c15) = 15%nat /\
    multiple_plots_frames [c10; c15] = Ok (FramesInt 9) /\
    animate_multiple_plots [c10; c15] = Ok frames /\
    length frames = 9%nat /\
    make_animation c10 = Ok saved /\
    length saved = 10%nat.
Proof.
  destruct (__attrs_post_init__ no_cmap (race_chart 10 1 "desc" "h")) as [c10 | e] eqn:E10;
    [| vm_compute in E10; discriminate E10].
  destruct (__attrs_post_init__ no_cmap (race_chart 15 1 "desc" "h")) as [c15 | e] eqn:E15;
    [| vm_compute in E15; discriminate E15].
  vm_compute in E10. vm_compute in E15.
  injection E10 as <-. injection E15 as <-.
  do 4 eexists. repeat split; try reflexivity; vm_compute; reflexivity.
Qed.

(** * Further properties *)

(** ** The columns [get_data_cols] returns *)

Lemma positions_of_absent (col : string) (cols : list string) (i : nat) :
  ~ In col cols -> positions_of col cols i = [].
Proof.
  revert i. induction cols as [| c cols IH]; intros i H; [reflexivity|].
  simpl. destruct (String.eqb_spec c col) as [-> | N].
  - exfalso. apply H. now left.
  - apply IH. intros Hin. apply H. now right.
Qed.

Lemma positions_of_unique (col : string) (cols : list string) (i j : nat) :
  NoDup cols -> nth_error cols j = Some col ->
  positions_of col cols i = [(i + j)%nat].
Proof.
  revert i j. induction cols as [| c cols IH]; intros i j Hnd Hj.
  - destruct j; discriminate.
  - apply NoDup_cons_iff in Hnd. destruct Hnd as [Hn Hnd].
    simpl. destruct j as [| j]; simpl in Hj.
    + injection Hj as ->. rewrite String.eqb_refl, Nat.add_0_r.
      now rewrite (positions_of_absent col cols (S i) Hn).
    + destruct (String.eqb_spec c col) as [-> | N].
      * exfalso. apply Hn. eapply nth_error_In, Hj.
      * rewrite (IH (S i) j Hnd Hj). f_equal. lia.
Qed.

Lemma column_is_number_at (df : DataFrame) (col : string) (j : nat) :
  NoDup (columns df) -> nth_error (columns df) j = Some col ->
  column_is_number df col = Ok (is_number_dtype (nth j (dtypes df) ObjectDtype)).
Proof.
  intros Hnd Hj. unfold column_is_number.
  now rewrite (positions_of_unique col (columns df) 0 j Hnd Hj).
Qed.

Lemma get_data_cols_loop_filters (df : DataFrame) (k : nat) (data_cols : list string) :
  NoDup (columns df) ->
  get_data_cols_loop df (skipn k (columns df)) data_cols
  = Ok (data_cols
        ++ map snd (filter (fun p => is_number_dtype (nth (fst p) (dtypes df) ObjectDtype))
                      (combine (seq k (length (columns df) - k)) (skipn k (columns df))))).
Proof.
  intros Hnd.
  remember (length (columns df) - k)%nat as n eqn:En.
  revert k data_cols En. induction n as [| n IH]; intros k data_cols En.
  - rewrite skipn_all2 by lia. simpl. now rewrite app_nil_r.
  - destruct (nth_error (columns df) k) as [col |] eqn:Hk;
      [| apply nth_error_None in Hk; lia].
    assert (E : skipn k (columns df) = col :: skipn (S k) (columns df)).
    { clear - Hk. revert k Hk. induction (columns df) as [| c l IHl]; intros k Hk.
      - destruct k; discriminate.
      - destruct k as [| k]; simpl in *; [now injection Hk as -> | now apply IHl]. }
    rewrite E. cbn [get_data_cols_loop].
    rewrite (in_columns_self df col) by (eapply nth_error_In, Hk). cbn [negb].
    rewrite (column_is_number_at df col k Hnd Hk). cbn [bind].
    rewrite (IH (S k)) by lia. cbn [seq combine filter fst].
    destruct (is_number_dtype (nth k (dtypes df) ObjectDtype)); cbn [map snd].
    + now rewrite <- app_assoc.
    + reflexivity.
Qed.

(** X1: on a table whose column labels are all different, [get_data_cols]
    returns the labels of the columns whose dtype is a number ([int64] or
    [float64]), in the order of the table, and raises "No numeric data
    columns found" exactly when there is none; the cells play no part. *)
Theorem get_data_cols_numeric (df : DataFrame) :
  NoDup (columns df) ->
  get_data_cols df
  = match numeric_columns df with
    | [] => Raise (Exception no_numeric)
    | cols => Ok cols
    end.
Proof.
  intros Hnd. unfold get_data_cols, numeric_columns, enumerate.
  pose proof (get_data_cols_loop_filters df 0 [] Hnd) as L.
  rewrite Nat.sub_0_r in L. cbn [skipn app] in L. rewrite L. cbn [bind].
  now destruct (map snd _).
Qed.

Lemma get_data_cols_numeric_witness :
  get_data_cols
    (mkDataFrame ["n"; "name"; "x"]%string [Int64; ObjectDtype; Float64]
       [("2020"%string, [Int 3; Obj "a"; NaN])])
  = Ok ["n"; "x"]%string /\
  get_data_cols
    (mkDataFrame ["name"]%string [ObjectDtype] [("2020"%string, [Int 3])])
  = Raise (Exception "No numeric data columns found for plotting.").
Proof.
  split.
  - rewrite get_data_cols_numeric; [reflexivity|].
    repeat constructor; simpl; intuition discriminate.
  - rewrite get_data_cols_numeric; [reflexivity|].
    repeat constructor; simpl; intuition discriminate.
Defined.

(** ** One colour for each column *)

Lemma firstn_In {A : Type} (n : nat) (l : list A) (x : A) :
  In x (firstn n l) -> In x l.
Proof.
  intros H. rewrite <- (firstn_skipn n l). apply in_or_app. now left.
Qed.

Lemma list_times_In {A : Type} (l : list A) (k : nat) (x : A) :
  In x (list_times l k) -> In x l.
Proof.
  unfold list_times. intros H. apply in_concat in H.
  destruct H as [l' [Hl' Hx]]. apply repeat_spec in Hl'. now subst.
Qed.

Lemma cycle_colors_In {A : Type} (ncols : nat) (l out : list A) (x : A) :
  cycle_colors ncols l = Ok out -> In x out -> In x l.
Proof.
  unfold cycle_colors. destruct (length l <? ncols)%nat.
  - destruct (length l =? 0)%nat; [discriminate|].
    intros H Hx. injection H as <-. eapply list_times_In, firstn_In, Hx.
  - intros H Hx. injection H as <-. eapply firstn_In, Hx.
Qed.

(** X2: whatever [cmap] is, when [get_colors] returns it returns exactly
    one colour for each column of the table, each of them a colour of the
    list the base class made of [cmap]; it raises [ZeroDivisionError]
    exactly when that list is empty and the table has a column. *)
Theorem get_colors_one_per_column (get_cmap : string -> result (list color))
    (self : BarChart) (c : cmap_arg) (chart_colors : list color) :
  base_get_colors get_cmap c = Ok chart_colors ->
  (forall out, get_colors get_cmap self c = Ok out ->
     length out = shape1 (df self) /\ forall x, In x out -> In x chart_colors) /\
  (get_colors get_cmap self c = Raise ZeroDivisionError <->
     chart_colors = [] /\ (0 < shape1 (df self))%nat) /\
  (chart_colors <> [] -> exists out, get_colors get_cmap self c = Ok out).
Proof.
  intros Hb. unfold get_colors. rewrite Hb. cbn [bind]. split; [| split].
  - intros out H. split.
    + apply (cycle_colors_length _ _ _ H).
    + intros x. apply (cycle_colors_In _ _ _ _ H).
  - unfold cycle_colors. destruct chart_colors as [| a l]; simpl.
    + destruct (shape1 (df self)); simpl; split; try discriminate; auto.
      * intros [_ H]. lia.
      * intros _. split; [reflexivity | lia].
    + destruct (S (length l) <? shape1 (df self))%nat; split; try discriminate;
        intros [H _]; discriminate.
  - intros Hne. destruct (cycle_colors_cyclic (shape1 (df self)) chart_colors Hne)
      as [out [E _]]. now exists out.
Qed.

Lemma get_colors_one_per_column_witness :
  exists out,
    get_colors no_cmap (race_chart 3 1 "desc" "h") (CmapName "dark24") = Ok out /\
    length out = 2%nat.
Proof.
  destruct (get_colors_one_per_column no_cmap (race_chart 3 1 "desc" "h")
              (CmapName "dark24") DARK24 eq_refl) as [L [_ R]].
  destruct R as [out E]; [discriminate|].
  exists out. split; [exact E|]. exact (proj1 (L out E)).
Defined.

Lemma DARK24_NoDup : NoDup DARK24.
Proof.
  unfold DARK24. cbn [map].
  repeat (constructor; [simpl; intuition discriminate|]). constructor.
Qed.

Lemma NoDup_firstn {A : Type} (n : nat) (l : list A) :
  NoDup l -> NoDup (firstn n l).
Proof.
  intros H. rewrite <- (firstn_skipn n l) in H. eapply NoDup_app_remove_r, H.
Qed.

(** X3: with the palette "dark24" a table of at most 24 columns has a
    colour of its own for each column; from the 25th column on the colours
    of the first columns come again. *)
Theorem dark24_distinct_colors (get_cmap : string -> result (list color))
    (self : BarChart) :
  let m := shape1 (df self) in
  exists out,
    get_colors get_cmap self (CmapName "dark24") = Ok out /\
    length out = m /\
    ((m <= 24)%nat -> NoDup out) /\
    (forall j, (24 <= j < m)%nat -> nth_error out j = nth_error out (j - 24)).
Proof.
  intros m.
  destruct (cycle_colors_cyclic m DARK24 ltac:(discriminate)) as [out [E [L N]]].
  exists out. unfold get_colors. cbn [base_get_colors String.eqb bind].
  change (String.eqb "dark24" "dark24") with true. cbn iota. fold m.
  split; [exact E|]. split; [exact L|]. split.
  - intros Hm. unfold cycle_colors in E. change (length DARK24) with 24%nat in E.
    destruct (Nat.ltb_spec 24 m); [lia|]. injection E as <-.
    apply NoDup_firstn, DARK24_NoDup.
  - intros j Hj. rewrite (N j) by lia. rewrite (N (j - 24)%nat) by lia.
    change (length DARK24) with 24%nat. f_equal.
    replace j with ((j - 24) + 1 * 24)%nat at 1 by lia.
    now rewrite Nat.Div0.mod_add.
Qed.

(** ** When [prepare_data] returns *)

Lemma scaled_NoDup (s : Z) (vals : list (list (option Q))) :
  s <> 0%Z -> NoDup (map fst (scale_index s (reset_index vals))).
Proof.
  intros Hs. rewrite scaled_labels. generalize 0%nat as start.
  induction (length vals) as [| n IH]; intros start; simpl; constructor; [| apply IH].
  rewrite in_map_iff. intros [k [E Hk]]. apply in_seq in Hk.
  assert (Z.of_nat k = Z.of_nat start) by nia. lia.
Qed.

(** With a step of 0 every row has the label 0. *)
Lemma scaled_zero (vals : list (list (option Q))) :
  (2 <= length vals)%nat ->
  has_duplicates (map fst (scale_index 0 (reset_index vals))) = true /\
  index_max (scale_index 0 (reset_index vals)) = Ok 0%Z.
Proof.
  intros L. split.
  - rewrite scaled_labels. destruct (length vals) as [| [| n]]; try lia. reflexivity.
  - destruct (scaled_nonempty 0 vals) as [m Hm]; [destruct vals; [simpl in L; lia | discriminate]|].
    rewrite Hm. f_equal. destruct (index_max_bounds _ m Hm) as [I _].
    rewrite scaled_labels in I. apply in_map_iff in I. destruct I as [k [<- _]]. lia.
Qed.

(** X4: what [prepare_data] makes of a table whose columns all have a
    numeric dtype, with a column or more: with no row it fails at [range],
    with a step of 0 and two rows or more it fails at [reindex] (all rows
    get the label 0), and in every other case it returns. *)
Theorem prepare_data_outcome (self : BarChart) :
  let t := df self in
  numeric_table t = true ->
  (1 <= shape1 t)%nat ->
  (rows t = [] -> prepare_data self = Raise (TypeError "range")) /\
  (steps_per_period self = 0%Z -> (2 <= length (rows t))%nat ->
   prepare_data self = Raise (ValueError "reindex")) /\
  (rows t <> [] -> steps_per_period self <> 0%Z \/ length (rows t) = 1%nat ->
   exists vf rf, prepare_data self = Ok (vf, rf)).
Proof.
  intros t Hnum Hcols.
  destruct (numeric_table_checks t Hnum) as [RC IC]. split; [| split].
  - intros Hr. unfold prepare_data. fold t. rewrite RC. cbn [bind].
    unfold stored_values. rewrite Hr. reflexivity.
  - intros Hs Hl. unfold prepare_data. fold t. rewrite RC, Hs. cbn [bind].
    assert (L : (2 <= length (stored_values t))%nat) by now rewrite stored_values_length.
    destruct (scaled_zero (stored_values t) L) as [D M]. rewrite M. cbn [bind].
    assert (L' : (2 <= length (float_values t))%nat) by now rewrite float_values_length.
    destruct (scaled_zero (float_values t) L') as [D' _].
    unfold reindex. destruct (adds_rows _ _); [rewrite D' | rewrite D]; reflexivity.
  - intros Hne Hs.
    destruct (scaled_nonempty (steps_per_period self) (stored_values t)
                (rows_nonempty t Hne)) as [m Hm].
    apply (prepare_data_returns_when self m RC IC Hm).
    destruct Hs as [Hs | Hl]; [now apply scaled_NoDup|].
    unfold t in Hl. rewrite scaled_labels, stored_values_length, Hl.
    repeat constructor. intros [].
Qed.

Lemma prepare_data_outcome_witness :
  prepare_data (race_chart 3 0 "desc" "h") = Raise (ValueError "reindex") /\
  prepare_data (race_chart 0 2 "desc" "h") = Raise (TypeError "range") /\
  exists vf rf, prepare_data (race_chart 1 0 "desc" "h") = Ok (vf, rf).
Proof.
  split; [| split].
  - destruct (prepare_data_outcome (race_chart 3 0 "desc" "h") eq_refl) as [_ [Z0 _]].
    + cbn. lia.
    + apply Z0; [reflexivity | simpl; lia].
  - destruct (prepare_data_outcome (race_chart 0 2 "desc" "h") eq_refl) as [E _].
    + cbn. lia.
    + now apply E.
  - destruct (prepare_data_outcome (race_chart 1 0 "desc" "h") eq_refl) as [_ [_ R]].
    + cbn. lia.
    + apply R; [discriminate | now right].
Defined.

Lemma nth_seq_self {A : Type} (l : list A) (d : A) :
  map (fun j => nth j l d) (seq 0 (length l)) = l.
Proof.
  induction l as [| a l IH]; [reflexivity|].
  cbn [length seq map nth]. f_equal. rewrite <- seq_shift, map_map. exact IH.
Qed.

Lemma rank_values_nth_error (t : DataFrame) (k : nat) (r : string * list cell) :
  nth_error (rows t) k = Some r ->
  exists ranked,
    nth_error (rank_values t) k = Some ranked /\
    (ranked = map exact (snd r) \/ ranked = map as_float (snd r)) /\
    (small_ints t = true -> ranked = map exact (snd r)).
Proof.
  intros H. unfold rank_values, stored_values, float_values.
  destruct (forallb is_int64 (dtypes t)).
  - exists (map exact (snd r)). rewrite nth_error_map, H. repeat split; auto.
  - exists (map as_float (snd r)). rewrite nth_error_map, H. repeat split; auto.
    intros S. unfold small_ints in S. rewrite forallb_forall in S.
    specialize (S r (nth_error_In _ _ H)). rewrite forallb_forall in S.
    apply map_ext_in. intros c Hc. apply small_as_float, S, Hc.
Qed.

(** X5: a step that is not positive leaves one frame: whenever
    [prepare_data] returns with [steps_per_period <= 0], both frames have
    the single label 0, the value frame holds the first row of the table
    and the rank frame its ranks; the other rows are dropped. *)
Theorem prepare_data_nonpositive_step (self : BarChart) (vf rf : Frame) :
  prepare_data self = Ok (vf, rf) ->
  (steps_per_period self <= 0)%Z ->
  let t := df self in
  exists label cells ranked,
    nth_error (rows t) 0 = Some (label, cells) /\
    nth_error (rank_values t) 0 = Some ranked /\
    (small_ints t = true -> ranked = map exact cells) /\
    labels vf = [0%Z] /\
    labels rf = [0%Z] /\
    data vf = [map (fun j => nth j (map exact cells) None) (seq 0 (shape1 t))] /\
    data rf = [map (fun j => nth j (final_rank self ranked) None) (seq 0 (shape1 t))] /\
    (length cells = shape1 t ->
     data vf = [map exact cells] /\ data rf = [final_rank self ranked]).
Proof.
  intros H Hs t.
  destruct (prepare_data_inv self vf rf H) as [m [V [ks [_ [_ [Hm [Hnd [HV [-> ->]]]]]]]]].
  fold t in Hm, Hnd, HV.
  destruct (rows t) as [| [label cells] rest] eqn:Hrows.
  { unfold stored_values in Hm. rewrite Hrows in Hm. discriminate Hm. }
  assert (R0 : nth_error (rows t) 0 = Some (label, cells)) by now rewrite Hrows.
  destruct (rank_values_nth_error t 0 _ R0) as [ranked [Rk [_ Rs]]]. cbn [snd] in Rs.
  pose proof (stored_values_nth_error t 0 _ R0) as S0. cbn [snd] in S0.
  exists label, cells, ranked.
  split; [reflexivity|]. split; [exact Rk|]. split; [exact Rs|].
  assert (Hm0 : m = 0%Z).
  { destruct (index_max_bounds _ m Hm) as [Hin B].
    assert (0 <= m)%Z.
    { apply B. pose proof (scaled_nth_error (steps_per_period self) _ 0 _ S0) as N0.
      apply nth_error_In in N0. apply (in_map fst) in N0. exact N0. }
    rewrite scaled_labels in Hin. apply in_map_iff in Hin.
    destruct Hin as [k [E _]]. nia. }
  subst m.
  assert (HVs : V = stored_values t).
  { destruct HV as [[_ [_ A]] | [E _]]; [| exact E]. exfalso.
    change (range (0 + 1)) with [0%Z] in A. cbn [adds_rows existsb] in A.
    rewrite orb_false_r in A. apply negb_true_iff in A.
    pose proof (scaled_nth_error (steps_per_period self) _ 0 _ S0) as N0.
    apply nth_error_In in N0. apply (in_map fst) in N0. cbn [fst] in N0.
    assert (T : existsb (Z.eqb 0)
                  (map fst (scale_index (steps_per_period self)
                              (reset_index (stored_values t)))) = true).
    { apply existsb_exists. exists 0%Z. split; [exact N0 | reflexivity]. }
    congruence. }
  subst V.
  assert (LV : lookup 0 (scale_index (steps_per_period self) (reset_index (stored_values t)))
               = Some (map exact cells)).
  { apply lookup_found; [exact Hnd|].
    pose proof (scaled_nth_error (steps_per_period self) _ 0 _ S0) as N0.
    apply nth_error_In in N0. exact N0. }
  assert (LR : lookup 0 (scale_index (steps_per_period self)
                           (reset_index (map (final_rank self) (rank_values t))))
               = Some (final_rank self ranked)).
  { apply lookup_found; [rewrite rank_table_labels; exact Hnd|].
    assert (N : nth_error (map (final_rank self) (rank_values t)) 0
                = Some (final_rank self ranked)).
    { rewrite nth_error_map. fold t. now rewrite Rk. }
    pose proof (scaled_nth_error (steps_per_period self) _ 0 _ N) as N0.
    apply nth_error_In in N0. exact N0. }
  assert (I1 : forall x : option Q, interpolate_column [x] = [x])
    by (intros [x |]; reflexivity).
  assert (DV : data (built_frame (shape1 t) ks 0
                       (scale_index (steps_per_period self) (reset_index (stored_values t))))
               = [map (fun j => nth j (map exact cells) None) (seq 0 (shape1 t))]).
  { unfold built_frame, data. change (range (0 + 1)) with [0%Z].
    cbn [labels series length seq map]. f_equal. rewrite map_map.
    apply map_ext. intros j. unfold reindexed_column. cbn [map]. rewrite LV, I1.
    reflexivity. }
  assert (DR : data (built_frame (shape1 t) (repeat Float64 (shape1 t)) 0
                       (scale_index (steps_per_period self)
                          (reset_index (map (final_rank self) (rank_values t)))))
               = [map (fun j => nth j (final_rank self ranked) None) (seq 0 (shape1 t))]).
  { unfold built_frame, data. change (range (0 + 1)) with [0%Z].
    cbn [labels series length seq map]. f_equal. rewrite map_map.
    apply map_ext. intros j. unfold reindexed_column. cbn [map]. rewrite LR, I1.
    reflexivity. }
  fold t. split; [reflexivity|]. split; [reflexivity|].
  split; [exact DV|]. split; [exact DR|].
  intros Hw. rewrite DV, DR. split; f_equal.
  - rewrite <- Hw, <- (length_map exact cells). apply nth_seq_self.
  - assert (Lr : length (final_rank self ranked) = shape1 t).
    { rewrite final_rank_length.
      destruct (rank_values_nth_error t 0 _ R0) as [ranked' [Rk' [[E | E] _]]];
        rewrite Rk in Rk'; injection Rk' as <-; rewrite E, length_map; exact Hw. }
    rewrite <- Lr. apply nth_seq_self.
Qed.

Lemma prepare_data_nonpositive_step_witness :
  exists vf rf,
    prepare_data (chart_of (race_table 3) (-2) "asc" "h" 2) = Ok (vf, rf) /\
    labels vf = [0%Z] /\
    data vf = [[Some 0; Some 3]] /\
    data rf = [[Some 2; Some 1]].
Proof.
  destruct (prepare_data (chart_of (race_table 3) (-2) "asc" "h" 2))
    as [[vf rf] | e] eqn:E; [| discriminate E].
  exists vf, rf. split; [reflexivity|].
  destruct (prepare_data_nonpositive_step _ vf rf E)
    as [label [cells [ranked [R0 [Rk [_ [Lv [_ [_ [_ W]]]]]]]]]]; [discriminate|].
  injection R0 as <- <-. injection Rk as <-.
  destruct (W eq_refl) as [Dv Dr]. split; [exact Lv|]. split; [exact Dv|].
  rewrite Dr. reflexivity.
Defined.

(** ** The two frames together *)

Lemma interpolate_column_missing_iff (l : list (option Q)) (p : nat) :
  (p < length l)%nat ->
  (nth_error (interpolate_column l) p = Some None
   <-> forall q, (q <= p)%nat -> nth_error l q = Some None).
Proof.
  intros Hp. split; [| apply interpolate_column_above].
  intros H q Hq.
  destruct (nth_error l q) as [[x |] |] eqn:E.
  - destruct (interpolate_column_below l q p x E ltac:(lia)) as [v Hv]. congruence.
  - reflexivity.
  - apply nth_error_None in E. lia.
Qed.

Lemma lookup_related (R : list (option Q) -> list (option Q) -> Prop) (f f' : labelled) :
  Forall2 (fun r r' => fst r = fst r' /\ R (snd r) (snd r')) f f' ->
  forall l,
    match lookup l f, lookup l f' with
    | Some r, Some r' => R r r'
    | None, None => True
    | _, _ => False
    end.
Proof.
  intros H l. unfold lookup. induction H as [| r r' f f' [E HR] _ IH]; [exact I|].
  cbn [find]. rewrite <- E. destruct (Z.eqb (fst r) l); [exact HR | exact IH].
Qed.

Lemma scaled_related (R : list (option Q) -> list (option Q) -> Prop) (s : Z)
    (vals vals' : list (list (option Q))) :
  Forall2 R vals vals' ->
  Forall2 (fun r r' => fst r = fst r' /\ R (snd r) (snd r'))
    (scale_index s (reset_index vals)) (scale_index s (reset_index vals')).
Proof.
  intros H. unfold scale_index, reset_index, range.
  rewrite <- (Forall2_length H), !Nat2Z.id.
  generalize 0%nat as start.
  induction H as [| r r' vals vals' HR _ IH]; intros start; [constructor|].
  cbn [length seq map combine]. constructor; [split; [reflexivity | exact HR]|].
  apply IH.
Qed.

Lemma Forall2_map_same {A B C : Type} (R : B -> C -> Prop) (g : A -> B) (h : A -> C)
    (l : list A) :
  (forall a, In a l -> R (g a) (h a)) -> Forall2 R (map g l) (map h l).
Proof.
  induction l as [| a l IH]; intros H; [constructor|].
  cbn [map]. constructor; [apply H; now left|]. apply IH. intros b Hb. apply H. now right.
Qed.

(** The cells of a row and its ranks are missing at the same places. *)
Lemma final_rank_pattern (self : BarChart) (cells : list cell) (f1 f2 : cell -> option Q) :
  (f1 = exact \/ f1 = as_float) -> (f2 = exact \/ f2 = as_float) ->
  forall j, nth j (map f1 cells) None = None
            <-> nth j (final_rank self (map f2 cells)) None = None.
Proof.
  intros H1 H2 j.
  destruct (nth_error cells j) as [c |] eqn:E.
  - assert (N1 : nth j (map f1 cells) None = f1 c).
    { apply nth_nth_error. now rewrite nth_error_map, E. }
    assert (N2 : nth_error (map f2 cells) j = Some (f2 c)) by now rewrite nth_error_map, E.
    rewrite N1.
    destruct (f2 c) as [v |] eqn:F2.
    + rewrite (nth_nth_error _ _ _ _ (final_rank_nth_error self _ j v N2)).
      destruct H1 as [-> | ->], H2 as [-> | ->], c; simpl in *; split; discriminate.
    + rewrite (nth_nth_error _ _ _ _ (final_rank_missing self _ j N2)).
      destruct H1 as [-> | ->], H2 as [-> | ->], c; simpl in *; split;
        try reflexivity; discriminate.
  - apply nth_error_None in E.
    rewrite !nth_overflow; [tauto | |].
    + now rewrite final_rank_length, length_map.
    + now rewrite length_map.
Qed.

Lemma value_rank_related (self : BarChart) (V : list (list (option Q))) :
  V = float_values (df self) \/ V = stored_values (df self) ->
  Forall2 (fun r r' => forall j, nth j r None = None <-> nth j r' None = None)
    V (map (final_rank self) (rank_values (df self))).
Proof.
  intros HV. unfold rank_values.
  destruct (forallb is_int64 (dtypes (df self)));
    destruct HV as [-> | ->]; unfold stored_values, float_values; rewrite map_map;
    apply Forall2_map_same; intros r _; apply final_rank_pattern; auto.
Qed.

Lemma reindexed_pattern (f f' : labelled) (ls : list Z) (j q : nat) :
  Forall2 (fun r r' => fst r = fst r' /\
             forall j, nth j (snd r) None = None <-> nth j (snd r') None = None) f f' ->
  (nth_error (reindexed_column ls f j) q = Some None
   <-> nth_error (reindexed_column ls f' j) q = Some None).
Proof.
  intros H. unfold reindexed_column. rewrite !nth_error_map.
  destruct (nth_error ls q) as [l |]; cbn [option_map]; [| tauto].
  pose proof (lookup_related
                (fun r r' => forall j, nth j r None = None <-> nth j r' None = None)
                f f' H l) as L.
  destruct (lookup l f) as [r |], (lookup l f') as [r' |]; try contradiction; [| tauto].
  specialize (L j). split; intros E; injection E as E; f_equal; now apply L.
Qed.

Lemma interpolate_column_stays_known (l : list (option Q)) (p p' : nat) (x : Q) :
  nth_error (interpolate_column l) p = Some (Some x) ->
  (p <= p' < length l)%nat ->
  exists x', nth_error (interpolate_column l) p' = Some (Some x').
Proof.
  intros H Hp.
  assert (Lp : (p < length l)%nat) by lia.
  destruct (nth_error (interpolate_column l) p') as [[x' |] |] eqn:E.
  - now exists x'.
  - exfalso.
    pose proof (proj1 (interpolate_column_missing_iff l p' ltac:(lia)) E) as E'.
    assert (A : nth_error (interpolate_column l) p = Some None).
    { apply interpolate_column_above. intros q Hq. apply E'. lia. }
    congruence.
  - apply nth_error_None in E. rewrite interpolate_column_length in E. lia.
Qed.

(** X6: the two frames [prepare_data] returns go together: they carry the
    same labels, which are 0, 1, 2, ... without a gap, one label for each
    row, and at least one; every row of either frame has a cell for each
    column of the table; a cell is missing in the value frame exactly when
    it is missing in the rank frame; and below a value that is known no
    value of its column is missing. *)
Theorem prepare_data_frames_aligned (self : BarChart) (vf rf : Frame) :
  prepare_data self = Ok (vf, rf) ->
  labels rf = labels vf /\
  labels vf = range (Z.of_nat (length (data vf))) /\
  length (data rf) = length (data vf) /\
  (1 <= length (data vf))%nat /\
  (forall p vrow, nth_error (data vf) p = Some vrow ->
     exists rrow,
       nth_error (data rf) p = Some rrow /\
       length vrow = shape1 (df self) /\
       length rrow = shape1 (df self) /\
       forall j, nth_error vrow j = Some None <-> nth_error rrow j = Some None) /\
  (forall p p' row row' j x,
     nth_error (data vf) p = Some row -> nth_error (data vf) p' = Some row' ->
     (p <= p')%nat -> nth_error row j = Some (Some x) ->
     exists x', nth_error row' j = Some (Some x')).
Proof.
  intros H.
  destruct (prepare_data_lengths self vf rf H) as [_ [L1 [L2 [L3 _]]]].
  destruct (prepare_data_inv self vf rf H) as [m [V [ks [_ [_ [Hm [Hnd [HV [EV ER]]]]]]]]].
  assert (HV' : V = float_values (df self) \/ V = stored_values (df self)).
  { destruct HV as [[E _] | [E _]]; auto. }
  split; [exact L1|]. split.
  { rewrite data_length. rewrite EV, built_labels, range_length.
    f_equal. rewrite EV, built_length in L3. lia. }
  split; [exact L2|]. split; [exact L3|]. split.
  - intros p vrow Hv. rewrite EV in Hv.
    destruct (built_row_inv _ _ _ _ _ _ Hv) as [Hp [Lv Cv]].
    destruct (built_row (shape1 (df self)) (repeat Float64 (shape1 (df self))) m
                (scale_index (steps_per_period self)
                   (reset_index (map (final_rank self) (rank_values (df self))))) p Hp)
      as [rrow [Hr [Lr Cr]]].
    exists rrow. rewrite ER. split; [exact Hr|]. split; [exact Lv|]. split; [exact Lr|].
    intros j. destruct (Nat.lt_ge_cases j (shape1 (df self))) as [Hj | Hj].
    + rewrite (Cv j Hj), (Cr j Hj).
      rewrite !interpolate_column_missing_iff
        by (rewrite reindexed_length, range_length; exact Hp).
      assert (P : forall q,
                 nth_error (reindexed_column (range (m + 1))
                              (scale_index (steps_per_period self) (reset_index V)) j) q
                 = Some None
                 <-> nth_error (reindexed_column (range (m + 1))
                                  (scale_index (steps_per_period self)
                                     (reset_index (map (final_rank self)
                                                     (rank_values (df self))))) j) q
                     = Some None).
      { intros q. apply reindexed_pattern.
        apply (scaled_related
                 (fun r r' => forall j, nth j r None = None <-> nth j r' None = None)).
        apply value_rank_related, HV'. }
      split; intros A q Hq; apply P, A, Hq.
    + assert (N1 : nth_error vrow j = None) by (apply nth_error_None; lia).
      assert (N2 : nth_error rrow j = None) by (apply nth_error_None; lia).
      rewrite N1, N2. tauto.
  - intros p p' row row' j x Hp Hp' Hle Hx. rewrite EV in Hp, Hp'.
    destruct (built_row_inv _ _ _ _ _ _ Hp) as [Bp [Lp Cp]].
    destruct (built_row_inv _ _ _ _ _ _ Hp') as [Bp' [Lp' Cp']].
    assert (Hj : (j < shape1 (df self))%nat).
    { rewrite <- Lp. apply nth_error_Some. congruence. }
    rewrite (Cp j Hj) in Hx. rewrite (Cp' j Hj).
    apply (interpolate_column_stays_known _ p p' x Hx).
    rewrite reindexed_length, range_length. lia.
Qed.

Lemma prepare_data_frames_aligned_witness :
  exists vf rf vrow rrow,
    prepare_data (chart_of late_table 2 "desc" "v" 2) = Ok (vf, rf) /\
    labels vf = [0; 1; 2]%Z /\
    labels rf = [0; 1; 2]%Z /\
    nth_error (data vf) 1 = Some vrow /\
    nth_error (data rf) 1 = Some rrow /\
    nth_error vrow 0 = Some None /\
    nth_error rrow 0 = Some None.
Proof.
  destruct (prepare_data (chart_of late_table 2 "desc" "v" 2))
    as [[vf rf] | e] eqn:E; [| discriminate E].
  destruct (prepare_data_frames_aligned _ vf rf E) as [L1 [L2 [_ [_ [A _]]]]].
  assert (Lv : labels vf = [0; 1; 2]%Z) by (injection E as <- _; reflexivity).
  assert (Dv : exists vrow, nth_error (data vf) 1 = Some vrow /\ nth_error vrow 0 = Some None).
  { injection E as <- _. eexists. split; reflexivity. }
  destruct Dv as [vrow [Hv Hc]].
  destruct (A 1%nat vrow Hv) as [rrow [Hr [_ [_ P]]]].
  exists vf, rf, vrow, rrow.
  split; [reflexivity|]. split; [exact Lv|]. split; [now rewrite L1|].
  split; [exact Hv|]. split; [exact Hr|]. split; [exact Hc|]. now apply P.
Defined.

(** ** Values stay in range *)

(** X7: in exact arithmetic, and on a table that holds no integer beyond
    [2^53] in size, interpolation does not overshoot: if every number of
    the table lies between [lo] and [hi], so does every number of the
    value frame. *)
Theorem prepare_data_values_between (self : BarChart) (vf rf : Frame) (lo hi : Q) :
  prepare_data self = Ok (vf, rf) ->
  small_ints (df self) = true ->
  (forall label cells c a,
     In (label, cells) (rows (df self)) -> In c cells -> holds c a -> lo <= a <= hi) ->
  forall row x, In row (data vf) -> In (Some x) row -> lo <= x <= hi.
Proof.
  intros H Hsmall Hb row x Hrow Hx.
  destruct (prepare_data_inv self vf rf H) as [m [V [ks [_ [_ [_ [_ [HV [EV _]]]]]]]]].
  assert (E : V = stored_values (df self)).
  { destruct HV as [[E _] | [E _]]; [| exact E].
    now rewrite E, small_float_values. }
  subst V. rewrite EV in Hrow.
  destruct (built_cell_In _ _ _ _ _ _ Hrow Hx) as [j Hj].
  clear Hx Hrow. revert x Hj. clear row.
  apply (built_column_keeps (fun x => lo <= x <= hi)).
  - intros x y i g Hi Hg Px Py. now apply lerp_between.
  - intros row x Hrow Hx. rewrite scaled_rows in Hrow.
    unfold stored_values in Hrow. apply in_map_iff in Hrow.
    destruct Hrow as [[label cells] [<- Hin]]. cbn [snd] in Hx.
    apply in_map_iff in Hx. destruct Hx as [c [Ec Hc]].
    apply (Hb label cells c x Hin Hc). now apply exact_holds.
Qed.

Lemma prepare_data_values_between_witness :
  exists vf rf,
    prepare_data (race_chart 3 2 "desc" "v") = Ok (vf, rf) /\
    length (data vf) = 5%nat /\
    forall row x, In row (data vf) -> In (Some x) row -> 0 <= x <= 3.
Proof.
  destruct (prepare_data (race_chart 3 2 "desc" "v")) as [[vf rf] | e] eqn:E;
    [| discriminate E].
  exists vf, rf. split; [reflexivity|]. split; [injection E as <- _; reflexivity|].
  apply (prepare_data_values_between _ vf rf 0 3 E eq_refl).
  intros label cells c a Hrow Hc Ha. simpl in Hrow.
  destruct Hrow as [R | [R | [R | []]]]; injection R as _ <-; simpl in Hc;
    destruct Hc as [<- | [<- | []]];
    (destruct Ha as [Ha | [z [Ha _]]]; [injection Ha as <- | discriminate Ha]);
    split; discriminate.
Defined.

(** ** The bars of a period *)

(** The place of a row of the table in the rank frame holds the ranks of
    the numbers of that row. *)
Lemma rank_frame_at_row (self : BarChart) (vf rf : Frame) (k : nat)
    (r : string * list cell) :
  prepare_data self = Ok (vf, rf) ->
  small_ints (df self) = true ->
  nth_error (rows (df self)) k = Some r ->
  (0 <= Z.of_nat k * steps_per_period self)%Z ->
  exists ranks,
    nth_error (data rf) (Z.to_nat (Z.of_nat k * steps_per_period self)) = Some ranks /\
    length ranks = shape1 (df self) /\
    forall j a, (j < shape1 (df self))%nat ->
      nth_error (final_rank self (map exact (snd r))) j = Some (Some a) ->
      nth_error ranks j = Some (Some a).
Proof.
  intros H Hsmall Hk Hpos.
  destruct (prepare_data_inv self vf rf H) as [m [V [ks [_ [_ [Hm [Hnd [_ [_ ->]]]]]]]]].
  pose proof (rank_table_labels self) as Lr.
  rewrite <- Lr in Hnd. rewrite (index_max_labels _ _ (eq_sym Lr)) in Hm.
  assert (Hrow : nth_error (map (final_rank self) (rank_values (df self))) k
                 = Some (final_rank self (map exact (snd r)))).
  { rewrite (small_rank_values _ Hsmall), nth_error_map.
    now rewrite (stored_values_nth_error _ k _ Hk). }
  destruct (built_period_row (shape1 (df self)) (repeat Float64 (shape1 (df self))) _ _ m k _
              Hnd Hm Hrow Hpos) as [ranks [E [L C]]].
  exists ranks. split; [exact E|]. split; [exact L|].
  intros j a Hj Ha. apply (C j a Hj). now apply (nth_nth_error _ _ None) in Ha.
Qed.

Lemma sorted_desc_In (row : list (option Q)) (j : nat) (v : Q) :
  nth_error row j = Some (Some v) -> In j (map fst (sorted_desc row)).
Proof.
  intros H. unfold sorted_desc.
  apply (in_map fst _ (j, v)), (Permutation_in _ (sort_desc_perm _)).
  apply (with_places_In 0 row j v H).
Qed.

Lemma position_of_found (s : list (nat * Q)) (j : nat) :
  In j (map fst s) -> nth_error (map fst s) (position_of j s) = Some j.
Proof.
  induction s as [| x t IH]; intros H; [contradiction|].
  cbn [position_of]. destruct (Nat.eqb_spec (fst x) j) as [E | N].
  - simpl. now rewrite E.
  - destruct H as [H | H]; [contradiction|]. simpl. now apply IH.
Qed.

(** Two columns that hold a number stand at different places of the
    sorted row. *)
Lemma position_of_injective (row : list (option Q)) (j1 j2 : nat) (v1 v2 : Q) :
  nth_error row j1 = Some (Some v1) -> nth_error row j2 = Some (Some v2) ->
  position_of j1 (sorted_desc row) = position_of j2 (sorted_desc row) -> j1 = j2.
Proof.
  intros H1 H2 E.
  pose proof (position_of_found _ _ (sorted_desc_In row j1 v1 H1)) as I1.
  pose proof (position_of_found _ _ (sorted_desc_In row j2 v2 H2)) as I2.
  rewrite E in I1. congruence.
Qed.

Lemma naive_rank_cases (n : Z) (row : list (option Q)) (j : nat) :
  (0 <= n)%Z ->
  let p := position_of j (sorted_desc row) in
  ((Z.of_nat p < n)%Z /\ naive_rank n row j == inject_Z (Z.of_nat (S p)) /\
   naive_rank n row j < inject_Z (n + 1) /\ 0 < naive_rank n row j)
  \/ ((n <= Z.of_nat p)%Z /\ naive_rank n row j == inject_Z (n + 1)).
Proof.
  intros Hn p. unfold naive_rank. fold p.
  assert (H1 : 1 <= inject_Z (Z.of_nat (S p))).
  { change 1 with (inject_Z 1). rewrite <- Zle_Qle. lia. }
  destruct (Z_lt_le_dec (Z.of_nat p) n) as [L | L].
  - left. assert (Hlt : inject_Z (Z.of_nat (S p)) < inject_Z (n + 1)).
    { rewrite <- Zlt_Qlt. lia. }
    rewrite Q.min_l by now apply Qlt_le_weak. repeat split; auto; try reflexivity; lra.
  - right. split; [exact L|]. apply Q.min_r. rewrite <- Zle_Qle. lia.
Qed.

(** The rank kept for a column that holds a number lies strictly between 0
    and [n_bars + 1] exactly when the column is among the first [n_bars]
    of the sorted row. *)
Lemma final_rank_in_view (self : BarChart) (row : list (option Q)) (j : nat) (v : Q) :
  (0 <= n_bars self)%Z ->
  nth_error row j = Some (Some v) ->
  exists r,
    nth_error (final_rank self row) j = Some (Some r) /\
    (0 < r /\ r < inject_Z (n_bars self + 1)
     <-> (Z.of_nat (position_of j (sorted_desc row)) < n_bars self)%Z) /\
    ((Z.of_nat (position_of j (sorted_desc row)) < n_bars self)%Z ->
     if inverts (sort self) (orientation self)
     then r == inject_Z (n_bars self) - inject_Z (Z.of_nat (position_of j (sorted_desc row)))
     else r == inject_Z (Z.of_nat (S (position_of j (sorted_desc row))))).
Proof.
  intros Hn Hj. eexists. split; [apply (final_rank_nth_error self row j v Hj)|].
  assert (S1 : forall p, inject_Z (Z.of_nat (S p)) == inject_Z (Z.of_nat p) + 1).
  { intros p. rewrite Nat2Z.inj_succ. unfold Z.succ. now rewrite inject_Z_plus. }
  destruct (naive_rank_cases (n_bars self) row j Hn) as [[L [E [U P]]] | [L E]];
    rewrite inject_Z_plus in *; change (inject_Z 1) with 1 in *;
    destruct (inverts (sort self) (orientation self)); split;
    try (split; [intros _; exact L | intros _; lra]);
    try (split; [intros [A B]; exfalso; lra | intros A; exfalso; lia]);
    try (intros _; rewrite E, ?S1; ring);
    try (intros A; exfalso; lia).
Qed.

(** X8: at the frame of a period (a row of the table, none of whose
    integers is beyond [2^53]), the rank of a column that holds a number is
    in view, that is strictly between 0 and [n_bars + 1], exactly when the
    column is among the first [n_bars] of the row sorted descending by
    value, columns of equal value in the order of the table and missing
    values left out.  This is so for every sort and orientation. *)
Theorem period_frame_top_n (self : BarChart) (vf rf : Frame) (k : nat)
    (label : string) (cells : list cell) :
  prepare_data self = Ok (vf, rf) ->
  rectangular (df self) ->
  small_ints (df self) = true ->
  nth_error (rows (df self)) k = Some (label, cells) ->
  (0 <= Z.of_nat k * steps_per_period self)%Z ->
  (0 <= n_bars self)%Z ->
  exists ranks,
    nth_error (data rf) (Z.to_nat (Z.of_nat k * steps_per_period self)) = Some ranks /\
    forall j c v, nth_error cells j = Some c -> holds c v ->
      exists r,
        nth_error ranks j = Some (Some r) /\
        (in_view (n_bars self) r = true <-> 0 < r /\ r < inject_Z (n_bars self + 1)) /\
        (0 < r /\ r < inject_Z (n_bars self + 1)
         <-> (Z.of_nat (position_of j (sorted_desc (map exact cells))) < n_bars self)%Z).
Proof.
  intros H Hrect Hsmall Hk Hpos Hn.
  destruct (rank_frame_at_row self vf rf k _ H Hsmall Hk Hpos) as [ranks [E [L C]]].
  exists ranks. split; [exact E|]. intros j c v Hc Hv.
  assert (Hj : (j < shape1 (df self))%nat).
  { rewrite <- (rectangular_row _ k _ Hrect Hk). apply nth_error_Some.
    cbn [snd]. congruence. }
  assert (Hx : nth_error (map exact cells) j = Some (Some v)).
  { rewrite nth_error_map, Hc. cbn [option_map]. f_equal. now apply holds_exact. }
  destruct (final_rank_in_view self _ j v Hn Hx) as [r [Hr [V _]]].
  exists r. split; [apply (C j r Hj Hr)|]. split; [apply in_view_spec | exact V].
Qed.

Lemma period_frame_top_n_witness :
  exists vf rf ranks r0 r1,
    prepare_data (chart_of (race_table 3) 2 "desc" "h" 1) = Ok (vf, rf) /\
    nth_error (data rf) 2 = Some ranks /\
    nth_error ranks 0 = Some (Some r0) /\ ~ (0 < r0 /\ r0 < 2) /\
    nth_error ranks 1 = Some (Some r1) /\ 0 < r1 /\ r1 < 2.
Proof.
  destruct (prepare_data (chart_of (race_table 3) 2 "desc" "h" 1))
    as [[vf rf] | e] eqn:E; [| discriminate E].
  destruct (period_frame_top_n _ vf rf 1 "t" [Num 1; Num 2] E) as [ranks [N P]].
  - split; [reflexivity | repeat constructor].
  - reflexivity.
  - reflexivity.
  - discriminate.
  - discriminate.
  - destruct (P 0%nat (Num 1) 1 eq_refl (or_introl eq_refl)) as [r0 [H0 [_ V0]]].
    destruct (P 1%nat (Num 2) 2 eq_refl (or_introl eq_refl)) as [r1 [H1 [_ V1]]].
    exists vf, rf, ranks, r0, r1. split; [reflexivity|]. split; [exact N|].
    split; [exact H0|]. split.
    + intros A. apply V0 in A. vm_compute in A. discriminate A.
    + split; [exact H1|]. apply V1. reflexivity.
Defined.

(** X9: at the frame of a period no two bars of columns that hold a number
    in that period stand at the same place: of two such columns whose
    ranks are both in view the ranks differ. *)
Theorem period_frame_distinct_places (self : BarChart) (vf rf : Frame) (k : nat)
    (label : string) (cells : list cell) :
  prepare_data self = Ok (vf, rf) ->
  rectangular (df self) ->
  small_ints (df self) = true ->
  nth_error (rows (df self)) k = Some (label, cells) ->
  (0 <= Z.of_nat k * steps_per_period self)%Z ->
  (0 <= n_bars self)%Z ->
  exists ranks,
    nth_error (data rf) (Z.to_nat (Z.of_nat k * steps_per_period self)) = Some ranks /\
    forall j1 j2 c1 c2,
      nth_error cells j1 = Some c1 -> nth_error cells j2 = Some c2 ->
      is_number c1 = true -> is_number c2 = true ->
      j1 <> j2 ->
      exists r1 r2,
        nth_error ranks j1 = Some (Some r1) /\
        nth_error ranks j2 = Some (Some r2) /\
        (0 < r1 /\ r1 < inject_Z (n_bars self + 1) ->
         0 < r2 /\ r2 < inject_Z (n_bars self + 1) ->
         ~ r1 == r2).
Proof.
  intros H Hrect Hsmall Hk Hpos Hn.
  destruct (rank_frame_at_row self vf rf k _ H Hsmall Hk Hpos) as [ranks [E [L C]]].
  exists ranks. split; [exact E|]. intros j1 j2 c1 c2 H1 H2 N1 N2 Hne.
  assert (W : length cells = shape1 (df self))
    by apply (rectangular_row _ k _ Hrect Hk).
  assert (K : forall j c, nth_error cells j = Some c -> is_number c = true ->
              (j < shape1 (df self))%nat /\
              exists v, nth_error (map exact cells) j = Some (Some v)).
  { intros j c Hc Nc. split.
    - rewrite <- W. apply nth_error_Some. congruence.
    - rewrite nth_error_map, Hc. destruct c; try discriminate Nc; eexists; reflexivity. }
  destruct (K j1 c1 H1 N1) as [L1 [v1 X1]]. destruct (K j2 c2 H2 N2) as [L2 [v2 X2]].
  destruct (final_rank_in_view self _ j1 v1 Hn X1) as [r1 [R1 [I1 F1]]].
  destruct (final_rank_in_view self _ j2 v2 Hn X2) as [r2 [R2 [I2 F2]]].
  exists r1, r2. split; [apply (C j1 r1 L1 R1)|]. split; [apply (C j2 r2 L2 R2)|].
  intros V1 V2 Heq. apply I1 in V1. apply I2 in V2.
  specialize (F1 V1). specialize (F2 V2).
  apply Hne, (position_of_injective (map exact cells) j1 j2 v1 v2 X1 X2).
  assert (S1 : forall p, inject_Z (Z.of_nat (S p)) == inject_Z (Z.of_nat p) + 1).
  { intros p. rewrite Nat2Z.inj_succ. unfold Z.succ. now rewrite inject_Z_plus. }
  assert (Eq : inject_Z (Z.of_nat (position_of j1 (sorted_desc (map exact cells))))
               == inject_Z (Z.of_nat (position_of j2 (sorted_desc (map exact cells))))).
  { destruct (inverts (sort self) (orientation self));
      rewrite ?S1 in F1, F2; lra. }
  apply Nat2Z.inj. exact (proj1 (inject_Z_injective _ _) Eq).
Qed.

Lemma period_frame_distinct_places_witness :
  exists vf rf ranks r1 r2,
    prepare_data (chart_of (race_table 3) 2 "desc" "h" 2) = Ok (vf, rf) /\
    nth_error (data rf) 2 = Some ranks /\
    nth_error ranks 0 = Some (Some r1) /\ nth_error ranks 1 = Some (Some r2) /\
    r1 == 1 /\ r2 == 2 /\ ~ r1 == r2.
Proof.
  destruct (prepare_data (chart_of (race_table 3) 2 "desc" "h" 2))
    as [[vf rf] | e] eqn:E; [| discriminate E].
  destruct (period_frame_distinct_places _ vf rf 1 "t" [Num 1; Num 2] E) as [ranks [N P]].
  - split; [reflexivity | repeat constructor].
  - reflexivity.
  - reflexivity.
  - discriminate.
  - discriminate.
  - destruct (P 0%nat 1%nat (Num 1) (Num 2) eq_refl eq_refl eq_refl eq_refl ltac:(discriminate))
      as [r1 [r2 [H1 [H2 D]]]].
    assert (Q1 : r1 == 1 /\ r2 == 2).
    { injection E as _ <-. injection N as <-.
      injection H1 as <-. injection H2 as <-. split; reflexivity. }
    destruct Q1 as [Q1 Q2].
    exists vf, rf, ranks, r1, r2. split; [reflexivity|]. split; [exact N|].
    split; [exact H1|]. split; [exact H2|]. split; [exact Q1|]. split; [exact Q2|].
    apply D; rewrite ?Q1, ?Q2; split; reflexivity.
Defined.

(** ** How many bars a period shows *)

Lemma filter_length_by_place {A : Type} (f : A -> bool) (g : nat -> bool) (l : list A) :
  (forall j a, nth_error l j = Some a -> f a = g j) ->
  length (filter f l) = length (filter g (seq 0 (length l))).
Proof.
  intros H.
  assert (G : forall start, (forall j a, nth_error l j = Some a -> f a = g (start + j)%nat) ->
            length (filter f l) = length (filter g (seq start (length l)))).
  { clear. induction l as [| a l IH]; intros start H; [reflexivity|].
    pose proof (H 0%nat a eq_refl) as H0. rewrite Nat.add_0_r in H0.
    assert (H' : forall j a', nth_error l j = Some a' -> f a' = g (S start + j)%nat).
    { intros j a' Hj. rewrite (H (S j) a' Hj). f_equal. lia. }
    simpl. rewrite <- H0. destruct (f a); simpl; now rewrite (IH (S start) H'). }
  apply (G 0%nat). exact H.
Qed.

Lemma filter_map_length {A B : Type} (f : B -> bool) (g : A -> B) (l : list A) :
  length (filter f (map g l)) = length (filter (fun a => f (g a)) l).
Proof.
  induction l as [| a l IH]; [reflexivity|]. simpl.
  destruct (f (g a)); simpl; now rewrite IH.
Qed.

Lemma count_below (n m : nat) :
  length (filter (fun k => k <? n)%nat (seq 0 m)) = Nat.min n m.
Proof.
  induction m as [| m IH]; [now rewrite Nat.min_0_r|].
  rewrite seq_S, filter_app, length_app, IH. simpl.
  destruct (Nat.ltb_spec m n); simpl; lia.
Qed.

Lemma with_places_full (start : nat) (row : list (option Q)) :
  (forall x, In x row -> x <> None) ->
  map fst (with_places start row) = seq start (length row).
Proof.
  revert start. induction row as [| [v |] row IH]; intros start H; [reflexivity | |].
  - cbn [with_places map fst length seq]. f_equal. apply IH.
    intros x Hx. apply H. now right.
  - exfalso. apply (H None); [now left | reflexivity].
Qed.

Lemma position_of_labels (s : list (nat * Q)) :
  NoDup (map fst s) ->
  map (fun j => position_of j s) (map fst s) = seq 0 (length s).
Proof.
  induction s as [| x t IH]; intros Hnd; [reflexivity|].
  simpl in Hnd. apply NoDup_cons_iff in Hnd. destruct Hnd as [Hn Hnd].
  cbn [map length seq position_of]. rewrite Nat.eqb_refl. f_equal.
  rewrite <- seq_shift. rewrite <- (IH Hnd). rewrite !map_map. apply map_ext_in.
  intros y Hy. destruct (Nat.eqb_spec (fst x) (fst y)) as [E | N]; [| reflexivity].
  exfalso. apply Hn. rewrite E. now apply in_map.
Qed.

(** In a row without missing value the places of the columns in the sorted
    row are 0, 1, ..., each once. *)
Lemma positions_permutation (row : list (option Q)) :
  (forall x, In x row -> x <> None) ->
  Permutation (map (fun j => position_of j (sorted_desc row)) (seq 0 (length row)))
              (seq 0 (length row)).
Proof.
  intros Hfull. unfold sorted_desc.
  pose proof (sort_desc_perm (with_places 0 row)) as P.
  apply (Permutation_map fst) in P. rewrite (with_places_full 0 row Hfull) in P.
  assert (Hnd : NoDup (map fst (sort_desc (with_places 0 row)))).
  { apply (Permutation_NoDup P), seq_NoDup. }
  pose proof (Permutation_map (fun j => position_of j (sort_desc (with_places 0 row))) P) as PM.
  rewrite (position_of_labels _ Hnd) in PM.
  pose proof (Permutation_length P) as Len. rewrite length_seq, length_map in Len.
  rewrite <- Len in PM. now apply Permutation_sym.
Qed.

(** X10: at the frame of a period in which no value is missing (and no
    integer of the table is beyond [2^53]) [plot_bars] draws
    [min n_bars m] bars, [m] being the number of columns: the first
    [n_bars] of the race, or all columns when there are fewer (as with the
    default [n_bars]). *)
Theorem plot_bars_period_count (get_cmap : string -> result (list color))
    (self : BarChart) (c : Chart) (k : nat) (label : string) (cells : list cell)
    (b : Bars) :
  __attrs_post_init__ get_cmap self = Ok c ->
  rectangular (df self) ->
  small_ints (df self) = true ->
  nth_error (rows (df self)) k = Some (label, cells) ->
  forallb is_number cells = true ->
  (0 <= Z.of_nat k * steps_per_period self)%Z ->
  (0 <= n_bars self)%Z ->
  plot_bars c (Z.of_nat k * steps_per_period self) = Ok b ->
  length (cols b) = Nat.min (Z.to_nat (n_bars (attrs c))) (shape1 (df self)) /\
  length (bar_location b) = length (cols b) /\
  n_bars (attrs c)
  = (if Z.eqb (n_bars self) 0 then Z.of_nat (shape1 (df self)) else n_bars self).
Proof.
  intros H Hrect Hsmall Hk Hfull Hpos Hn Hb.
  destruct (post_init_inv get_cmap self c H) as [Ha [Hp _]].
  set (self' := set_n_bars self
         (if Z.eqb (n_bars self) 0 then Z.of_nat (shape1 (df self)) else n_bars self)) in *.
  assert (Hn' : (0 <= n_bars self')%Z).
  { cbn. destruct (Z.eqb_spec (n_bars self) 0); lia. }
  assert (W : length cells = shape1 (df self))
    by apply (rectangular_row _ k _ Hrect Hk).
  destruct (plot_bars_inv c _ b Hb)
    as [ranks [values [longest [G [_ [L [_ [_ [_ [B1 [_ [C _]]]]]]]]]]]].
  apply (getitem_nonneg _ _ _ Hpos) in G.
  destruct (rank_frame_at_row self' _ _ k _ Hp Hsmall Hk Hpos) as [ranks' [R [_ CR]]].
  change (steps_per_period self') with (steps_per_period self) in R.
  rewrite R in G. injection G as ->.
  change (df self') with (df self) in CR. cbn [snd] in CR.
  rewrite Ha in L, C, B1. change (df self') with (df self) in L, C.
  assert (Full : forall x, In x (map exact cells) -> x <> None).
  { intros x Hx. apply in_map_iff in Hx. destruct Hx as [c0 [<- Hc0]].
    rewrite forallb_forall in Hfull. specialize (Hfull c0 Hc0).
    destruct c0; try discriminate Hfull; discriminate. }
  assert (Count : length (filter (in_view_cell (n_bars self')) ranks)
                  = Nat.min (Z.to_nat (n_bars self')) (shape1 (df self))).
  { rewrite (filter_length_by_place _
               (fun j => (position_of j (sorted_desc (map exact cells))
                          <? Z.to_nat (n_bars self'))%nat)).
    - rewrite L, <- W, <- (length_map exact cells).
      rewrite <- (filter_map_length (fun p => (p <? Z.to_nat (n_bars self'))%nat)
                    (fun j => position_of j (sorted_desc (map exact cells)))).
      rewrite (filter_length_perm _ _ _ (positions_permutation _ Full)).
      apply count_below.
    - intros j a Hj.
      assert (Lj : (j < shape1 (df self))%nat).
      { rewrite <- L. apply nth_error_Some. congruence. }
      destruct (full_cell (map exact cells) j Full) as [v Hv];
        [rewrite length_map; lia|].
      destruct (final_rank_in_view self' _ j v Hn' Hv) as [r [Hr [V _]]].
      rewrite (CR j r Lj Hr) in Hj. injection Hj as <-. cbn [in_view_cell].
      destruct (Nat.ltb_spec (position_of j (sorted_desc (map exact cells)))
                  (Z.to_nat (n_bars self'))) as [P | P].
      + apply in_view_spec, V. lia.
      + apply not_true_iff_false. intros I. apply in_view_spec, V in I. lia. }
  rewrite Ha. split; [| split; [| reflexivity]].
  - rewrite C, masked_length by exact L. exact Count.
  - rewrite <- (length_map Some), B1, C.
    rewrite !masked_length by (try reflexivity; exact L). reflexivity.
Qed.

Lemma plot_bars_period_count_witness :
  exists c b,
    __attrs_post_init__ no_cmap (chart_of (race_table 3) 2 "desc" "h" 1) = Ok c /\
    plot_bars c 2 = Ok b /\ length (cols b) = 1%nat /\ cols b = ["down"%string].
Proof.
  destruct (__attrs_post_init__ no_cmap (chart_of (race_table 3) 2 "desc" "h" 1))
    as [c | e] eqn:E; [| discriminate E].
  exists c. destruct (plot_bars c 2) as [b | e] eqn:P.
  - exists b. split; [reflexivity|]. split; [reflexivity|].
    destruct (plot_bars_period_count no_cmap _ c 1 "t" [Num 1; Num 2] b E) as [L [_ N]];
      try reflexivity; try discriminate; try exact P.
    + split; [reflexivity | repeat constructor].
    + split.
      * rewrite L, N. reflexivity.
      * injection E as E. subst c. injection P as <-. reflexivity.
  - exfalso. injection E as E. subst c. discriminate P.
Defined.

(** ** What [plot_bars] hands to the drawing call *)

(** X11: the four arrays [plot_bars] hands to the drawing call belong
    together: they are as long as each other, and each bar has the colour
    the chart keeps for its column, so that a column has the same colour
    in every frame. *)
Theorem plot_bars_arrays_agree (c : Chart) (i : Z) (b : Bars) :
  plot_bars c i = Ok b ->
  length (bar_location b) = length (cols b) /\
  length (bar_length b) = length (cols b) /\
  length (colors b) = length (cols b) /\
  (1 <= length (cols b))%nat /\
  forall name col, In (name, col) (combine (cols b) (colors b)) ->
    In (name, col) (combine (columns (df (attrs c))) (bar_colors c)).
Proof.
  intros H.
  destruct (plot_bars_inv c i b H)
    as [ranks [values [longest [_ [_ [L1 [L2 [L3 [_ [B1 [B2 [B3 [B4 [M _]]]]]]]]]]]]]].
  unfold shape1 in *.
  assert (N : bar_length b <> []) by (intros E; rewrite E in M; discriminate M).
  rewrite <- (length_map Some (bar_location b)), <- (length_map Some (bar_length b)).
  assert (N' : map Some (bar_length b) <> []) by (destruct (bar_length b); [congruence | discriminate]).
  rewrite B1, B2, B3, B4 in *.
  rewrite (masked_length _ ranks ranks) by reflexivity.
  rewrite (masked_length _ ranks (row_values _ values))
    by (rewrite row_values_length; congruence).
  rewrite (masked_length _ ranks (columns (df (attrs c)))) by congruence.
  rewrite (masked_length _ ranks (bar_colors c)) by congruence.
  repeat split.
  - rewrite <- (masked_length _ ranks (row_values (kinds (df_values c)) values))
      by (rewrite row_values_length; congruence).
    destruct (map snd (filter fst (combine (map (in_view_cell (n_bars (attrs c))) ranks)
                                     (row_values (kinds (df_values c)) values))));
      [congruence | simpl; lia].
  - intros name col Hin. rewrite masked_combine in Hin by congruence.
    eapply masked_In, Hin.
Qed.

Lemma plot_bars_arrays_agree_witness :
  exists c b,
    __attrs_post_init__ no_cmap (race_chart 3 2 "desc" "h") = Ok c /\
    plot_bars c 1 = Ok b /\ length (colors b) = length (cols b) /\
    cols b = ["up"; "down"]%string.
Proof.
  destruct (__attrs_post_init__ no_cmap (race_chart 3 2 "desc" "h")) as [c | e] eqn:E;
    [| discriminate E].
  exists c. destruct (plot_bars c 1) as [b | e] eqn:P.
  - exists b. split; [reflexivity|]. split; [reflexivity|]. split.
    + exact (proj1 (proj2 (proj2 (plot_bars_arrays_agree c 1 b P)))).
    + injection E as E. subst c. injection P as <-. reflexivity.
  - exfalso. injection E as E. subst c. discriminate P.
Defined.

Lemma fold_Qmax_bounds (l : list Q) (x0 : Q) :
  In (fold_left Qmax l x0) (x0 :: l) /\
  forall y, In y (x0 :: l) -> y <= fold_left Qmax l x0.
Proof.
  revert x0. induction l as [| a l IH]; intros x0; simpl.
  - split; [now left|]. intros y [<- | []]. apply Qle_refl.
  - destruct (IH (Qmax x0 a)) as [I B]. split.
    + destruct I as [I | I]; [| right; now right].
      rewrite <- I. unfold Qmax, GenericMinMax.gmax.
      destruct (x0 ?= a); [now left | right; now left | now left].
    + intros y [<- | [<- | Hy]].
      * eapply Qle_trans; [apply Q.le_max_l | apply B; now left].
      * eapply Qle_trans; [apply Q.le_max_r | apply B; now left].
      * apply B. now right.
Qed.

(** X12: the upper limit [plot_bars] sets on the value axis is the length
    of the longest bar drawn times 1.1 (orientation "h") or 1.16
    (otherwise); when that bar is not negative, no bar is longer than the
    axis. *)
Theorem plot_bars_axis_limit (c : Chart) (i : Z) (b : Bars) :
  plot_bars c i = Ok b ->
  exists longest,
    In longest (bar_length b) /\
    (forall x, In x (bar_length b) -> x <= longest) /\
    axis_limit b = (if String.eqb (orientation (attrs c)) "h"
                    then longest * (11 # 10) else longest * (116 # 100)) /\
    (0 <= longest -> forall x, In x (bar_length b) -> x <= axis_limit b).
Proof.
  intros H.
  destruct (plot_bars_inv c i b H)
    as [ranks [values [longest [_ [_ [_ [_ [_ [_ [_ [_ [_ [_ [M [A _]]]]]]]]]]]]]]].
  exists longest. unfold array_max in M.
  destruct (bar_length b) as [| x0 l]; [discriminate|]. injection M as M.
  destruct (fold_Qmax_bounds l x0) as [I B]. rewrite M in I, B.
  split; [exact I|]. split; [exact B|]. split; [exact A|].
  intros H0 x Hx. specialize (B x Hx). rewrite A.
  destruct (String.eqb (orientation (attrs c)) "h"); lra.
Qed.

Lemma plot_bars_axis_limit_witness :
  exists c b,
    __attrs_post_init__ no_cmap (race_chart 3 2 "desc" "h") = Ok c /\
    plot_bars c 0 = Ok b /\ axis_limit b = 3 * (11 # 10).
Proof.
  destruct (__attrs_post_init__ no_cmap (race_chart 3 2 "desc" "h")) as [c | e] eqn:E;
    [| discriminate E].
  exists c. destruct (plot_bars c 0) as [b | e] eqn:P.
  - exists b. split; [reflexivity|]. split; [reflexivity|].
    destruct (plot_bars_axis_limit c 0 b P) as [longest [_ [_ [A _]]]].
    injection E as E. subst c. injection P as <-. reflexivity.
  - exfalso. injection E as E. subst c. discriminate P.
Defined.

(** ** The figure that was given *)

Lemma plot_bars_without_ax (c : Chart) (i : Z) (b : Bars) :
  ax c = false -> plot_bars (set_ax c) i = Ok b -> plot_bars c i = Raise AttributeError.
Proof.
  intros Hax H. unfold plot_bars in *.
  cbn [set_ax attrs df_rank df_values bar_colors ax] in H.
  destruct (getitem (data (df_rank c)) i) as [rank_row |]; [| discriminate].
  cbn [bind] in *.
  destruct (select _ _) as [location |] in *; [| discriminate]. cbn [bind] in *.
  destruct (getitem (data (df_values c)) i) as [value_row |]; [| discriminate].
  cbn [bind] in *.
  destruct (select _ _) as [length_ |] in *; [| discriminate]. cbn [bind] in *.
  destruct (select _ (columns _)) as [cs |] in *; [| discriminate]. cbn [bind] in *.
  destruct (select _ (bar_colors c)) as [colors |] in *; [| discriminate].
  cbn [bind]. now rewrite Hax.
Qed.

(** The chart built without the figure of the caller draws what the chart
    built with it draws once it has its axes. *)
Lemma post_init_with_axes (get_cmap : string -> result (list color))
    (self : BarChart) (c : Chart) :
  __attrs_post_init__ get_cmap self = Ok c ->
  exists c0,
    __attrs_post_init__ get_cmap
      (mkBarChart (df self) (use_index self) (steps_per_period self)
         (period_length self) FigNone (orientation self) (sort self)
         (n_bars self) (label_bars self) (cmap self)) = Ok c0 /\
    get_frames c0 = get_frames c /\
    forall j, plot_bars c0 j = plot_bars (set_ax c) j.
Proof.
  destruct self as [d u s p f o so n l cm].
  cbn [df use_index steps_per_period period_length orientation sort n_bars label_bars cmap].
  unfold __attrs_post_init__, set_n_bars.
  cbn [df use_index steps_per_period period_length orientation sort n_bars label_bars
       cmap fig].
  set (n' := if Z.eqb n 0 then Z.of_nat (shape1 d) else n).
  change (prepare_data (mkBarChart d u s p FigNone o so n' l cm))
    with (prepare_data (mkBarChart d u s p f o so n' l cm)).
  change (get_label_position (mkBarChart d u s p FigNone o so n' l cm))
    with (get_label_position (mkBarChart d u s p f o so n' l cm)).
  change (get_colors get_cmap (mkBarChart d u s p FigNone o so n' l cm) cm)
    with (get_colors get_cmap (mkBarChart d u s p f o so n' l cm) cm).
  intros H.
  destruct (prepare_data (mkBarChart d u s p f o so n' l cm)) as [[dv dr] |];
    cbn [bind] in *; [| discriminate H].
  destruct (Z.eqb p 0); [discriminate H|].
  destruct (get_label_position (mkBarChart d u s p f o so n' l cm)) as [x y].
  destruct (get_colors get_cmap (mkBarChart d u s p f o so n' l cm) cm) as [colors |];
    cbn [bind] in *; [| discriminate H].
  injection H as <-. eexists. split; [reflexivity|]. split; reflexivity.
Qed.

(** X13: a constructed chart has axes exactly when no figure was given:
    construction makes them only then.  On a chart built around a figure of
    the caller, from a table of numbers, none missing, with a column or
    more, as wide as its header, with a positive step and [n_bars >= 1]
    (given or by default), [plot_bars] fails with [AttributeError] at
    every frame, until the chart is given its axes (as
    [animate_multiple_plots] does), after which every frame is drawn. *)
Theorem plot_bars_needs_axes (get_cmap : string -> result (list color))
    (self : BarChart) (c : Chart) :
  __attrs_post_init__ get_cmap self = Ok c ->
  (ax c = true <-> fig self = FigNone) /\
  (fig self <> FigNone ->
   (0 < steps_per_period self)%Z ->
   rectangular (df self) ->
   no_missing (df self) = true ->
   (1 <= shape1 (df self))%nat ->
   (n_bars self = 0 \/ 1 <= n_bars self)%Z ->
   forall i, In i (get_frames c) ->
     plot_bars c i = Raise AttributeError /\
     exists b, plot_bars (set_ax c) i = Ok b).
Proof.
  intros H.
  assert (A : ax c = match fig self with FigNone => true | _ => false end).
  { now destruct (post_init_inv get_cmap self c H) as [_ [_ [_ [_ [A _]]]]]. }
  split.
  - rewrite A. destruct (fig self); split; congruence.
  - intros Hfig Hs Hrect Hfull Hc Hn i Hi.
    destruct (post_init_with_axes get_cmap self c H) as [c0 [H0 [F0 P0]]].
    assert (Hax : ax c = false) by (rewrite A; destruct (fig self); congruence).
    assert (R : exists b, plot_bars (set_ax c) i = Ok b).
    { rewrite <- F0 in Hi.
      destruct (plot_bars_returns get_cmap _ c0 i H0 eq_refl Hs Hrect Hfull Hc Hn Hi)
        as [b Hb].
      exists b. now rewrite <- P0. }
    split; [| exact R].
    destruct R as [b Hb]. apply (plot_bars_without_ax c i b Hax Hb).
Qed.

Lemma plot_bars_needs_axes_witness :
  let self :=
    mkBarChart (race_table 3) true 2 500 FigFigure "h" "desc" 0 true (CmapName "dark24") in
  exists c,
    __attrs_post_init__ no_cmap self = Ok c /\
    ax c = false /\
    plot_bars c 0 = Raise AttributeError.
Proof.
  intros self.
  destruct (__attrs_post_init__ no_cmap self) as [c | e] eqn:E; [| discriminate E].
  exists c. split; [reflexivity|].
  destruct (plot_bars_needs_axes no_cmap self c E) as [A P].
  split.
  - destruct (ax c); [| reflexivity]. assert (F : fig self = FigNone) by now apply A.
    discriminate F.
  - apply P.
    + discriminate.
    + reflexivity.
    + split; [reflexivity | repeat constructor].
    + reflexivity.
    + cbn. lia.
    + now left.
    + injection E as E. subst c. now left.
Defined.

(** ** The label of a period *)

(** X14: with a positive step [s], the [s] frames [k*s], ..., [k*s + s - 1]
    all carry the label of row [k] of the table (so the label of the last
    row shows in the last frame only). *)
Theorem period_label_of_row (get_cmap : string -> result (list color))
    (self : BarChart) (c : Chart) (k : nat) (j : Z) (label : string) :
  __attrs_post_init__ get_cmap self = Ok c ->
  (0 < steps_per_period self)%Z ->
  nth_error (index (df self)) k = Some label ->
  (0 <= j < steps_per_period self)%Z ->
  period_label c (Z.of_nat k * steps_per_period self + j) = Ok label.
Proof.
  intros H Hs Hk Hj.
  destruct (post_init_inv get_cmap self c H) as [Ha [_ [Ho _]]].
  unfold period_label, floordiv. rewrite Ha. cbn [steps_per_period set_n_bars].
  destruct (Z.eqb_spec (steps_per_period self) 0); [lia|]. cbn [bind].
  assert (E : ((Z.of_nat k * steps_per_period self + j) / steps_per_period self
               = Z.of_nat k)%Z).
  { rewrite Z.div_add_l by lia. rewrite Z.div_small by lia. lia. }
  rewrite E, Ho.
  assert (L : (k < length (index (df self)))%nat) by (apply nth_error_Some; congruence).
  destruct (getitem_in_range (index (df self)) (Z.of_nat k) ltac:(lia)) as [a [G N]].
  rewrite Nat2Z.id, Hk in N. injection N as <-. exact G.
Qed.

Lemma period_label_of_row_witness :
  exists c,
    __attrs_post_init__ no_cmap
      (mkBarChart
         (mkDataFrame ["a"]%string [Float64]
            [("2020"%string, [Num 1]); ("2021"%string, [Num 4]); ("2022"%string, [Num 2])])
         true 3 500 FigNone "h" "desc" 0 true (CmapName "dark24"))
    = Ok c /\
    period_label c 5 = Ok "2021"%string.
Proof.
  match goal with
  | |- exists c, ?t = Ok c /\ _ =>
      destruct t as [c | e] eqn:E; [| discriminate E]
  end.
  exists c. split; [reflexivity|].
  apply (period_label_of_row no_cmap _ c 1 2 "2021" E); try reflexivity. cbn. lia.
Defined.

(** ** The frames of several charts *)

Lemma mapM_each {A B : Type} (f : A -> result B) (l : list A) (bs : list B) :
  mapM f l = Ok bs ->
  length bs = length l /\
  forall i a, nth_error l i = Some a ->
    exists b, nth_error bs i = Some b /\ f a = Ok b.
Proof.
  revert bs. induction l as [| a l IH]; intros bs H; simpl in H.
  - injection H as <-. split; [reflexivity|]. intros [| i] a Hi; discriminate.
  - destruct (f a) as [b |] eqn:Fa; [| discriminate]. cbn [bind] in H.
    destruct (mapM f l) as [bs' |]; [| discriminate]. cbn [bind] in H.
    injection H as <-. destruct (IH bs' eq_refl) as [L N]. split; [simpl; lia|].
    intros [| i] a' Hi; simpl in Hi.
    + injection Hi as <-. exists b. now split.
    + apply (N i a' Hi).
Qed.

Lemma init_func_has_frames (c : Chart) (b : Bars) :
  init_func c = Ok b -> data (df_values c) <> [].
Proof.
  intros H. unfold init_func in H.
  destruct (plot_bars_inv c 0 b H) as [ranks [values [longest [_ [G _]]]]].
  intros E. rewrite E in G. discriminate G.
Qed.

(** X16: whenever [animate_multiple_plots] returns, it was given two charts
    or more, it has saved one frame less than the shortest of them has,
    and each saved frame holds one drawing for each chart. *)
Theorem animate_multiple_plots_frames (plots : list Chart) (frames : list (list Bars)) :
  animate_multiple_plots plots = Ok frames ->
  (2 <= length plots)%nat /\
  (forall p, In p plots -> (Z.of_nat (length frames) + 1 <= Z.of_nat (length (get_frames p)))%Z) /\
  (exists p, In p plots /\ (Z.of_nat (length frames) + 1 = Z.of_nat (length (get_frames p)))%Z) /\
  Forall (fun f => length f = length plots) frames.
Proof.
  intros H. unfold animate_multiple_plots in H.
  destruct plots as [| p1 [| p2 rest]]; try discriminate.
  set (plots := p1 :: p2 :: rest) in *.
  destruct (mapM init_func (map set_ax plots)) as [inits |] eqn:I; [| discriminate].
  cbn [bind] in H.
  destruct (Z.eqb (steps_per_period (attrs p1)) 0); [discriminate|].
  assert (Hd : forall p, In p (map set_ax plots) -> data (df_values p) <> []).
  { intros p Hp. destruct (In_nth_error _ _ Hp) as [k Hk].
    destruct (mapM_each _ _ _ I) as [_ N]. destruct (N k p Hk) as [b [_ Hb]].
    apply (init_func_has_frames p b Hb). }
  destruct (multiple_plots_frames_count (map set_ax plots) ltac:(discriminate) Hd)
    as [n [F [_ [B1 B2]]]].
  rewrite F in H. cbn [bind] in H. unfold run_animation in H. cbn [frame_seq] in H.
  destruct (mapM_each _ _ _ H) as [L N]. rewrite range_length in L.
  assert (Hn : (0 <= n)%Z).
  { destruct B2 as [p [Hp E]]. specialize (Hd p Hp).
    unfold get_frames in E. rewrite range_length, Nat2Z.id in E.
    destruct (data (df_values p)); [congruence | simpl in E; lia]. }
  split; [simpl; lia|]. split; [| split].
  - intros p Hp. rewrite L, Z2Nat.id by lia.
    apply (B1 (set_ax p)). now apply in_map.
  - destruct B2 as [p [Hp E]]. apply in_map_iff in Hp. destruct Hp as [p0 [<- Hp0]].
    exists p0. split; [exact Hp0|]. rewrite L, Z2Nat.id by lia. exact E.
  - apply Forall_forall. intros f Hf. destruct (In_nth_error _ _ Hf) as [k Hk].
    assert (Lk : (k < length (range n))%nat).
    { rewrite range_length, <- L. apply nth_error_Some. congruence. }
    destruct (nth_error (range n) k) as [fr |] eqn:Ek;
      [| apply nth_error_None in Ek; lia].
    destruct (N k fr Ek) as [f' [Hf' M]]. rewrite Hk in Hf'. injection Hf' as <-.
    destruct (mapM_each _ _ _ M) as [Lf _]. now rewrite Lf, length_map.
Qed.

Lemma animate_multiple_plots_frames_witness :
  exists c frames,
    __attrs_post_init__ no_cmap (race_chart 3 2 "desc" "h") = Ok c /\
    animate_multiple_plots [c; c; c] = Ok frames /\
    length frames = 4%nat /\
    Forall (fun f => length f = 3%nat) frames.
Proof.
  destruct (__attrs_post_init__ no_cmap (race_chart 3 2 "desc" "h")) as [c | e] eqn:E;
    [| discriminate E].
  exists c. destruct (animate_multiple_plots [c; c; c]) as [frames | e] eqn:A.
  - exists frames. split; [reflexivity|]. split; [reflexivity|]. split.
    + injection E as E. subst c. injection A as <-. reflexivity.
    + exact (proj2 (proj2 (proj2 (animate_multiple_plots_frames [c; c; c] frames A)))).
  - exfalso. injection E as E. subst c. discriminate A.
Defined.

(** ** Speed *)

(** X17: in exact arithmetic the frame rate construction computes and the
    interval [make_animation] computes go together: [fps] frames a second
    times [interval] milliseconds a frame is 1000, so that a period lasts
    [period_length] milliseconds; with a step of 0 the interval is a
    division by zero. *)
Theorem fps_times_interval (get_cmap : string -> result (list color))
    (self : BarChart) (c : Chart) :
  __attrs_post_init__ get_cmap self = Ok c ->
  (steps_per_period self = 0%Z -> interval (attrs c) = Raise ZeroDivisionError) /\
  (steps_per_period self <> 0%Z ->
   exists iv, interval (attrs c) = Ok iv /\
     fps c * iv == 1000 /\
     iv * inject_Z (steps_per_period self) == inject_Z (period_length self)).
Proof.
  intros H. unfold __attrs_post_init__ in H.
  destruct (prepare_data _) as [[dv dr] |] in H; [| discriminate]. cbn [bind] in H.
  cbn [period_length steps_per_period set_n_bars] in H.
  destruct (Z.eqb_spec (period_length self) 0) as [| Hp]; [discriminate|].
  destruct (get_label_position _) as [x y] in H.
  destruct (get_colors _ _ _) as [colors |] in H; [| discriminate]. cbn [bind] in H.
  injection H as <-. unfold interval. cbn [attrs fps steps_per_period period_length set_n_bars].
  split.
  - intros ->. reflexivity.
  - intros Hs. destruct (Z.eqb_spec (steps_per_period self) 0); [contradiction|].
    eexists. split; [reflexivity|].
    assert (inject_Z (period_length self) == 0 -> False).
    { intros E. apply Hp. now apply (proj1 (inject_Z_injective _ 0)). }
    assert (inject_Z (steps_per_period self) == 0 -> False).
    { intros E. apply Hs. now apply (proj1 (inject_Z_injective _ 0)). }
    split; field; auto.
Qed.

Lemma fps_times_interval_witness :
  exists c iv,
    __attrs_post_init__ no_cmap (race_chart 3 2 "desc" "h") = Ok c /\
    interval (attrs c) = Ok iv /\ iv == 250 /\ fps c * iv == 1000.
Proof.
  destruct (__attrs_post_init__ no_cmap (race_chart 3 2 "desc" "h")) as [c | e] eqn:E;
    [| discriminate E].
  destruct (fps_times_interval no_cmap _ c E) as [_ R].
  destruct R as [iv [I [P _]]]; [discriminate|].
  exists c, iv. split; [reflexivity|]. split; [exact I|]. split; [| exact P].
  injection E as E. subst c. injection I as <-. reflexivity.
Defined.

(** ** The writer of the file *)

Lemma split_dot_nonempty (s : string) : split_dot s <> [].
Proof.
  destruct s as [| c s]; simpl; [discriminate|].
  destruct (Ascii.eqb c "."); [discriminate|].
  destruct (split_dot s); discriminate.
Qed.

Lemma string_app_assoc (a b c : string) :
  ((a ++ b) ++ c = a ++ (b ++ c))%string.
Proof. induction a as [| x a IH]; simpl; [reflexivity | now rewrite IH]. Qed.

Lemma concat_cons_char (c : ascii) (h : string) (t : list string) :
  String.concat "." (String c h :: t) = String c (String.concat "." (h :: t)).
Proof. destruct t; reflexivity. Qed.

Lemma concat_cons_empty (l : list string) :
  l <> [] -> String.concat "." (EmptyString :: l) = String "." (String.concat "." l).
Proof. destruct l; [congruence | reflexivity]. Qed.

(** Joining the parts with dots gives the name back. *)
Lemma split_dot_join (s : string) : String.concat "." (split_dot s) = s.
Proof.
  induction s as [| c s IH]; [reflexivity|].
  cbn [split_dot]. destruct (Ascii.eqb_spec c "."%char) as [-> | N].
  - rewrite concat_cons_empty by apply split_dot_nonempty. now rewrite IH.
  - pose proof (split_dot_nonempty s) as Hne.
    destruct (split_dot s) as [| h t]; [congruence|].
    now rewrite concat_cons_char, IH.
Qed.

Lemma concat_last (l : list string) :
  l <> [] ->
  String.concat "." l = last l EmptyString
  \/ exists stem, String.concat "." l = (stem ++ "." ++ last l EmptyString)%string.
Proof.
  induction l as [| h t IH]; intros Hne; [congruence|].
  destruct t as [| h' t]; [now left|]. right.
  destruct (IH ltac:(discriminate)) as [E | [stem E]].
  - exists h. change (last (h :: h' :: t) EmptyString) with (last (h' :: t) EmptyString).
    rewrite <- E. reflexivity.
  - exists (h ++ "." ++ stem)%string.
    change (last (h :: h' :: t) EmptyString) with (last (h' :: t) EmptyString).
    change (String.concat "." (h :: h' :: t))
      with (h ++ "." ++ String.concat "." (h' :: t))%string.
    rewrite E, !string_app_assoc. reflexivity.
Qed.

Lemma split_dot_app (stem e : string) :
  split_dot (stem ++ String "." e) = split_dot stem ++ split_dot e.
Proof.
  induction stem as [| c stem IH]; [reflexivity|].
  cbn [append split_dot]. destruct (Ascii.eqb c "."%char).
  - now rewrite IH.
  - rewrite IH. pose proof (split_dot_nonempty stem) as Hne.
    destruct (split_dot stem) as [| h t]; [congruence | reflexivity].
Qed.

Lemma extension_app (stem e : string) :
  extension (stem ++ String "." e) = extension e.
Proof.
  unfold extension. rewrite split_dot_app.
  pose proof (split_dot_nonempty e) as Hne.
  destruct (split_dot e) as [| h t]; [congruence|].
  induction (split_dot stem) as [| x l IH]; [reflexivity|].
  rewrite <- IH. simpl. destruct (l ++ h :: t) eqn:E; [| reflexivity].
  destruct l; discriminate.
Qed.

(** X18: [make_animation] saves with the writer "imagemagick" exactly when
    the file name is "gif" or ends with ".gif" (lower case), and without a
    writer otherwise; the frame rate is that of the chart either way. *)
Theorem save_writer_gif (c : Chart) (filename : string) :
  fst (save_args c filename) = fps c /\
  (snd (save_args c filename) = Some "imagemagick"%string <->
   filename = "gif"%string \/ exists stem, filename = (stem ++ ".gif")%string) /\
  (snd (save_args c filename) = None \/
   snd (save_args c filename) = Some "imagemagick"%string).
Proof.
  unfold save_args.
  destruct (String.eqb_spec (extension filename) "gif") as [E | N]; cbn [fst snd].
  - split; [reflexivity|]. split; [| now right]. split; [intros _ | reflexivity].
    pose proof (split_dot_join filename) as J.
    destruct (concat_last (split_dot filename) (split_dot_nonempty filename))
      as [L | [stem L]]; rewrite J in L; fold (extension filename) in L; rewrite E in L.
    + now left.
    + right. now exists stem.
  - split; [reflexivity|]. split; [| now left]. split; [discriminate|].
    intros [-> | [stem ->]]; exfalso; apply N; [reflexivity|].
    apply (extension_app stem "gif").
Qed.

(** ** What construction needs *)




(** ** Between two periods *)

Lemma lerp_view_iff (n : Q) (inv : bool) (a b : Q) (j g : nat) :
  (0 < j < g)%nat ->
  (if inv then 0 <= a <= n else 1 <= a <= n + 1) ->
  (if inv then 0 <= b <= n else 1 <= b <= n + 1) ->
  let m := a + (b - a) * (inject_Z (Z.of_nat j) / inject_Z (Z.of_nat g)) in
  (0 < m /\ m < n + 1 <-> (0 < a /\ a < n + 1) \/ (0 < b /\ b < n + 1)).
Proof.
  intros Hj Ha Hb.
  set (t := inject_Z (Z.of_nat j) / inject_Z (Z.of_nat g)).
  assert (Hg' : 0 < inject_Z (Z.of_nat g)).
  { change 0 with (inject_Z 0). rewrite <- Zlt_Qlt. lia. }
  assert (Ht0 : 0 < t).
  { unfold t. apply Qlt_shift_div_l; [exact Hg'|]. rewrite Qmult_0_l.
    change 0 with (inject_Z 0). rewrite <- Zlt_Qlt. lia. }
  assert (Ht1 : t < 1).
  { unfold t. apply Qlt_shift_div_r; [exact Hg'|]. rewrite Qmult_1_l.
    rewrite <- Zlt_Qlt. lia. }
  cbv zeta. generalize dependent t. intros t Ht0 Ht1.
  destruct inv.
  - split.
    + intros [P _]. destruct (Qlt_le_dec 0 a) as [A | A]; [left; lra|].
      destruct (Qlt_le_dec 0 b) as [B | B]; [right; lra|].
      exfalso. assert (a == 0) by lra. assert (b == 0) by lra. nra.
    + intros [[A _] | [B _]]; split; nra.
  - split.
    + intros [_ P]. destruct (Qlt_le_dec a (n + 1)) as [A | A]; [left; lra|].
      destruct (Qlt_le_dec b (n + 1)) as [B | B]; [right; lra|].
      exfalso. assert (a == n + 1) by lra. assert (b == n + 1) by lra. nra.
    + intros [[_ A] | [_ B]]; split; nra.
Qed.

(** X20: between two periods every bar moves on a straight line (in exact
    arithmetic, on a table without integer beyond [2^53]): with a positive
    step [s], at frame [k*s + i] ([0 < i < s]) the rank of a column that
    holds a number in both periods is the point [i] steps out of [s] on
    the way from its rank at period [k] to its rank at period [k + 1].
    Such a column is therefore in view at that frame exactly when it is in
    view at one of the two periods, so that more than [n_bars] bars can be
    drawn between periods. *)
Theorem rank_frame_between (self : BarChart) (vf rf : Frame) (k i : nat)
    (label label' : string) (cells cells' : list cell) :
  prepare_data self = Ok (vf, rf) ->
  rectangular (df self) ->
  small_ints (df self) = true ->
  nth_error (rows (df self)) k = Some (label, cells) ->
  nth_error (rows (df self)) (S k) = Some (label', cells') ->
  (0 < i < Z.to_nat (steps_per_period self))%nat ->
  (0 <= n_bars self)%Z ->
  let s := Z.to_nat (steps_per_period self) in
  let n := inject_Z (n_bars self) in
  exists Rk Rm Rk1,
    nth_error (data rf) (k * s) = Some Rk /\
    nth_error (data rf) (k * s + i) = Some Rm /\
    nth_error (data rf) (S k * s) = Some Rk1 /\
    forall j c c',
      nth_error cells j = Some c -> nth_error cells' j = Some c' ->
      is_number c = true -> is_number c' = true ->
      exists a m b,
        nth_error Rk j = Some (Some a) /\
        nth_error Rm j = Some (Some m) /\
        nth_error Rk1 j = Some (Some b) /\
        m == a + (b - a) * (inject_Z (Z.of_nat i) / inject_Z (Z.of_nat s)) /\
        (0 < m /\ m < n + 1 <-> (0 < a /\ a < n + 1) \/ (0 < b /\ b < n + 1)).
Proof.
  intros H Hrect Hsmall Hk Hk1 Hi Hn s n.
  assert (Hs : (0 < steps_per_period self)%Z) by lia.
  destruct (prepare_data_inv self vf rf H) as [m0 [V [ks [_ [_ [Hm [Hnd [_ [_ ->]]]]]]]]].
  assert (Hne : rows (df self) <> []) by (intros E; rewrite E in Hk; destruct k; discriminate).
  destruct (scaled_positive _ _ Hs (rows_nonempty _ Hne)) as [_ Hm'].
  rewrite Hm in Hm'. injection Hm' as ->. rewrite stored_values_length.
  set (r := length (rows (df self))).
  assert (Hr : (S k < r)%nat) by (apply nth_error_Some; congruence).
  set (vals := map (final_rank self) (rank_values (df self))).
  assert (Lv : length vals = r).
  { unfold vals. now rewrite length_map, rank_values_length. }
  assert (Nv : forall q lab cs, nth_error (rows (df self)) q = Some (lab, cs) ->
            nth_error vals q = Some (final_rank self (map exact cs))).
  { intros q lab cs Hq. unfold vals.
    rewrite (small_rank_values _ Hsmall), nth_error_map.
    now rewrite (stored_values_nth_error _ q _ Hq). }
  assert (Hvne : vals <> []) by (intros E; rewrite E in Lv; simpl in Lv; lia).
  set (m := ((Z.of_nat r - 1) * steps_per_period self)%Z).
  assert (Hm1 : Z.to_nat (m + 1) = ((r - 1) * s + 1)%nat) by (unfold m, s; nia).
  destruct (built_row (shape1 (df self)) (repeat Float64 (shape1 (df self))) m
              (scale_index (steps_per_period self) (reset_index vals)) (k * s))
    as [Rk [Ek [_ Ck]]]; [fold s in Hi; nia|].
  destruct (built_row (shape1 (df self)) (repeat Float64 (shape1 (df self))) m
              (scale_index (steps_per_period self) (reset_index vals)) (k * s + i))
    as [Rm [Em [_ Cm]]]; [fold s in Hi; nia|].
  destruct (built_row (shape1 (df self)) (repeat Float64 (shape1 (df self))) m
              (scale_index (steps_per_period self) (reset_index vals)) (S k * s))
    as [Rk1 [Ek1 [_ Ck1]]]; [fold s in Hi; nia|].
  exists Rk, Rm, Rk1. split; [exact Ek|]. split; [exact Em|]. split; [exact Ek1|].
  intros j c c' Hc Hc' Nc Nc'.
  assert (Hj : (j < shape1 (df self))%nat).
  { rewrite <- (rectangular_row _ k _ Hrect Hk). apply nth_error_Some.
    cbn [snd]. congruence. }
  assert (K : forall (cs : list cell) c0, nth_error cs j = Some c0 -> is_number c0 = true ->
              exists a, nth_error (final_rank self (map exact cs)) j = Some (Some a) /\
                (if inverts (sort self) (orientation self)
                 then 0 <= a <= n else 1 <= a <= n + 1)).
  { intros cs c0 Hc0 N0.
    assert (X : exists v, nth_error (map exact cs) j = Some (Some v)).
    { rewrite nth_error_map, Hc0. destruct c0; try discriminate N0; eexists; reflexivity. }
    destruct X as [v X].
    pose proof (final_rank_nth_error self _ j v X) as F.
    match type of F with _ = Some (Some ?x) => set (a := x) in F end.
    pose proof (final_rank_bounds self _ _ Hn (nth_error_In _ _ F)) as B.
    clearbody a. exists a. split; [exact F|].
    unfold n. rewrite inject_Z_plus in B. exact B. }
  destruct (K cells c Hc Nc) as [a [Fa Ba]]. destruct (K cells' c' Hc' Nc') as [b [Fb Bb]].
  destruct (built_positive vals (steps_per_period self) j Hvne Hs) as [_ [P I]].
  rewrite Lv in P, I. fold m s in P, I.
  exists a, (lerp a b i s), b.
  rewrite (Ck j Hj), (Cm j Hj), (Ck1 j Hj).
  split; [apply (P k _ a (Nv k _ _ Hk)); now apply (nth_nth_error _ _ None) in Fa|].
  split.
  { apply (I k i _ _ a b (Nv k _ _ Hk) (Nv (S k) _ _ Hk1));
      [now apply (nth_nth_error _ _ None) in Fa
      | now apply (nth_nth_error _ _ None) in Fb | exact Hi]. }
  split; [apply (P (S k) _ b (Nv (S k) _ _ Hk1)); now apply (nth_nth_error _ _ None) in Fb|].
  split; [reflexivity|].
  apply (lerp_view_iff n (inverts (sort self) (orientation self)) a b i s Hi Ba Bb).
Qed.

Lemma rank_frame_between_witness :
  exists vf rf Rm m0 m1,
    prepare_data (chart_of (race_table 3) 2 "desc" "h" 1) = Ok (vf, rf) /\
    nth_error (data rf) 1 = Some Rm /\
    nth_error Rm 0 = Some (Some m0) /\ m0 == 0 /\
    nth_error Rm 1 = Some (Some m1) /\ m1 == 1 /\
    (0 < m1 /\ m1 < 2).
Proof.
  destruct (prepare_data (chart_of (race_table 3) 2 "desc" "h" 1))
    as [[vf rf] | e] eqn:E; [| discriminate E].
  destruct (rank_frame_between _ vf rf 0 1 "t" "t" [Num 0; Num 3] [Num 1; Num 2] E)
    as [Rk [Rm [Rk1 [A [B [C P]]]]]].
  - split; [reflexivity | repeat constructor].
  - reflexivity.
  - reflexivity.
  - reflexivity.
  - cbn. lia.
  - discriminate.
  - destruct (P 0%nat (Num 0) (Num 1) eq_refl eq_refl eq_refl eq_refl)
      as [a0 [m0 [b0 [Ha0 [Hm0 [Hb0 [Q0 _]]]]]]].
    destruct (P 1%nat (Num 3) (Num 2) eq_refl eq_refl eq_refl eq_refl)
      as [a1 [m1 [b1 [Ha1 [Hm1 [Hb1 [Q1 V1]]]]]]].
    assert (Va : a0 == 0 /\ b0 == 0 /\ a1 == 1 /\ b1 == 1).
    { injection E as _ <-. injection A as <-. injection C as <-.
      injection Ha0 as <-. injection Hb0 as <-. injection Ha1 as <-. injection Hb1 as <-.
      repeat split; reflexivity. }
    destruct Va as [Va0 [Vb0 [Va1 Vb1]]].
    exists vf, rf, Rm, m0, m1. split; [reflexivity|]. split; [exact B|].
    split; [exact Hm0|]. split; [rewrite Q0, Va0, Vb0; reflexivity|].
    split; [exact Hm1|]. split; [rewrite Q1, Va1, Vb1; reflexivity|].
    apply V1. left. rewrite Va1. split; reflexivity.
Defined.
